(** * KISS-Matcher: the point-cloud file readers and the PCD writer

    A shallow embedding of [python/kiss_matcher/io_utils.py]
    ([read_pcd], [read_bin], [read_ply], [write_pcd]) together with the part
    of the Python runtime these four functions lean on: byte strings and
    files, UTF-8 text, [str.strip]/[str.split]/[str.startswith]/[str.upper],
    [int()], [float()], [struct.unpack] and the [.6f] float format; and of
    [python/utils/bin2pcd.py] ([bin_to_pcd], [main]) and of the loading
    and cleaning of a cloud in [python/examples/run_kiss_matcher.py]. *)

From Stdlib Require Import ZArith NArith List Lia Bool QArith Qabs Qpower Lqa Qfield.
From Stdlib.Strings Require Import String Ascii Byte.
Import ListNotations.
Close Scope Q_scope.

Set Implicit Arguments.

(** ** Part 1. The Python runtime *)

Module Py.

(** *** Bytes, text, exceptions *)

(** A [bytes] object, and the content of a file. *)
Definition bytes := list byte.

(** A [str]: a sequence of Unicode code points. *)
Definition str := list N.

(** An ASCII literal of the source, as a [str]. *)
Definition lit (s : string) : str := map Byte.to_N (list_byte_of_string s).

(** An ASCII literal as bytes. *)
Definition blit (s : string) : bytes := list_byte_of_string s.

(** The exceptions the four functions can raise. *)
Inductive exn : Type :=
| UnicodeDecodeError            (* bytes.decode('utf-8'), text-mode read *)
| IndexError                    (* list index out of range *)
| ValueError_int                (* int(): invalid literal *)
| ValueError_float              (* float(): could not convert *)
| ValueError_unsupported_pcd    (* "Unsupported PCD data format: ..." *)
| ValueError_missing_xyz        (* "PLY file must contain x, y, z coordinates" *)
| ValueError_unsupported_ply    (* "Unsupported PLY format: ..." *)
| ValueError_reshape            (* ndarray.reshape: cannot reshape *)
| struct_error.                 (* struct.unpack: wrong buffer size *)

(** A computation that cannot loop: a value or an exception. *)
Inductive try (A : Type) : Type :=
| Val (a : A)
| Exc (e : exn).

Arguments Exc {A} e.

(** The outcome of a call: a value, an exception, or no outcome at all
    (the call loops for ever). *)
Inductive result (A : Type) : Type :=
| Ok (a : A)
| Raise (e : exn)
| Diverge.

Arguments Raise {A} e.
Arguments Diverge {A}.

Definition bind {A B} (r : try A) (k : A -> try B) : try B :=
  match r with
  | Val a => k a
  | Exc e => Exc e
  end.

Definition finish {A} (r : try A) : result A :=
  match r with
  | Val a => Ok a
  | Exc e => Raise e
  end.

Definition of_option {A} (e : exn) (o : option A) : try A :=
  match o with Some a => Val a | None => Exc e end.

(** [[f x for x in xs]] with an [f] that may raise: left to right, the
    first exception wins. *)
Fixpoint map_try {A B} (f : A -> try B) (xs : list A) : try (list B) :=
  match xs with
  | [] => Val []
  | x :: r => bind (f x) (fun y => bind (map_try f r) (fun ys => Val (y :: ys)))
  end.

(** *** UTF-8 *)

Definition is_cont (n : N) : bool := ((128 <=? n) && (n <=? 191))%N.

(** [bytes.decode('utf-8')], strict: [None] is [UnicodeDecodeError].
    Overlong forms, surrogates and code points above U+10FFFF are
    rejected, as CPython does. *)
Fixpoint utf8_decode (bs : bytes) : option str :=
  match bs with
  | [] => Some []
  | b0 :: r0 =>
    let n0 := Byte.to_N b0 in
    if (n0 <? 128)%N then option_map (cons n0) (utf8_decode r0)
    else if ((194 <=? n0) && (n0 <=? 223))%N then
      match r0 with
      | b1 :: r1 =>
        let n1 := Byte.to_N b1 in
        if is_cont n1
        then option_map (cons ((n0 - 192) * 64 + (n1 - 128))%N) (utf8_decode r1)
        else None
      | _ => None
      end
    else if ((224 <=? n0) && (n0 <=? 239))%N then
      match r0 with
      | b1 :: b2 :: r2 =>
        let n1 := Byte.to_N b1 in
        let n2 := Byte.to_N b2 in
        if (is_cont n1 && is_cont n2
            && (negb (n0 =? 224) || (160 <=? n1))
            && (negb (n0 =? 237) || (n1 <=? 159)))%N
        then option_map
               (cons ((n0 - 224) * 4096 + (n1 - 128) * 64 + (n2 - 128))%N)
               (utf8_decode r2)
        else None
      | _ => None
      end
    else if ((240 <=? n0) && (n0 <=? 244))%N then
      match r0 with
      | b1 :: b2 :: b3 :: r3 =>
        let n1 := Byte.to_N b1 in
        let n2 := Byte.to_N b2 in
        let n3 := Byte.to_N b3 in
        if (is_cont n1 && is_cont n2 && is_cont n3
            && (negb (n0 =? 240) || (144 <=? n1))
            && (negb (n0 =? 244) || (n1 <=? 143)))%N
        then option_map
               (cons ((n0 - 240) * 262144 + (n1 - 128) * 4096
                      + (n2 - 128) * 64 + (n3 - 128))%N)
               (utf8_decode r3)
        else None
      | _ => None
      end
    else None
  end.

(** [len(c.encode('utf-8'))] for one code point. *)
Definition utf8_len (c : N) : nat :=
  if (c <? 128)%N then 1
  else if (c <? 2048)%N then 2
  else if (c <? 65536)%N then 3
  else 4.

(** [len(s.encode('utf-8'))]. *)
Definition encoded_len (s : str) : nat :=
  fold_right (fun c n => utf8_len c + n) 0 s.

(** *** str methods *)

(** [str.isspace] on one code point: the white space of [strip] and
    [split]. *)
Definition isspace (c : N) : bool :=
  (((9 <=? c) && (c <=? 13)) || ((28 <=? c) && (c <=? 32))
   || (c =? 133) || (c =? 160) || (c =? 5760)
   || ((8192 <=? c) && (c <=? 8202))
   || (c =? 8232) || (c =? 8233) || (c =? 8239) || (c =? 8287)
   || (c =? 12288))%N.

Fixpoint lstrip (s : str) : str :=
  match s with
  | [] => []
  | c :: r => if isspace c then lstrip r else s
  end.

Definition rstrip (s : str) : str := rev (lstrip (rev s)).

(** [s.strip()]. *)
Definition strip (s : str) : str := rstrip (lstrip s).

(** [s.split()]: the maximal runs of non-space code points. [cur] is the
    run being read. *)
Fixpoint split_aux (s : str) (cur : str) : list str :=
  match s with
  | [] => match cur with [] => [] | _ => [cur] end
  | c :: r =>
    if isspace c
    then match cur with [] => split_aux r [] | _ => cur :: split_aux r [] end
    else split_aux r (cur ++ [c])
  end.

Definition split (s : str) : list str := split_aux s [].

Fixpoint str_eqb (a b : str) : bool :=
  match a, b with
  | [], [] => true
  | x :: a', y :: b' => (x =? y)%N && str_eqb a' b'
  | _, _ => false
  end.

(** [s.startswith(prefix)]. *)
Fixpoint startswith (s prefix : str) : bool :=
  match prefix, s with
  | [], _ => true
  | p :: ps, c :: cs => (p =? c)%N && startswith cs ps
  | _ :: _, [] => false
  end.

(** [s.upper()], as far as a comparison with an ASCII upper-case word can
    tell: a-z go to A-Z, U+0131 (dotless i) to I and U+017F (long s) to S;
    every other code point either is its own upper case or has an upper
    case that holds no ASCII letter sequence occurring in such a word, and
    is left as it is. *)
Definition upper_char (c : N) : N :=
  if ((97 <=? c) && (c <=? 122))%N then (c - 32)%N
  else if (c =? 305)%N then 73%N
  else if (c =? 383)%N then 83%N
  else c.

Definition upper (s : str) : str := map upper_char s.

(** [x in xs] and [xs.index(x)] for a list of strings. *)
Fixpoint index (x : str) (xs : list str) : option nat :=
  match xs with
  | [] => None
  | y :: r => if str_eqb y x then Some 0 else option_map S (index x r)
  end.

(** [xs[-1]]. *)
Definition last_item {A} (xs : list A) : option A :=
  match rev xs with [] => None | x :: _ => Some x end.

(** *** int() *)

Definition digit_val (c : N) : option N :=
  if ((48 <=? c) && (c <=? 57))%N then Some (c - 48)%N else None.

(** The rest of a [digitpart] after a digit: digits, each optionally
    preceded by one underscore.  [acc] is the value and [cnt] the number
    of the digits read so far. *)
Fixpoint digits_from (s : str) (acc : N) (cnt : nat) : option (N * nat) :=
  match s with
  | [] => Some (acc, cnt)
  | c :: r =>
    match digit_val c with
    | Some d => digits_from r (10 * acc + d)%N (S cnt)
    | None =>
      if (c =? 95)%N then
        match r with
        | c' :: r' =>
          match digit_val c' with
          | Some d => digits_from r' (10 * acc + d)%N (S cnt)
          | None => None
          end
        | [] => None
        end
      else None
    end
  end.

(** [digitpart ::= digit (["_"] digit)*], the whole of [s]: its value and
    its number of digits. *)
Definition digitpart (s : str) : option (N * nat) :=
  match s with
  | c :: r =>
    match digit_val c with
    | Some d => digits_from r d 1
    | None => None
    end
  | [] => None
  end.

(** [int(s)] in base 10: optional sign, then a [digitpart]; [None] is
    [ValueError].  Decimal digits outside ASCII, which CPython also
    accepts, are not part of the model. *)
Definition int_of_str (s : str) : option Z :=
  match strip s with
  | c :: r =>
    if (c =? 45)%N then option_map (fun v => (- Z.of_N (fst v))%Z) (digitpart r)
    else if (c =? 43)%N then option_map (fun v => Z.of_N (fst v)) (digitpart r)
    else option_map (fun v => Z.of_N (fst v)) (digitpart (c :: r))
  | [] => None
  end.

Definition int (s : str) : try Z := of_option ValueError_int (int_of_str s).

(** [str(n)] for a non-negative int: its decimal digits. *)
Fixpoint str_of_N_fuel (fuel : nat) (n : N) (acc : str) : str :=
  match fuel with
  | O => acc
  | S f =>
    let acc' := (48 + n mod 10)%N :: acc in
    if (n <? 10)%N then acc' else str_of_N_fuel f (n / 10)%N acc'
  end.

Definition str_of_N (n : N) : str :=
  str_of_N_fuel (S (N.to_nat (N.log2 n))) n [].

(** *** Floats

    A Python float is an IEEE-754 binary64 value.  A finite one is kept as
    the dyadic number [(-1)^neg * m * 2^e] in lowest terms ([m] odd, or
    [m = 0] and [e = 0]), so that equal values are equal terms; the sign
    of a zero is kept. *)

Inductive float : Type :=
| NaN
| Inf (neg : bool)
| Fin (neg : bool) (m : N) (e : Z).

Fixpoint strip_zeros (p : positive) (e : Z) : positive * Z :=
  match p with
  | xO p' => strip_zeros p' (e + 1)%Z
  | _ => (p, e)
  end.

(** The float of value [(-1)^neg * m * 2^e], in lowest terms. *)
Definition dyadic (neg : bool) (m : N) (e : Z) : float :=
  match m with
  | N0 => Fin neg 0 0
  | Npos p => let '(p', e') := strip_zeros p e in Fin neg (Npos p') e'
  end.

(** The binary64 values among the terms of [float]. *)
Definition is_binary64 (x : float) : bool :=
  match x with
  | NaN | Inf _ => true
  | Fin _ N0 e => (e =? 0)%Z
  | Fin _ (Npos p) e =>
    N.odd (Npos p) && (-1074 <=? e)%Z && (N.size (Npos p) <=? 53)%N
    && (Z.of_N (N.size (Npos p)) + e <=? 1024)%Z
  end.

Definition pow2 (e : Z) : Q := (2 # 1) ^ e.

(** The value of a finite float (0 for the others). *)
Definition F2Q (x : float) : Q :=
  match x with
  | Fin neg m e =>
    ((if neg then - (1) else 1) * inject_Z (Z.of_N m) * pow2 e)%Q
  | _ => 0%Q
  end.

(** [a / b] rounded to the nearest integer, ties to even ([0 < b]). *)
Definition rne_div (a b : N) : N :=
  let q := (a / b)%N in
  let r := (a mod b)%N in
  match (2 * r ?= b)%N with
  | Lt => q
  | Gt => (q + 1)%N
  | Eq => if N.even q then q else (q + 1)%N
  end.

(** [floor (log2 (p / q))]. *)
Definition floor_log2_ratio (p q : positive) : Z :=
  let d := (Z.log2 (Zpos p) - Z.log2 (Zpos q))%Z in
  if (if (0 <=? d)%Z
      then (Zpos q * 2 ^ d <=? Zpos p)%Z
      else (Zpos q <=? Zpos p * 2 ^ (- d))%Z)
  then d else (d - 1)%Z.

(** The exponent of the unit in the last place of the binary64 values
    around [p / q]: 53 significant bits, and no finer than [2^-1074]. *)
Definition ulp_exponent (p q : positive) : Z :=
  Z.max (floor_log2_ratio p q - 52) (-1074).

(** [p / q / 2^e] rounded to the nearest integer, ties to even. *)
Definition scaled_rne (p : N) (q : positive) (e : Z) : N :=
  if (0 <=? e)%Z
  then rne_div p (Npos q * 2 ^ Z.to_N e)%N
  else rne_div (p * 2 ^ Z.to_N (- e))%N (Npos q).

(** The binary64 nearest to [(-1)^neg * p / q], ties to even, infinite on
    overflow: the rounding of [float()] and of every correctly rounded
    conversion. *)
Definition round_ratio (neg : bool) (p : N) (q : positive) : float :=
  match p with
  | N0 => Fin neg 0 0
  | Npos p' =>
    let e := ulp_exponent p' q in
    let m := scaled_rne p q e in
    if (1024 <? Z.of_N (N.size m) + e)%Z then Inf neg else dyadic neg m e
  end.

(** The float of an IEEE-754 binary32 bit pattern (exact: every binary32
    value is a binary64 value). *)
Definition float_of_bits32 (w : N) : float :=
  let s := N.testbit w 31 in
  let E := N.land (N.shiftr w 23) 255 in
  let M := N.land w 8388607 in
  if (E =? 255)%N then (if (M =? 0)%N then Inf s else NaN)
  else if (E =? 0)%N then dyadic s M (-149)
  else dyadic s (8388608 + M)%N (Z.of_N E - 150).

(** *** float() *)

Definition lower_ascii (c : N) : N :=
  if ((65 <=? c) && (c <=? 90))%N then (c + 32)%N else c.

(** [s] cut at its first code point satisfying [p]: what is before, and
    what is after if there is one. *)
Fixpoint break_at (p : N -> bool) (s : str) : str * option str :=
  match s with
  | [] => ([], None)
  | c :: r =>
    if p c then ([], Some r)
    else let '(a, b) := break_at p r in (c :: a, b)
  end.

(** [number ::= [digitpart] "." digitpart | digitpart ["."]]: the integer
    [M] and the count [k] of fraction digits with value [M / 10^k]. *)
Definition parse_number (s : str) : option (N * nat) :=
  match break_at (N.eqb 46) s with
  | (ip, None) => option_map (fun v => (fst v, 0)) (digitpart ip)
  | ([], Some fp) => option_map (fun v => (fst v, snd v)) (digitpart fp)
  | (ip, Some []) => option_map (fun v => (fst v, 0)) (digitpart ip)
  | (ip, Some fp) =>
    match digitpart ip, digitpart fp with
    | Some (i, _), Some (f, k) => Some ((i * 10 ^ N.of_nat k + f)%N, k)
    | _, _ => None
    end
  end.

(** [exponent ::= ("e" | "E") [sign] digitpart], after the letter. *)
Definition parse_exponent (s : str) : option Z :=
  match s with
  | c :: r =>
    if (c =? 45)%N then option_map (fun v => (- Z.of_N (fst v))%Z) (digitpart r)
    else if (c =? 43)%N then option_map (fun v => Z.of_N (fst v)) (digitpart r)
    else option_map (fun v => Z.of_N (fst v)) (digitpart s)
  | [] => None
  end.

(** [floatnumber ::= number [exponent]], correctly rounded. *)
Definition parse_floatnumber (neg : bool) (s : str) : option float :=
  let '(mant, ex) := break_at (fun c => (lower_ascii c =? 101)%N) s in
  match parse_number mant with
  | None => None
  | Some (M, k) =>
    match match ex with None => Some 0%Z | Some x => parse_exponent x end with
    | None => None
    | Some X =>
      let X' := (X - Z.of_nat k)%Z in
      Some (if (0 <=? X')%Z
            then round_ratio neg (M * 10 ^ Z.to_N X')%N 1
            else round_ratio neg M (Z.to_pos (10 ^ (- X'))))
    end
  end.

(** [float(s)]: [[sign] (floatnumber | "inf" | "infinity" | "nan")], the
    words in any case; [None] is [ValueError].  Decimal digits outside
    ASCII are not part of the model. *)
Definition float_of_str (s : str) : option float :=
  let s := strip s in
  let '(neg, r) :=
    match s with
    | c :: r' => if (c =? 45)%N then (true, r')
                 else if (c =? 43)%N then (false, r') else (false, s)
    | [] => (false, s)
    end in
  let w := map lower_ascii r in
  if str_eqb w (lit "inf") || str_eqb w (lit "infinity") then Some (Inf neg)
  else if str_eqb w (lit "nan") then Some NaN
  else parse_floatnumber neg r.

Definition float_ (s : str) : try float :=
  of_option ValueError_float (float_of_str s).

(** *** The [.6f] format *)

Definition digit_char (d : N) : N := (48 + d mod 10)%N.

(** Six decimal digits, zero padded. *)
Definition pad6 (r : N) : str :=
  [digit_char (r / 100000); digit_char (r / 10000); digit_char (r / 1000);
   digit_char (r / 100); digit_char (r / 10); digit_char r]%N.

(** [|x| * 10^6] rounded to the nearest integer, ties to even. *)
Definition micro (m : N) (e : Z) : N :=
  if (0 <=? e)%Z then (m * 2 ^ Z.to_N e * 1000000)%N
  else rne_div (m * 1000000)%N (2 ^ Z.to_N (- e))%N.

(** [format(x, '.6f')]: correctly rounded to six decimals. *)
Definition format_6f (x : float) : str :=
  match x with
  | NaN => lit "nan"
  | Inf neg => if neg then lit "-inf" else lit "inf"
  | Fin neg m e =>
    let n := micro m e in
    (if neg then lit "-" else []) ++ str_of_N (n / 1000000)%N
      ++ lit "." ++ pad6 (n mod 1000000)%N
  end.

(** *** struct.unpack *)

(** The integer of a little-endian byte string. *)
Definition le_to_N (b : bytes) : N :=
  fold_right (fun x acc => (Byte.to_N x + 256 * acc)%N) 0%N b.

(** [struct.unpack(fmt, b)[0]] for a format of one 4-byte item decoded by
    [dec]: the buffer must hold exactly four bytes; [None] is
    [struct.error]. *)
Definition unpack_4 (dec : bytes -> float) (b : bytes) : option float :=
  if Nat.eqb (List.length b) 4 then Some (dec b) else None.

Definition decode_le_f (b : bytes) : float := float_of_bits32 (le_to_N b).
Definition decode_be_f (b : bytes) : float := float_of_bits32 (le_to_N (rev b)).

(** [struct.unpack('<f', b)[0]]. *)
Definition unpack_le_f : bytes -> option float := unpack_4 decode_le_f.

(** [struct.unpack('>f', b)[0]]. *)
Definition unpack_be_f : bytes -> option float := unpack_4 decode_be_f.

(** *** Files *)

(** [f.readline()] on a binary file whose unread part is [f]: the line
    with its line feed, and what is left.  At end of file the line is
    empty. *)
Fixpoint readline (f : bytes) : bytes * bytes :=
  match f with
  | [] => ([], [])
  | b :: r =>
    if Byte.eqb b "010"%byte then ([b], r)
    else let '(l, r') := readline r in (b :: l, r')
  end.

(** [f.read(n)]. *)
Definition read (n : nat) (f : bytes) : bytes * bytes := (firstn n f, skipn n f).

(** Universal newlines of a text-mode file: CR LF and a lone CR are read
    as LF. *)
Fixpoint universal_newlines (s : str) : str :=
  match s with
  | [] => []
  | c :: r =>
    if (c =? 13)%N then
      match r with
      | c' :: r' => if (c' =? 10)%N then 10%N :: universal_newlines r'
                    else 10%N :: universal_newlines r
      | [] => [10%N]
      end
    else c :: universal_newlines r
  end.

(** The lines of a text, each with its line feed (the last one may lack
    it). *)
Fixpoint lines_of (s : str) (cur : str) : list str :=
  match s with
  | [] => match cur with [] => [] | _ => [cur] end
  | c :: r =>
    if (c =? 10)%N then (cur ++ [c]) :: lines_of r []
    else lines_of r (cur ++ [c])
  end.

(** [open(path, 'r').readlines()], the text encoding being UTF-8. *)
Definition text_readlines (file : bytes) : try (list str) :=
  match utf8_decode file with
  | None => Exc UnicodeDecodeError
  | Some s => Val (lines_of (universal_newlines s) [])
  end.

Definition byte_of_N (n : N) : byte :=
  match Byte.of_N (n mod 256) with Some b => b | None => "000"%byte end.

(** [s.encode('utf-8')], as a text-mode file writes it. *)
Definition utf8_encode_char (c : N) : bytes :=
  (if c <? 128 then [byte_of_N c]
   else if c <? 2048 then [byte_of_N (192 + c / 64); byte_of_N (128 + c mod 64)]
   else if c <? 65536 then
     [byte_of_N (224 + c / 4096); byte_of_N (128 + (c / 64) mod 64);
      byte_of_N (128 + c mod 64)]
   else
     [byte_of_N (240 + c / 262144); byte_of_N (128 + (c / 4096) mod 64);
      byte_of_N (128 + (c / 64) mod 64); byte_of_N (128 + c mod 64)])%N.

Definition utf8_encode (s : str) : bytes := flat_map utf8_encode_char s.

(** *** [while True:] loops

    One run of the body either goes on, leaves the loop ([break]) or
    raises.  [while_true body fuel s] runs the loop for at most [fuel]
    rounds; it is [Diverge] when they do not suffice. *)

Inductive step (S : Type) : Type :=
| Continue (s : S)
| Break (s : S)
| Throw (e : exn).

Arguments Throw {S} e.

Fixpoint while_true {S} (body : S -> step S) (fuel : nat) (s : S) : result S :=
  match fuel with
  | O => Diverge
  | Datatypes.S n =>
    match body s with
    | Continue s' => while_true body n s'
    | Break s' => Ok s'
    | Throw e => Raise e
    end
  end.

End Py.

(** ** Part 2. [io_utils.py] *)

Module IoUtils.
Import Py.

(** A row [[x, y, z]] of the returned array. *)
Definition point : Type := (float * float * float)%type.

(** *** read_pcd *)

(** The dict [header_info]: a key that was never set is [None]. *)
Record header_info : Type := {
  version : option str;
  fields : option (list str);
  size : option (list Z);
  type_ : option (list str);
  count : option (list Z);
  width : option Z;
  height : option Z;
  viewpoint : option (list float);
  points : option Z;
  data : option str
}.

Definition empty_info : header_info :=
  {| version := None; fields := None; size := None; type_ := None;
     count := None; width := None; height := None; viewpoint := None;
     points := None; data := None |}.

Definition set_version v h :=
  {| version := Some v; fields := fields h; size := size h; type_ := type_ h;
     count := count h; width := width h; height := height h;
     viewpoint := viewpoint h; points := points h; data := data h |}.
Definition set_fields v h :=
  {| version := version h; fields := Some v; size := size h; type_ := type_ h;
     count := count h; width := width h; height := height h;
     viewpoint := viewpoint h; points := points h; data := data h |}.
Definition set_size v h :=
  {| version := version h; fields := fields h; size := Some v; type_ := type_ h;
     count := count h; width := width h; height := height h;
     viewpoint := viewpoint h; points := points h; data := data h |}.
Definition set_type v h :=
  {| version := version h; fields := fields h; size := size h; type_ := Some v;
     count := count h; width := width h; height := height h;
     viewpoint := viewpoint h; points := points h; data := data h |}.
Definition set_count v h :=
  {| version := version h; fields := fields h; size := size h; type_ := type_ h;
     count := Some v; width := width h; height := height h;
     viewpoint := viewpoint h; points := points h; data := data h |}.
Definition set_width v h :=
  {| version := version h; fields := fields h; size := size h; type_ := type_ h;
     count := count h; width := Some v; height := height h;
     viewpoint := viewpoint h; points := points h; data := data h |}.
Definition set_height v h :=
  {| version := version h; fields := fields h; size := size h; type_ := type_ h;
     count := count h; width := width h; height := Some v;
     viewpoint := viewpoint h; points := points h; data := data h |}.
Definition set_viewpoint v h :=
  {| version := version h; fields := fields h; size := size h; type_ := type_ h;
     count := count h; width := width h; height := height h;
     viewpoint := Some v; points := points h; data := data h |}.
Definition set_points v h :=
  {| version := version h; fields := fields h; size := size h; type_ := type_ h;
     count := count h; width := width h; height := height h;
     viewpoint := viewpoint h; points := Some v; data := data h |}.
Definition set_data v h :=
  {| version := version h; fields := fields h; size := size h; type_ := type_ h;
     count := count h; width := width h; height := height h;
     viewpoint := viewpoint h; points := points h; data := Some v |}.

(** The state of the header loop (lines 18-52): the unread part of the
    file, [header_info] and [header_lines]. *)
Record pcd_scan : Type := {
  pcd_f : bytes;
  pcd_info : header_info;
  pcd_lines : list str
}.

(** [line_str.split()[1]]. *)
Definition word1 (line_str : str) : try str :=
  of_option IndexError (nth_error (split line_str) 1).

(** [line_str.split()[1:]]. *)
Definition words_from1 (line_str : str) : list str := tl (split line_str).

(** Lines 30-52 of a round: the decoded and stripped line is recorded
    and matched against the keywords; [f] is what is left of the file. *)
Definition pcd_header_keyword (line_str : str) (f : bytes) (st : pcd_scan)
  : step pcd_scan :=
  let header_lines := pcd_lines st ++ [line_str] in
  let h := pcd_info st in
  let next (r : try header_info) : step pcd_scan :=
    match r with
    | Val h' => Continue {| pcd_f := f; pcd_info := h'; pcd_lines := header_lines |}
    | Exc e => Throw e
    end in
  if startswith line_str (lit "VERSION") then
    next (bind (word1 line_str) (fun v => Val (set_version v h)))
  else if startswith line_str (lit "FIELDS") then
    next (Val (set_fields (words_from1 line_str) h))
  else if startswith line_str (lit "SIZE") then
    next (bind (map_try int (words_from1 line_str)) (fun v => Val (set_size v h)))
  else if startswith line_str (lit "TYPE") then
    next (Val (set_type (words_from1 line_str) h))
  else if startswith line_str (lit "COUNT") then
    next (bind (map_try int (words_from1 line_str)) (fun v => Val (set_count v h)))
  else if startswith line_str (lit "WIDTH") then
    next (bind (word1 line_str) (fun w => bind (int w) (fun v => Val (set_width v h))))
  else if startswith line_str (lit "HEIGHT") then
    next (bind (word1 line_str) (fun w => bind (int w) (fun v => Val (set_height v h))))
  else if startswith line_str (lit "VIEWPOINT") then
    next (bind (map_try float_ (words_from1 line_str))
               (fun v => Val (set_viewpoint v h)))
  else if startswith line_str (lit "POINTS") then
    next (bind (word1 line_str) (fun w => bind (int w) (fun v => Val (set_points v h))))
  else if startswith line_str (lit "DATA") then
    match word1 line_str with
    | Val v => Break {| pcd_f := f; pcd_info := set_data v h;
                        pcd_lines := header_lines |}
    | Exc e => Throw e
    end
  else next (Val h).

(** One round of [while True:] in [read_pcd] (lines 20-52). *)
Definition pcd_header_body (st : pcd_scan) : step pcd_scan :=
  let '(line, f) := readline (pcd_f st) in
  match utf8_decode line with
  | None =>
    (* except UnicodeDecodeError: break *)
    Break {| pcd_f := f; pcd_info := pcd_info st; pcd_lines := pcd_lines st |}
  | Some text => pcd_header_keyword (strip text) f st
  end.

Definition pcd_scan_init (file : bytes) : pcd_scan :=
  {| pcd_f := file; pcd_info := empty_info; pcd_lines := [] |}.

(** The header loop on a file.  A round that does not leave the loop
    reads at least one byte unless the file is at its end, so
    [S (length file)] rounds decide whether the loop ends
    ([pcd_header_fuel], [pcd_header_diverges] below). *)
Definition pcd_read_header (file : bytes) : result pcd_scan :=
  while_true pcd_header_body (S (List.length file)) (pcd_scan_init file).

(** [sum(len(line.encode('utf-8')) + 1 for line in header_lines)]. *)
Definition header_size (header_lines : list str) : nat :=
  fold_right (fun line n => encoded_len line + 1 + n) 0 header_lines.

(** [header_info.get('data', '')]. *)
Definition get_data (h : header_info) : str :=
  match data h with Some d => d | None => [] end.

(** Lines 63-67: the index after the first line that starts with DATA,
    0 when there is none. *)
Fixpoint find_data_start (lines : list str) (i : nat) : nat :=
  match lines with
  | [] => 0
  | line :: r =>
    if startswith (strip line) (lit "DATA") then i + 1
    else find_data_start r (S i)
  end.

(** Lines 69-76: [for line in lines[data_start_idx:]]. *)
Fixpoint pcd_ascii_loop (lines : list str) (pts : list point) : try (list point) :=
  match lines with
  | [] => Val pts
  | line :: r =>
    match strip line with
    | [] => pcd_ascii_loop r pts
    | line' =>
      bind (map_try float_ (split line'))
           (fun values =>
              match values with
              | x :: y :: z :: _ => pcd_ascii_loop r (pts ++ [(x, y, z)])
              | _ => pcd_ascii_loop r pts
              end)
    end
  end.

(** Lines 98-103: [for field in fields], a failed read leaves the loop. *)
Fixpoint pcd_read_fields (fs : list str) (f : bytes) (field_values : list float)
  : list float * bytes :=
  match fs with
  | [] => (field_values, f)
  | _ :: fs' =>
    let '(chunk, f') := read 4 f in
    match unpack_le_f chunk with
    | Some value => pcd_read_fields fs' f' (field_values ++ [value])
    | None => (field_values, f')
    end
  end.

(** [xs[i]]. *)
Definition item {A} (xs : list A) (i : nat) : try A :=
  of_option IndexError (nth_error xs i).

(** Lines 95-109: [for _ in range(num_points)], [n] rounds to go. *)
Fixpoint pcd_binary_loop (fs : list str) (x_idx y_idx z_idx : nat)
         (n : nat) (f : bytes) (pts : list point) : try (list point) :=
  match n with
  | O => Val pts
  | S n' =>
    let '(field_values, f') := pcd_read_fields fs f [] in
    if 3 <=? List.length field_values then
      bind (item field_values x_idx) (fun x =>
      bind (item field_values y_idx) (fun y =>
      bind (item field_values z_idx) (fun z =>
      pcd_binary_loop fs x_idx y_idx z_idx n' f' (pts ++ [(x, y, z)]))))
    else pcd_binary_loop fs x_idx y_idx z_idx n' f' pts
  end.

(** [fields.index(name) if name in fields else default]. *)
Definition index_or (name : str) (fs : list str) (default : nat) : nat :=
  match index name fs with Some i => i | None => default end.

(** Lines 58-77. *)
Definition read_pcd_ascii (file : bytes) : try (list point) :=
  bind (text_readlines file) (fun lines =>
  let data_start_idx := find_data_start lines 0 in
  pcd_ascii_loop (skipn data_start_idx lines) []).

(** Lines 79-111. *)
Definition read_pcd_binary (file : bytes) (h : header_info) (header_size : nat)
  : try (list point) :=
  let f := skipn header_size file in
  let num_points := match points h with Some n => n | None => 0%Z end in
  let fs := match fields h with Some l => l | None => [] end in
  let x_idx := index_or (lit "x") fs 0 in
  let y_idx := index_or (lit "y") fs 1 in
  let z_idx := index_or (lit "z") fs 2 in
  pcd_binary_loop fs x_idx y_idx z_idx (Z.to_nat num_points) f [].

Definition read_pcd (file : bytes) : result (list point) :=
  match pcd_read_header file with
  | Diverge => Diverge
  | Raise e => Raise e
  | Ok st =>
    let h := pcd_info st in
    let hs := header_size (pcd_lines st) in
    if str_eqb (upper (get_data h)) (lit "ASCII") then
      finish (read_pcd_ascii file)
    else if str_eqb (upper (get_data h)) (lit "BINARY") then
      finish (read_pcd_binary file h hs)
    else Raise ValueError_unsupported_pcd
  end.

(** *** read_bin *)

(** [np.fromfile(path, dtype=np.float32)]: the whole 4-byte items of the
    file, in the byte order of the machine (little-endian); bytes after
    the last whole item are dropped. *)
Fixpoint np_fromfile_float32 (f : bytes) : list float :=
  match f with
  | a :: b :: c :: d :: r => float_of_bits32 (le_to_N [a; b; c; d]) :: np_fromfile_float32 r
  | _ => []
  end.

Fixpoint rows4 (scan : list float) : list (list float) :=
  match scan with
  | a :: b :: c :: d :: r => [a; b; c; d] :: rows4 r
  | _ => []
  end.

(** [scan.reshape((-1, 4))]. *)
Definition reshape_4 (scan : list float) : try (list (list float)) :=
  if Nat.eqb (List.length scan mod 4) 0 then Val (rows4 scan)
  else Exc ValueError_reshape.

(** [scan[:, :3]]. *)
Definition columns_3 (scan : list (list float)) : list (list float) :=
  map (firstn 3) scan.

Definition read_bin (file : bytes) : try (list (list float)) :=
  let scan := np_fromfile_float32 file in
  bind (reshape_4 scan) (fun scan' => Val (columns_3 scan')).

(** *** read_ply *)

Record ply_scan : Type := {
  ply_f : bytes;
  ply_lines : list str
}.

(** One round of [while True:] in [read_ply] (lines 136-143). *)
Definition ply_header_body (st : ply_scan) : step ply_scan :=
  let '(line, f) := readline (ply_f st) in
  match utf8_decode line with
  | None => Throw UnicodeDecodeError
  | Some text =>
    let line' := strip text in
    let st' := {| ply_f := f; ply_lines := ply_lines st ++ [line'] |} in
    if str_eqb line' (lit "end_header") then Break st' else Continue st'
  end.

Definition ply_read_header (file : bytes) : result ply_scan :=
  while_true ply_header_body (S (List.length file))
             {| ply_f := file; ply_lines := [] |}.

(** The three variables of lines 146-148. *)
Record ply_header : Type := {
  vertex_count : Z;
  format_type : str;
  properties : list str
}.

Definition ply_header_init : ply_header :=
  {| vertex_count := 0; format_type := lit "ascii"; properties := [] |}.

(** [xs[-1]] as an expression that may raise. *)
Definition item_last {A} (xs : list A) : try A :=
  of_option IndexError (last_item xs).

(** Lines 151-157, for one header line. *)
Definition ply_header_line (h : ply_header) (line : str) : try ply_header :=
  if startswith line (lit "element vertex") then
    bind (item_last (split line)) (fun w => bind (int w) (fun n =>
    Val {| vertex_count := n; format_type := format_type h;
           properties := properties h |}))
  else if startswith line (lit "format") then
    bind (word1 line) (fun w =>
    Val {| vertex_count := vertex_count h; format_type := w;
           properties := properties h |})
  else if startswith line (lit "property float")
          || startswith line (lit "property double") then
    bind (item_last (split line)) (fun prop_name =>
    Val {| vertex_count := vertex_count h; format_type := format_type h;
           properties := properties h ++ [prop_name] |})
  else Val h.

(** Lines 150-157: [for line in header_lines]. *)
Fixpoint ply_parse_header (h : ply_header) (lines : list str) : try ply_header :=
  match lines with
  | [] => Val h
  | line :: r => bind (ply_header_line h line) (fun h' => ply_parse_header h' r)
  end.

(** Lines 171-180. *)
Fixpoint ply_ascii_loop (nprops x_idx y_idx z_idx : nat)
         (n : nat) (f : bytes) (pts : list point) : try (list point) :=
  match n with
  | O => Val pts
  | S n' =>
    let '(line, f') := readline f in
    bind (of_option UnicodeDecodeError (utf8_decode line)) (fun text =>
    let values := split (strip text) in
    if nprops <=? List.length values then
      bind (bind (item values x_idx) float_) (fun x =>
      bind (bind (item values y_idx) float_) (fun y =>
      bind (bind (item values z_idx) float_) (fun z =>
      ply_ascii_loop nprops x_idx y_idx z_idx n' f' (pts ++ [(x, y, z)]))))
    else ply_ascii_loop nprops x_idx y_idx z_idx n' f' pts)
  end.

(** Lines 186-189 and 200-203: [for prop in properties], with the
    [struct.unpack] of the branch. *)
Fixpoint ply_read_vertex (unpack : bytes -> option float) (props : list str)
         (f : bytes) (vertex_data : list float) : try (list float * bytes) :=
  match props with
  | [] => Val (vertex_data, f)
  | _ :: ps =>
    let '(chunk, f') := read 4 f in
    bind (of_option struct_error (unpack chunk)) (fun value =>
    ply_read_vertex unpack ps f' (vertex_data ++ [value]))
  end.

(** Lines 184-194 and 198-208. *)
Fixpoint ply_binary_loop (unpack : bytes -> option float) (props : list str)
         (x_idx y_idx z_idx : nat) (n : nat) (f : bytes) (pts : list point)
  : try (list point) :=
  match n with
  | O => Val pts
  | S n' =>
    bind (ply_read_vertex unpack props f []) (fun '(vertex_data, f') =>
    bind (item vertex_data x_idx) (fun x =>
    bind (item vertex_data y_idx) (fun y =>
    bind (item vertex_data z_idx) (fun z =>
    ply_binary_loop unpack props x_idx y_idx z_idx n' f' (pts ++ [(x, y, z)])))))
  end.

(** Lines 169-213: the payload, read from [f] where the header loop
    stopped. *)
Definition ply_read_payload (h : ply_header) (x_idx y_idx z_idx : nat) (f : bytes)
  : try (list point) :=
  let n := Z.to_nat (vertex_count h) in
  if str_eqb (format_type h) (lit "ascii") then
    ply_ascii_loop (List.length (properties h)) x_idx y_idx z_idx n f []
  else if str_eqb (format_type h) (lit "binary_little_endian") then
    ply_binary_loop unpack_le_f (properties h) x_idx y_idx z_idx n f []
  else if str_eqb (format_type h) (lit "binary_big_endian") then
    ply_binary_loop unpack_be_f (properties h) x_idx y_idx z_idx n f []
  else Exc ValueError_unsupported_ply.

(** Lines 145-213: all that follows the header loop. *)
Definition ply_after_header (header_lines : list str) (f : bytes)
  : try (list point) :=
  bind (ply_parse_header ply_header_init header_lines) (fun h =>
  match index (lit "x") (properties h), index (lit "y") (properties h),
        index (lit "z") (properties h) with
  | Some x_idx, Some y_idx, Some z_idx => ply_read_payload h x_idx y_idx z_idx f
  | _, _, _ => Exc ValueError_missing_xyz
  end).

Definition read_ply (file : bytes) : result (list point) :=
  match ply_read_header file with
  | Diverge => Diverge
  | Raise e => Raise e
  | Ok st => finish (ply_after_header (ply_lines st) (ply_f st))
  end.

(** *** write_pcd *)

Definition nl : str := [10%N].

(** The f-string of lines 226-237. *)
Definition pcd_header_text (num_points : N) : str :=
  lit "# .PCD v0.7 - Point Cloud Data file format" ++ nl
  ++ lit "VERSION 0.7" ++ nl
  ++ lit "FIELDS x y z" ++ nl
  ++ lit "SIZE 4 4 4" ++ nl
  ++ lit "TYPE F F F" ++ nl
  ++ lit "COUNT 1 1 1" ++ nl
  ++ lit "WIDTH " ++ str_of_N num_points ++ nl
  ++ lit "HEIGHT 1" ++ nl
  ++ lit "VIEWPOINT 0 0 0 1 0 0 0" ++ nl
  ++ lit "POINTS " ++ str_of_N num_points ++ nl
  ++ lit "DATA ascii" ++ nl.

(** The f-string of line 242. *)
Definition pcd_point_text (p : point) : str :=
  let '(x, y, z) := p in
  format_6f x ++ lit " " ++ format_6f y ++ lit " " ++ format_6f z ++ nl.

(** The text written to the file, in the order of the writes. *)
Definition write_pcd_text (pts : list point) : str :=
  let num_points := N.of_nat (List.length pts) in
  pcd_header_text num_points ++ flat_map pcd_point_text pts.

(** The content of the file once [write_pcd points pcd_path] returns:
    the text in UTF-8, its line feeds written as they are. *)
Definition write_pcd (pts : list point) : bytes :=
  utf8_encode (write_pcd_text pts).

End IoUtils.

(** ** Part 2b. [utils/bin2pcd.py] *)

Module Bin2Pcd.
Import Py IoUtils.

(** [struct.unpack("ffff", byte)]: four floats in the byte order of the
    machine (little-endian) from a buffer of exactly sixteen bytes. *)
Definition unpack_ffff (b : bytes) : try (float * float * float * float) :=
  if Nat.eqb (List.length b) 16
  then Val (decode_le_f (firstn 4 b), decode_le_f (firstn 4 (skipn 4 b)),
            decode_le_f (firstn 4 (skipn 8 b)), decode_le_f (firstn 4 (skipn 12 b)))
  else Exc struct_error.

(** Lines 12-16: [byte = file.read(16)], [while byte:].  [file] is the
    unread part of the file; a read at its end returns [b''] and ends
    the loop, a read of fewer than sixteen bytes returns what is left. *)
Fixpoint bin_to_pcd_loop (file : bytes) (list_pcd : list point) : try (list point) :=
  match file with
  | [] => Val list_pcd
  | b0 :: b1 :: b2 :: b3 :: b4 :: b5 :: b6 :: b7 :: b8 :: b9 :: b10 :: b11 :: b12 :: b13 :: b14 :: b15 :: rest =>
    bind (unpack_ffff [b0; b1; b2; b3; b4; b5; b6; b7; b8; b9; b10; b11; b12; b13; b14; b15]) (fun '(x, y, z, _) =>
    bin_to_pcd_loop rest (list_pcd ++ [(x, y, z)]))
  | _ =>
    bind (unpack_ffff file) (fun '(x, y, z, _) => Val (list_pcd ++ [(x, y, z)]))
  end.

(** [bin_to_pcd(bin_file_name)], on the content of the file. *)
Definition bin_to_pcd (file : bytes) : try (list point) := bin_to_pcd_loop file [].

(** [main(binFileName, pcd_file_name)]: the content of the PCD file
    written for a given [.bin] file. *)
Definition main (bin_file : bytes) : try bytes :=
  bind (bin_to_pcd bin_file) (fun points => Val (write_pcd points)).

End Bin2Pcd.

(** ** Part 2c. [examples/run_kiss_matcher.py]

    The loading of a point cloud (lines 60-67 and 74-81) and its cleaning
    (lines 9-10, 85-86), without yaw augmentation. *)

Module RunKissMatcher.
Import Py IoUtils.

(** The arrays the readers return: [np.array([])], which has one
    dimension, or an array of rows. *)
Inductive ndarray : Type :=
| Empty1
| Rows (rows : list (list float)).

(** [np.array(points)] for the list of [[x, y, z]] built by [read_pcd]
    and [read_ply]. *)
Definition np_array (points : list point) : ndarray :=
  match points with
  | [] => Empty1
  | _ => Rows (map (fun p : point => let '(x, y, z) := p in [x; y; z]) points)
  end.

(** [np.isfinite] on one value. *)
Definition isfinite (x : float) : bool :=
  match x with Fin _ _ _ => true | _ => false end.

(** What the script can raise: an exception of a reader, the
    [AxisError] of numpy, the [ValueError] of an unknown file name. *)
Inductive failure : Type :=
| Reader (e : exn)
| AxisError
| ValueError_unsupported_file.

Inductive outcome : Type :=
| Loaded (a : ndarray)
| Fails (e : failure)
| Hangs.

(** [point_cloud[np.isfinite(point_cloud).any(axis=1)]]: there is no
    axis 1 in an array of one dimension. *)
Definition remove_nan_from_point_cloud (point_cloud : ndarray) : outcome :=
  match point_cloud with
  | Empty1 => Fails AxisError
  | Rows rows => Loaded (Rows (filter (existsb isfinite) rows))
  end.

(** [s.endswith(suffix)]. *)
Definition endswith (s suffix : str) : bool := startswith (rev s) (rev suffix).

(** Lines 60-67: the reader is chosen by the end of the path. *)
Definition load (path : str) (file : bytes) : outcome :=
  if endswith path (lit ".bin") then
    match read_bin file with
    | Val rows => Loaded (Rows rows)
    | Exc e => Fails (Reader e)
    end
  else if endswith path (lit ".pcd") then
    match read_pcd file with
    | Ok points => Loaded (np_array points)
    | Raise e => Fails (Reader e)
    | Diverge => Hangs
    end
  else if endswith path (lit ".ply") then
    match read_ply file with
    | Ok points => Loaded (np_array points)
    | Raise e => Fails (Reader e)
    | Diverge => Hangs
    end
  else Fails ValueError_unsupported_file.

(** Lines 60-67 and 85: a cloud is loaded, then cleaned. *)
Definition load_and_clean (path : str) (file : bytes) : outcome :=
  match load path file with
  | Loaded a => remove_nan_from_point_cloud a
  | o => o
  end.

End RunKissMatcher.

(** ** Part 3. Vocabulary of the statements *)

Import Py IoUtils.

(** The float stored little-endian in the four bytes of [file] that
    start at offset [off]. *)
Definition float_at (file : bytes) (off : nat) : float :=
  float_of_bits32 (le_to_N (firstn 4 (skipn off file))).

(** The point of record [i] of a binary payload that starts at offset
    [hs], with records of [nf] 4-byte fields, the coordinates being
    the fields number [xi], [yi] and [zi]. *)
Definition record_point (file : bytes) (hs nf xi yi zi : nat) (i : nat) : point :=
  (float_at file (hs + 4 * nf * i + 4 * xi),
   float_at file (hs + 4 * nf * i + 4 * yi),
   float_at file (hs + 4 * nf * i + 4 * zi)).

(** [header_info.get('fields', [])] and [header_info.get('points', 0)]. *)
Definition get_fields (h : header_info) : list str :=
  match fields h with Some l => l | None => [] end.

Definition get_points (h : header_info) : Z :=
  match points h with Some n => n | None => 0%Z end.

(** The file is a PCD file in binary mode: the header loop ends on a
    DATA line whose mode is BINARY in some case, leaving [h] as
    [header_info] and a header of [hs] bytes. *)
Definition pcd_binary_header (file : bytes) (h : header_info) (hs : nat) : Prop :=
  exists st, pcd_read_header file = Ok st /\ pcd_info st = h
             /\ header_size (pcd_lines st) = hs
             /\ upper (get_data h) = lit "BINARY".

(** The file is a PCD file in ASCII mode. *)
Definition pcd_ascii_header (file : bytes) (h : header_info) : Prop :=
  exists st, pcd_read_header file = Ok st /\ pcd_info st = h
             /\ upper (get_data h) = lit "ASCII".

(** The header of a PLY file ends at an [end_header] line and is parsed
    as [h]; [payload] is what follows the header. *)
Definition ply_header_of (file : bytes) (h : ply_header) (payload : bytes) : Prop :=
  exists st, ply_read_header file = Ok st /\ ply_f st = payload
             /\ ply_parse_header ply_header_init (ply_lines st) = Val h.

(** What the header loop of [read_pcd] leaves of a file on which it
    ends: its final state, [header_info] and [header_size]. *)
Definition pcd_scan_of (file : bytes) : pcd_scan :=
  match pcd_read_header file with Ok st => st | _ => pcd_scan_init [] end.

Definition info_of (file : bytes) : header_info := pcd_info (pcd_scan_of file).

Definition header_size_of (file : bytes) : nat :=
  header_size (pcd_lines (pcd_scan_of file)).

(** The same for [read_ply]: the final state of the header loop, the
    parsed header and the payload. *)
Definition ply_scan_of (file : bytes) : ply_scan :=
  match ply_read_header file with
  | Ok st => st
  | _ => {| ply_f := []; ply_lines := [] |}
  end.

Definition ply_header_parsed (file : bytes) : ply_header :=
  match ply_parse_header ply_header_init (ply_lines (ply_scan_of file)) with
  | Val h => h
  | Exc _ => ply_header_init
  end.

Definition ply_payload_of (file : bytes) : bytes := ply_f (ply_scan_of file).

(** The text lines that follow the DATA marker: those after the first
    line that starts with DATA, all the lines when there is none. *)
Fixpoint after_data_marker (lines : list str) : option (list str) :=
  match lines with
  | [] => None
  | l :: r =>
    if startswith (strip l) (lit "DATA") then Some r else after_data_marker r
  end.

Definition payload_lines (lines : list str) : list str :=
  match after_data_marker lines with
  | Some r => r
  | None => lines
  end.

(** Every whitespace-separated value of the line is a float literal. *)
Definition values_are_floats (line : str) : Prop :=
  Forall (fun t => float_of_str t <> None) (split (strip line)).

(** The point of a payload line: its first three values, when it has
    three. *)
Definition point_of_line (line : str) : list point :=
  match split (strip line) with
  | a :: b :: c :: _ =>
    match float_of_str a, float_of_str b, float_of_str c with
    | Some x, Some y, Some z => [(x, y, z)]
    | _, _, _ => []
    end
  | _ => []
  end.

(** The lines of a file read in text mode. *)
Definition text_lines_of (file : bytes) : list str :=
  match text_readlines file with Val l => l | Exc _ => [] end.

(** Classes of ASCII characters: decimal digits, printable characters
    other than the space, printable characters. *)
Definition is_digit (c : N) : bool := ((48 <=? c) && (c <=? 57))%N.
Definition is_graph (c : N) : bool := ((33 <=? c) && (c <=? 126))%N.
Definition is_print (c : N) : bool := ((32 <=? c) && (c <=? 126))%N.

(** The number written by the decimal digits [ds] after a prefix of
    value [a]. *)
Definition digits_value (ds : str) (a : N) : N :=
  fold_left (fun a d => (10 * a + (d - 48))%N) ds a.

(** Words separated by single spaces. *)
Fixpoint join_sp (toks : list str) : str :=
  match toks with
  | [] => []
  | [t] => t
  | t :: r => t ++ 32%N :: join_sp r
  end.

(** A word: not empty, made of printable characters other than the
    space. *)
Definition is_word (t : str) : Prop :=
  t <> [] /\ Forall (fun c => is_graph c = true) t.

(** What [float()] makes of the [.6f] text of a float: the float nearest
    to the value rounded to six decimals. *)
Definition reread (x : float) : float :=
  match x with
  | NaN => NaN
  | Inf neg => Inf neg
  | Fin neg m e => round_ratio neg (micro m e) 1000000
  end.

Definition reread_point (p : point) : point :=
  let '(x, y, z) := p in (reread x, reread y, reread z).

(** [y] equals [x] within an absolute error of [1e-6]: the same
    infinity, or finite values at most [1e-6] apart.  A NaN is within
    [1e-6] of nothing. *)
Definition within_1e6 (x y : float) : bool :=
  match x, y with
  | Fin _ _ _, Fin _ _ _ => Qle_bool (Qabs (F2Q y - F2Q x)) (1 # 1000000)
  | Inf s, Inf s' => Bool.eqb s s'
  | _, _ => false
  end.

Definition point_within_1e6 (p q : point) : bool :=
  let '(x, y, z) := p in
  let '(x', y', z') := q in
  within_1e6 x x' && within_1e6 y y' && within_1e6 z z'.

Definition is_nan (x : float) : bool :=
  match x with NaN => true | _ => false end.

(** A point of binary64 coordinates, none of them a NaN. *)
Definition point_ok (p : point) : bool :=
  let '(x, y, z) := p in
  is_binary64 x && is_binary64 y && is_binary64 z
  && negb (is_nan x) && negb (is_nan y) && negb (is_nan z).

(** A natural number as a rational. *)
Definition NQ (n : N) : Q := inject_Z (Z.of_N n).

(** A text line with its line feed. *)
Definition with_nl (content : str) : str := content ++ nl.

(** The eleven header lines of [write_pcd] for [n] points, without
    their line feeds: the comment line and the ten keyword lines. *)
Definition pcd_header_contents (n : N) : list str :=
  [lit "# .PCD v0.7 - Point Cloud Data file format";
   lit "VERSION 0.7";
   lit "FIELDS x y z";
   lit "SIZE 4 4 4";
   lit "TYPE F F F";
   lit "COUNT 1 1 1";
   lit "WIDTH " ++ str_of_N n;
   lit "HEIGHT 1";
   lit "VIEWPOINT 0 0 0 1 0 0 0";
   lit "POINTS " ++ str_of_N n;
   lit "DATA ascii"].

(** The line of a point, without its line feed: the three coordinates
    in the [.6f] format, separated by single spaces. *)
Definition pcd_point_content (p : point) : str :=
  let '(x, y, z) := p in
  format_6f x ++ lit " " ++ format_6f y ++ lit " " ++ format_6f z.

(** The [header_info] that [read_pcd] gathers from the header written
    by [write_pcd] for [n] points. *)
Definition written_header_info (n : N) : header_info :=
  {| version := Some (lit "0.7");
     fields := Some [lit "x"; lit "y"; lit "z"];
     size := Some [4; 4; 4]%Z;
     type_ := Some [lit "F"; lit "F"; lit "F"];
     count := Some [1; 1; 1]%Z;
     width := Some (Z.of_N n);
     height := Some 1%Z;
     viewpoint := Some [Fin false 0 0; Fin false 0 0; Fin false 0 0;
                        Fin false 1 0; Fin false 0 0; Fin false 0 0;
                        Fin false 0 0];
     points := Some (Z.of_N n);
     data := Some (lit "ascii") |}.

(** The bytes of a list of text lines. *)
Definition lines_bytes (contents : list str) : bytes :=
  map byte_of_N (List.concat (map with_nl contents)).

(** The payload with the bytes of every 4-byte item reversed. *)
Fixpoint swap4 (f : bytes) : bytes :=
  match f with
  | a :: b :: c :: d :: r => d :: c :: b :: a :: swap4 r
  | _ => f
  end.

(** *** Example files *)

(** A line of text with its line feed. *)
Definition ln (s : string) : bytes := blit s ++ ["010"%byte].

(** A binary PCD file with four fields and two declared points, the
    payload four bytes short of two records. *)
Definition pcd_xyzi_cut4 : bytes :=
  ln "FIELDS x y z intensity" ++ ln "SIZE 4 4 4 4" ++ ln "POINTS 2"
  ++ ln "DATA binary" ++ blit "aaaabbbbccccddddeeeeffffgggg".

(** A binary PCD file with three fields and two declared points, the
    payload three bytes short of two records. *)
Definition pcd_xyz_cut3 : bytes :=
  ln "FIELDS x y z" ++ ln "POINTS 2" ++ ln "DATA binary"
  ++ blit "aaaabbbbccccddddeeeef".

(** A little-endian PLY file of two vertices, and the same file one byte
    short. *)
Definition ply_header_xyz (fmt : string) (n : string) : bytes :=
  ln "ply" ++ ln fmt ++ ln n
  ++ ln "property float x" ++ ln "property float y" ++ ln "property float z"
  ++ ln "end_header".

Definition ply_le_2 : bytes :=
  ply_header_xyz "format binary_little_endian 1.0" "element vertex 2"
  ++ blit "abcdefghijklmnopqrstuvwx".

Definition ply_le_2_cut1 : bytes :=
  ply_header_xyz "format binary_little_endian 1.0" "element vertex 2"
  ++ blit "abcdefghijklmnopqrstuvw".

(** The big-endian file of the same vertex data as [ply_le_2]. *)
Definition ply_be_2 : bytes :=
  ply_header_xyz "format binary_big_endian 1.0" "element vertex 2"
  ++ blit "dcbahgfelkjiponmtsrqxwvu".

(** A PLY header without a [z] property. *)
Definition ply_no_z : bytes :=
  ln "ply" ++ ln "format ascii 1.0" ++ ln "element vertex 1"
  ++ ln "property float x" ++ ln "property float y" ++ ln "end_header"
  ++ ln "1 2 3".

(** An ASCII PCD file that declares one point and holds two. *)
Definition pcd_ascii_1_of_2 : bytes :=
  ln "FIELDS x y z" ++ ln "POINTS 1" ++ ln "DATA ascii"
  ++ ln "1.0 2.0 3.0" ++ ln "4.0 5.0 6.0".

(** The file of the concrete scenario of the specification. *)
Definition pcd_scenario : bytes :=
  ln "FIELDS x y z" ++ ln "SIZE 4 4 4" ++ ln "TYPE F F F" ++ ln "COUNT 1 1 1"
  ++ ln "WIDTH 2" ++ ln "HEIGHT 1" ++ ln "POINTS 2" ++ ln "DATA ascii"
  ++ ln "1.0 2.0 3.0" ++ ln "4.0 5.0 6.0".

(** A KITTI file of two points, and a file of seven floats. *)
Definition bin_2_points : bytes := blit "abcdefghijklmnopqrstuvwxyzABCDEF".

Definition bin_7_floats : bytes := blit "abcdefghijklmnopqrstuvwxyzAB".

(** The scenario with the fields declared in another order. *)
Definition pcd_scenario_zyx : bytes :=
  ln "FIELDS z y x" ++ ln "SIZE 4 4 4" ++ ln "TYPE F F F" ++ ln "COUNT 1 1 1"
  ++ ln "WIDTH 2" ++ ln "HEIGHT 1" ++ ln "POINTS 2" ++ ln "DATA ascii"
  ++ ln "1.0 2.0 3.0" ++ ln "4.0 5.0 6.0".

(** Three points: ordinary values, a value that six decimals cannot
    hold, an infinity and a signed zero. *)
Definition pcd_three_points : list point :=
  [(Fin false 3 (-1), Fin true 3602879701896397 (-55), Fin false 1 10);
   (Fin false 1 (-30), Fin false 9007199254740991 971, Inf true);
   (Fin true 0 0, Fin false 0 0, Fin false 1 (-1074))].

(** A PCD header that stops before its DATA line, and a PLY header that
    stops before its [end_header] line. *)
Definition pcd_no_data : bytes :=
  ln "VERSION 0.7" ++ ln "FIELDS x y z" ++ ln "POINTS 2".

Definition ply_no_end_header : bytes :=
  ln "ply" ++ ln "format ascii 1.0" ++ ln "element vertex 2".

(** *** More vocabulary and example files *)

Import Bin2Pcd RunKissMatcher.

(** The point of vertex [i] of a binary PLY payload of [np] 4-byte
    properties a vertex, decoded by [dec], the coordinates being the
    properties number [xi], [yi] and [zi]. *)
Definition vertex_point (dec : bytes -> float) (payload : bytes)
           (np xi yi zi : nat) (i : nat) : point :=
  (dec (firstn 4 (skipn (4 * np * i + 4 * xi) payload)),
   dec (firstn 4 (skipn (4 * np * i + 4 * yi) payload)),
   dec (firstn 4 (skipn (4 * np * i + 4 * zi) payload))).

(** The point of record [i] of a KITTI file: the first three of its four
    floats. *)
Definition kitti_point (file : bytes) (i : nat) : point :=
  (float_at file (16 * i), float_at file (16 * i + 4), float_at file (16 * i + 8)).

(** A point as a row of an array. *)
Definition row_of_point (p : point) : list float :=
  let '(x, y, z) := p in [x; y; z].


(** A binary PCD file of two whole records of four fields, followed by
    three more bytes. *)
Definition pcd_xyzi_2_tail : bytes :=
  ln "FIELDS x y z intensity" ++ ln "SIZE 4 4 4 4" ++ ln "POINTS 2"
  ++ ln "DATA binary" ++ blit "aaaabbbbccccddddeeeeffffgggghhhhiii".

(** A binary PCD file whose [z] is the fourth field, the payload four
    bytes short of two records; the same with [z] as the first field. *)
Definition pcd_ixyz_cut4 : bytes :=
  ln "FIELDS intensity x y z" ++ ln "SIZE 4 4 4 4" ++ ln "POINTS 2"
  ++ ln "DATA binary" ++ blit "aaaabbbbccccddddeeeeffffgggg".

Definition pcd_zxyi_cut4 : bytes :=
  ln "FIELDS z x y intensity" ++ ln "SIZE 4 4 4 4" ++ ln "POINTS 3"
  ++ ln "DATA binary" ++ blit "aaaabbbbccccddddeeeeffffgggg".

(** A binary PCD file of two fields. *)
Definition pcd_xy : bytes :=
  ln "FIELDS x y" ++ ln "POINTS 2" ++ ln "DATA binary" ++ blit "aaaabbbbccccdddd".


(** The lines of a binary file, each with its line feed (the last one
    may lack it): what successive calls of [readline] return before the
    end of the file.  [cur] is the line being read. *)
Fixpoint byte_lines (f : bytes) (cur : bytes) : list bytes :=
  match f with
  | [] => match cur with [] => [] | _ => [cur] end
  | b :: r =>
    if Byte.eqb b "010"%byte then (cur ++ [b]) :: byte_lines r []
    else byte_lines r (cur ++ [b])
  end.

(** A line of UTF-8 text all of whose values are float literals. *)
Definition numeric_line (line : bytes) : Prop :=
  exists text, utf8_decode line = Some text /\ values_are_floats text.

(** The point of a vertex line of an ASCII PLY payload with [np]
    tracked properties: the values number [xi], [yi] and [zi] of a line
    that holds [np] values or more, nothing for a shorter line. *)
Definition ply_point_of_line (np xi yi zi : nat) (line : bytes) : list point :=
  match utf8_decode line with
  | Some text =>
    let values := split (strip text) in
    if np <=? List.length values then
      match nth_error values xi, nth_error values yi, nth_error values zi with
      | Some a, Some b, Some c =>
        match float_of_str a, float_of_str b, float_of_str c with
        | Some x, Some y, Some z => [(x, y, z)]
        | _, _, _ => []
        end
      | _, _, _ => []
      end
    else []
  | None => []
  end.

(** An ASCII PLY file that declares five vertices and holds two lines. *)
Definition ply_ascii_2_of_5 : bytes :=
  ln "ply" ++ ln "format ascii 1.0" ++ ln "element vertex 5"
  ++ ln "property float x" ++ ln "property float y" ++ ln "property float z"
  ++ ln "end_header" ++ ln "1 2 3" ++ blit "4 5 6".

(** An ASCII PLY file that declares three vertices and holds a short
    line between two vertex lines. *)
Definition ply_ascii_short_line : bytes :=
  ln "ply" ++ ln "format ascii 1.0" ++ ln "element vertex 3"
  ++ ln "property float x" ++ ln "property float y" ++ ln "property float z"
  ++ ln "end_header" ++ ln "1 2 3" ++ ln "7 8" ++ ln "4 5 6" ++ ln "9 9 9".


(** A KITTI file of two points followed by one more byte. *)
Definition bin_33_bytes : bytes := blit "abcdefghijklmnopqrstuvwxyzABCDEFG".


(** No coordinate of the point is a NaN. *)
Definition no_nan (p : point) : bool :=
  let '(x, y, z) := p in negb (is_nan x) && negb (is_nan y) && negb (is_nan z).

(** A PCD file in ASCII mode without points, and the same for PLY. *)
Definition pcd_ascii_empty : bytes :=
  ln "FIELDS x y z" ++ ln "POINTS 0" ++ ln "DATA ascii".

Definition ply_ascii_empty : bytes :=
  ln "ply" ++ ln "format ascii 1.0" ++ ln "element vertex 0"
  ++ ln "property float x" ++ ln "property float y" ++ ln "property float z"
  ++ ln "end_header".


(** A file that reaches bytes that are not UTF-8 before any DATA line. *)
Definition pcd_no_data_binary : bytes :=
  ln "FIELDS x y z" ++ ln "POINTS 1" ++ ["255"%byte; "254"%byte; "010"%byte]
  ++ blit "aaaabbbbcccc".

(** A binary PCD file whose header lines end in CR LF. *)
Definition pcd_crlf : bytes :=
  blit "FIELDS x y z" ++ ["013"%byte; "010"%byte]
  ++ blit "POINTS 1" ++ ["013"%byte; "010"%byte]
  ++ blit "DATA binary" ++ ["013"%byte; "010"%byte]
  ++ blit "aaaabbbbcccc".


(** A float that six decimals hold exactly: a NaN, an infinity, or a
    binary64 value that is a multiple of [2^-6] (every integer-valued
    float is one). *)
Definition six_decimals_exact (x : float) : bool :=
  match x with
  | Fin _ _ e => is_binary64 x && (-6 <=? e)%Z
  | _ => true
  end.

Definition point_six_decimals_exact (p : point) : bool :=
  let '(x, y, z) := p in
  six_decimals_exact x && six_decimals_exact y && six_decimals_exact z.

(** Three points of coordinates that six decimals hold exactly. *)
Definition pcd_exact_points : list point :=
  [(Fin false 3 (-1), Fin true 5 (-6), Fin false 1 10);
   (Fin false 9007199254740991 0, NaN, Inf true);
   (Fin true 0 0, Fin false 0 0, Fin false 1 971)].


(** The name that a header line of a PLY file adds to [properties]: the
    last word of a line that starts with [property float] or
    [property double], nothing for any other line. *)
Definition float_property (line : str) : list str :=
  if startswith line (lit "property float") || startswith line (lit "property double")
  then match last_item (split line) with Some w => [w] | None => [] end
  else [].

(** The header lines of a PLY file with a colour besides the
    coordinates. *)
Definition ply_colour_header : list str :=
  [lit "ply"; lit "format binary_little_endian 1.0"; lit "element vertex 2";
   lit "property float x"; lit "property float y"; lit "property float z";
   lit "property uchar red"; lit "property double w"; lit "end_header"].

(** Whole lines: nothing, or bytes that end with a line feed. *)
Definition whole_lines (pre : bytes) : Prop :=
  pre = [] \/ exists p, pre = p ++ ["010"%byte].

(** ** Part 4. Properties *)

(** *** The header loops *)

Section WhileTrue.
Variable S : Type.
Variable body : S -> step S.

(** More fuel does not change an outcome that was reached. *)
Lemma while_true_more (n m : nat) (s : S) :
  while_true body n s <> Diverge -> n <= m ->
  while_true body m s = while_true body n s.
Proof.
  revert m s.
  induction n as [|n IH]; intros m s Hr Hle; simpl in *.
  - congruence.
  - destruct m as [|m]; [lia|]. simpl.
    destruct (body s) as [s'|s'|e]; auto.
    apply IH; [assumption | lia].
Qed.

(** A state from which every round goes on to a state of the same kind
    is never left. *)
Lemma while_true_stuck (P : S -> Prop) :
  (forall s, P s -> exists s', body s = Continue s' /\ P s') ->
  forall n s, P s -> while_true body n s = Diverge.
Proof.
  intros Hstep n.
  induction n as [|n IH]; intros s Hs; simpl.
  - reflexivity.
  - destruct (Hstep s Hs) as (s' & -> & Hs'). auto.
Qed.
End WhileTrue.

Lemma readline_nil : readline [] = ([], []).
Proof. reflexivity. Qed.

Lemma readline_length (f : bytes) :
  List.length (fst (readline f)) + List.length (snd (readline f)) = List.length f.
Proof.
  induction f as [|b r IH]; simpl.
  - reflexivity.
  - destruct (Byte.eqb b "010"); simpl.
    + reflexivity.
    + destruct (readline r) as [l r']. simpl in *. lia.
Qed.

Lemma readline_progress (f : bytes) :
  f <> [] -> List.length (snd (readline f)) < List.length f.
Proof.
  intros Hf. pose proof (readline_length f) as H.
  destruct f as [|b r]; [congruence|].
  simpl in *. destruct (Byte.eqb b "010"); simpl in *.
  - lia.
  - destruct (readline r) as [l r']. simpl in *. lia.
Qed.

(** At the end of the file [readline] returns [b''], no keyword matches
    the empty line and the round goes on, still at the end of the file. *)
Lemma pcd_header_body_eof (st : pcd_scan) :
  pcd_f st = [] ->
  exists st', pcd_header_body st = Continue st' /\ pcd_f st' = [].
Proof.
  intros Heof. unfold pcd_header_body. rewrite Heof. simpl.
  eexists. split; reflexivity.
Qed.

Lemma ply_header_body_eof (st : ply_scan) :
  ply_f st = [] ->
  exists st', ply_header_body st = Continue st' /\ ply_f st' = [].
Proof.
  intros Heof. unfold ply_header_body. rewrite Heof. simpl.
  eexists. split; reflexivity.
Qed.

(** What a round leaves unread is what [readline] left. *)
Lemma pcd_header_body_rest (st st' : pcd_scan) :
  pcd_header_body st = Continue st' -> pcd_f st' = snd (readline (pcd_f st)).
Proof.
  unfold pcd_header_body.
  destruct (readline (pcd_f st)) as [line f]. simpl.
  destruct (utf8_decode line) as [text|]; [|discriminate].
  unfold pcd_header_keyword. set (ls := strip text).
  repeat match goal with
         | |- context [if ?c then _ else _] => destruct c
         end;
    repeat match goal with
           | |- context [bind ?a _] => destruct a; simpl
           | |- context [match word1 ?a with _ => _ end] => destruct (word1 a)
           end;
    intros H; inversion H; reflexivity.
Qed.

Lemma ply_header_body_rest (st st' : ply_scan) :
  ply_header_body st = Continue st' -> ply_f st' = snd (readline (ply_f st)).
Proof.
  unfold ply_header_body.
  destruct (readline (ply_f st)) as [line f]. simpl.
  destruct (utf8_decode line) as [text|]; [|discriminate].
  destruct (str_eqb _ _); intros H; inversion H; reflexivity.
Qed.

(** [Diverge] is no artefact of the fuel: when [S (length file)] rounds
    do not end the loop, no number of rounds does. *)
Lemma pcd_header_diverges (n : nat) (st : pcd_scan) :
  List.length (pcd_f st) < n ->
  while_true pcd_header_body n st = Diverge ->
  forall m, while_true pcd_header_body m st = Diverge.
Proof.
  revert st. induction n as [|n IH]; intros st Hlen Hd m; [lia|].
  destruct (pcd_f st) as [|b r] eqn:Hf.
  - apply while_true_stuck with (P := fun s => pcd_f s = []);
      [apply pcd_header_body_eof | assumption].
  - destruct m as [|m]; [reflexivity|]. simpl in Hd. simpl.
    destruct (pcd_header_body st) as [st'|st'|e] eqn:Hb; try discriminate.
    apply IH; [|assumption].
    rewrite (pcd_header_body_rest _ Hb).
    assert (Hp := @readline_progress (pcd_f st)).
    rewrite Hf in *.
    assert (Hne : b :: r <> []) by discriminate. specialize (Hp Hne). lia.
Qed.

Lemma ply_header_diverges (n : nat) (st : ply_scan) :
  List.length (ply_f st) < n ->
  while_true ply_header_body n st = Diverge ->
  forall m, while_true ply_header_body m st = Diverge.
Proof.
  revert st. induction n as [|n IH]; intros st Hlen Hd m; [lia|].
  destruct (ply_f st) as [|b r] eqn:Hf.
  - apply while_true_stuck with (P := fun s => ply_f s = []);
      [apply ply_header_body_eof | assumption].
  - destruct m as [|m]; [reflexivity|]. simpl in Hd. simpl.
    destruct (ply_header_body st) as [st'|st'|e] eqn:Hb; try discriminate.
    apply IH; [|assumption].
    rewrite (ply_header_body_rest _ Hb).
    assert (Hp := @readline_progress (ply_f st)).
    rewrite Hf in *.
    assert (Hne : b :: r <> []) by discriminate. specialize (Hp Hne). lia.
Qed.

(** An outcome reached with any fuel is the one of [pcd_read_header]. *)
Lemma pcd_header_fuel (n : nat) (file : bytes) :
  while_true pcd_header_body n (pcd_scan_init file) <> Diverge ->
  pcd_read_header file = while_true pcd_header_body n (pcd_scan_init file).
Proof.
  intros Hn. unfold pcd_read_header.
  destruct (le_lt_dec n (S (List.length file))) as [Hle|Hlt].
  - apply while_true_more; assumption.
  - symmetry. apply while_true_more; [|lia].
    intros Hd. apply Hn.
    apply pcd_header_diverges with (n := S (List.length file)); simpl; auto.
Qed.

Lemma ply_header_fuel (n : nat) (file : bytes) :
  while_true ply_header_body n {| ply_f := file; ply_lines := [] |} <> Diverge ->
  ply_read_header file
  = while_true ply_header_body n {| ply_f := file; ply_lines := [] |}.
Proof.
  intros Hn. unfold ply_read_header.
  destruct (le_lt_dec n (S (List.length file))) as [Hle|Hlt].
  - apply while_true_more; assumption.
  - symmetry. apply while_true_more; [|lia].
    intros Hd. apply Hn.
    apply ply_header_diverges with (n := S (List.length file)); simpl; auto.
Qed.

(** *** Reading 4-byte floats *)

Lemma float_at_skipn (f : bytes) (a b : nat) :
  float_at (skipn a f) b = float_at f (a + b).
Proof.
  unfold float_at. rewrite skipn_skipn. f_equal. f_equal. f_equal. f_equal. lia.
Qed.

Lemma unpack_4_whole (dec : bytes -> float) (b : bytes) :
  List.length b = 4 -> unpack_4 dec b = Some (dec b).
Proof. intros H. unfold unpack_4. rewrite H. reflexivity. Qed.

Lemma unpack_4_short (dec : bytes -> float) (b : bytes) :
  List.length b <> 4 -> unpack_4 dec b = None.
Proof.
  intros H. unfold unpack_4.
  destruct (Nat.eqb_spec (List.length b) 4); [contradiction | reflexivity].
Qed.

Lemma unpack_le_f_4 (b : bytes) :
  List.length b = 4 -> unpack_le_f b = Some (float_of_bits32 (le_to_N b)).
Proof. apply unpack_4_whole. Qed.

Lemma unpack_le_f_short (b : bytes) :
  List.length b <> 4 -> unpack_le_f b = None.
Proof. apply unpack_4_short. Qed.

Lemma nth_error_map_seq {A} (g : nat -> A) (n i : nat) :
  i < n -> nth_error (map g (seq 0 n)) i = Some (g i).
Proof.
  intros Hi. rewrite nth_error_map, nth_error_seq.
  destruct (Nat.ltb_spec i n); [reflexivity | lia].
Qed.

Lemma map_seq_S {A} (g : nat -> A) (n : nat) :
  map g (seq 0 (S n)) = g 0 :: map (fun k => g (S k)) (seq 0 n).
Proof. simpl. rewrite <- seq_shift, map_map. reflexivity. Qed.

(** *** The binary decoder of read_pcd *)

(** A whole record is there: every field is read. *)
Lemma pcd_read_fields_full (fs : list str) (f : bytes) (acc : list float) :
  4 * List.length fs <= List.length f ->
  pcd_read_fields fs f acc
  = (acc ++ map (fun k => float_at f (4 * k)) (seq 0 (List.length fs)),
     skipn (4 * List.length fs) f).
Proof.
  revert f acc. induction fs as [|x fs IH]; intros f acc Hlen.
  - simpl. rewrite app_nil_r. reflexivity.
  - cbn [pcd_read_fields read List.length].
    rewrite unpack_le_f_4 by (rewrite length_firstn; simpl in Hlen; lia).
    rewrite IH by (rewrite length_skipn; simpl in Hlen; lia).
    rewrite map_seq_S, skipn_skipn, <- app_assoc. cbn [app].
    f_equal.
    + f_equal. f_equal.
      apply map_ext. intros k. rewrite float_at_skipn. f_equal. lia.
    + f_equal. lia.
Qed.

(** In any case no more values are read than whole floats are there. *)
Lemma pcd_read_fields_bound (fs : list str) (f : bytes) (acc : list float) :
  List.length (fst (pcd_read_fields fs f acc))
  <= List.length acc + List.length f / 4
  /\ List.length (snd (pcd_read_fields fs f acc)) <= List.length f.
Proof.
  revert f acc. induction fs as [|x fs IH]; intros f acc.
  - simpl. lia.
  - cbn [pcd_read_fields read].
    destruct (Nat.eq_dec (List.length (firstn 4 f)) 4) as [H4|H4].
    + rewrite unpack_le_f_4 by assumption.
      destruct (IH (skipn 4 f) (acc ++ [float_of_bits32 (le_to_N (firstn 4 f))]))
        as [H1 H2].
      rewrite length_app, length_skipn in *. cbn [List.length] in H1.
      rewrite length_firstn in H4.
      assert ((List.length f - 4) / 4 + 1 = List.length f / 4) as Hd.
      { rewrite <- (Nat.div_add _ 1 4) by lia. f_equal. lia. }
      split; lia.
    + rewrite unpack_le_f_short by assumption. cbn [fst snd].
      rewrite length_skipn. split; lia.
Qed.

(** Fewer than three whole floats are left: no round adds a point. *)
Lemma pcd_binary_loop_starved (fs : list str) (xi yi zi n : nat) (f : bytes)
      (pts : list point) :
  List.length f < 12 -> pcd_binary_loop fs xi yi zi n f pts = Val pts.
Proof.
  revert f. induction n as [|n IH]; intros f Hlen; [reflexivity|].
  cbn [pcd_binary_loop].
  destruct (pcd_read_fields_bound fs f []) as [H1 H2].
  destruct (pcd_read_fields fs f []) as [vs f']. cbn [fst snd List.length] in H1, H2.
  assert (List.length f / 4 < 3) by (apply Nat.Div0.div_lt_upper_bound; lia).
  destruct (Nat.leb_spec 3 (List.length vs)); [lia|].
  apply IH. lia.
Qed.

(** [c] whole records followed by fewer than three whole floats: the
    loop returns the points of the [c] records. *)
Lemma pcd_binary_loop_records (fs : list str) (xi yi zi : nat) :
  3 <= List.length fs ->
  xi < List.length fs -> yi < List.length fs -> zi < List.length fs ->
  forall (c n : nat) (f : bytes) (pts : list point),
    c <= n ->
    4 * List.length fs * c <= List.length f ->
    List.length f - 4 * List.length fs * c < 12 ->
    pcd_binary_loop fs xi yi zi n f pts
    = Val (pts ++ map (record_point f 0 (List.length fs) xi yi zi) (seq 0 c)).
Proof.
  intros Hnf Hx Hy Hz. induction c as [|c IH]; intros n f pts Hcn Hlo Hhi.
  - simpl. rewrite app_nil_r. apply pcd_binary_loop_starved. lia.
  - destruct n as [|n]; [lia|].
    cbn [pcd_binary_loop].
    rewrite pcd_read_fields_full by nia.
    cbn [app]. rewrite length_map, length_seq.
    destruct (Nat.leb_spec 3 (List.length fs)); [|lia].
    unfold item. rewrite !nth_error_map_seq by assumption. cbn [of_option bind].
    rewrite IH; [| lia | rewrite length_skipn; nia | rewrite length_skipn; nia].
    rewrite map_seq_S, <- app_assoc. cbn [app].
    f_equal. f_equal. f_equal.
    + unfold record_point.
      f_equal; [f_equal|]; apply (f_equal (float_at f)); lia.
    + apply map_ext. intros i. unfold record_point.
      rewrite !float_at_skipn.
      f_equal; [f_equal|]; apply (f_equal (float_at f)); lia.
Qed.

(** The loop adds at most one point a round. *)
Lemma pcd_binary_loop_bound (fs : list str) (xi yi zi n : nat) (f : bytes)
      (pts pts' : list point) :
  pcd_binary_loop fs xi yi zi n f pts = Val pts' ->
  List.length pts' <= List.length pts + n.
Proof.
  revert f pts. induction n as [|n IH]; intros f pts H.
  - simpl in H. inversion H. lia.
  - cbn [pcd_binary_loop] in H.
    destruct (pcd_read_fields fs f []) as [vs f'].
    destruct (3 <=? List.length vs).
    + destruct (item vs xi); [|discriminate].
      destruct (item vs yi); [|discriminate].
      destruct (item vs zi); [|discriminate].
      cbn [bind] in H. apply IH in H. rewrite length_app in H. simpl in H. lia.
    + apply IH in H. lia.
Qed.

Lemma index_lt (x : str) (xs : list str) (i : nat) :
  index x xs = Some i -> i < List.length xs.
Proof.
  revert i. induction xs as [|y r IH]; intros i H; simpl in *.
  - discriminate.
  - destruct (str_eqb y x).
    + inversion H. lia.
    + destruct (index x r) as [j|]; [|discriminate].
      inversion H. specialize (IH j eq_refl). lia.
Qed.

Lemma index_or_lt (x : str) (xs : list str) (d : nat) :
  d < List.length xs -> index_or x xs d < List.length xs.
Proof.
  intros Hd. unfold index_or.
  destruct (index x xs) as [i|] eqn:Hi; [apply (index_lt _ _ Hi) | assumption].
Qed.

(** *** The binary decoders of read_ply *)

Section PlyBinary.
Variable dec : bytes -> float.

Lemma ply_read_vertex_full (props : list str) (f : bytes) (acc : list float) :
  4 * List.length props <= List.length f ->
  ply_read_vertex (unpack_4 dec) props f acc
  = Val (acc ++ map (fun k => dec (firstn 4 (skipn (4 * k) f)))
                    (seq 0 (List.length props)),
         skipn (4 * List.length props) f).
Proof.
  revert f acc. induction props as [|x ps IH]; intros f acc Hlen.
  - simpl. rewrite app_nil_r. reflexivity.
  - cbn [ply_read_vertex read List.length] in *.
    rewrite unpack_4_whole by (rewrite length_firstn; lia).
    cbn [of_option bind].
    rewrite IH by (rewrite length_skipn; lia).
    rewrite map_seq_S, skipn_skipn, <- app_assoc. cbn [app].
    f_equal. f_equal.
    + f_equal. f_equal.
      apply map_ext. intros k. rewrite skipn_skipn.
      apply (f_equal (fun n => dec (firstn 4 (skipn n f)))). lia.
    + apply (f_equal (fun n => skipn n f)). lia.
Qed.

Lemma ply_read_vertex_short (props : list str) (f : bytes) (acc : list float) :
  List.length f < 4 * List.length props ->
  ply_read_vertex (unpack_4 dec) props f acc = Exc struct_error.
Proof.
  revert f acc. induction props as [|x ps IH]; intros f acc Hlen.
  - simpl in Hlen. lia.
  - cbn [ply_read_vertex read List.length] in *.
    destruct (Nat.eq_dec (List.length (firstn 4 f)) 4) as [H4|H4].
    + rewrite unpack_4_whole by assumption. cbn [of_option bind].
      apply IH. rewrite length_skipn. rewrite length_firstn in H4. lia.
    + rewrite unpack_4_short by assumption. reflexivity.
Qed.

(** The payload ends before the declared vertices are read: the
    short read raises. *)
Lemma ply_binary_loop_short (props : list str) (xi yi zi : nat) :
  xi < List.length props -> yi < List.length props -> zi < List.length props ->
  forall (n : nat) (f : bytes) (pts : list point),
    List.length f < 4 * List.length props * n ->
    ply_binary_loop (unpack_4 dec) props xi yi zi n f pts = Exc struct_error.
Proof.
  intros Hx Hy Hz. induction n as [|n IH]; intros f pts Hlen; [lia|].
  cbn [ply_binary_loop].
  destruct (le_lt_dec (4 * List.length props) (List.length f)) as [Hge|Hlt].
  - rewrite ply_read_vertex_full by assumption. cbn [app bind].
    unfold item. rewrite !nth_error_map_seq by assumption. cbn [of_option bind].
    apply IH. rewrite length_skipn. nia.
  - rewrite ply_read_vertex_short by assumption. reflexivity.
Qed.

(** The payload holds the declared vertices: one point a vertex. *)
Lemma ply_binary_loop_enough (props : list str) (xi yi zi : nat) :
  xi < List.length props -> yi < List.length props -> zi < List.length props ->
  forall (n : nat) (f : bytes) (pts : list point),
    4 * List.length props * n <= List.length f ->
    exists pts', ply_binary_loop (unpack_4 dec) props xi yi zi n f pts = Val pts'
                 /\ List.length pts' = List.length pts + n.
Proof.
  intros Hx Hy Hz. induction n as [|n IH]; intros f pts Hlen.
  - exists pts. split; [reflexivity | lia].
  - cbn [ply_binary_loop].
    rewrite ply_read_vertex_full by nia. cbn [app bind].
    unfold item. rewrite !nth_error_map_seq by assumption. cbn [of_option bind].
    match goal with
    | |- context [ply_binary_loop _ _ _ _ _ n ?f' ?p'] =>
      destruct (IH f' p') as (pts' & Hp & Hl)
    end.
    + rewrite length_skipn. nia.
    + exists pts'. split; [assumption|].
      rewrite Hl, length_app. simpl. lia.
Qed.

Lemma ply_binary_loop_bound (props : list str) (xi yi zi n : nat) (f : bytes)
      (pts pts' : list point) :
  ply_binary_loop (unpack_4 dec) props xi yi zi n f pts = Val pts' ->
  List.length pts' = List.length pts + n.
Proof.
  revert f pts. induction n as [|n IH]; intros f pts H.
  - simpl in H. inversion H. lia.
  - cbn [ply_binary_loop] in H.
    destruct (ply_read_vertex (unpack_4 dec) props f []) as [[vs f']|e];
      [|discriminate].
    cbn [bind] in H.
    destruct (item vs xi); [|discriminate].
    destruct (item vs yi); [|discriminate].
    destruct (item vs zi); [|discriminate].
    cbn [bind] in H. apply IH in H. rewrite length_app in H. simpl in H. lia.
Qed.
End PlyBinary.

(** Reading big-endian floats from the swapped payload is reading
    little-endian floats from the payload. *)
Lemma ply_read_vertex_swap4 (props : list str) (f : bytes) (acc : list float) :
  ply_read_vertex unpack_be_f props (swap4 f) acc
  = match ply_read_vertex unpack_le_f props f acc with
    | Val (vs, f') => Val (vs, swap4 f')
    | Exc e => Exc e
    end.
Proof.
  revert f acc. induction props as [|x ps IH]; intros f acc.
  - reflexivity.
  - destruct f as [|a [|b [|c [|d r]]]]; try reflexivity.
    cbn [ply_read_vertex read swap4 firstn skipn].
    change (unpack_be_f [d; c; b; a]) with (Some (decode_le_f [a; b; c; d])).
    change (unpack_le_f [a; b; c; d]) with (Some (decode_le_f [a; b; c; d])).
    cbn [of_option bind]. apply IH.
Qed.

Lemma ply_binary_loop_swap4 (props : list str) (xi yi zi n : nat) (f : bytes)
      (pts : list point) :
  ply_binary_loop unpack_be_f props xi yi zi n (swap4 f) pts
  = ply_binary_loop unpack_le_f props xi yi zi n f pts.
Proof.
  revert f pts. induction n as [|n IH]; intros f pts; [reflexivity|].
  cbn [ply_binary_loop]. rewrite ply_read_vertex_swap4.
  destruct (ply_read_vertex unpack_le_f props f []) as [[vs f']|e]; [|reflexivity].
  cbn [bind].
  destruct (item vs xi); [|reflexivity].
  destruct (item vs yi); [|reflexivity].
  destruct (item vs zi); [|reflexivity].
  cbn [bind]. apply IH.
Qed.

Lemma swap4_length (f : bytes) : List.length (swap4 f) = List.length f.
Proof.
  revert f. fix IH 1. intros [|a [|b [|c [|d r]]]]; try reflexivity.
  cbn [swap4 List.length]. rewrite IH. reflexivity.
Qed.

(** *** read_pcd on a binary file *)

(** In binary mode [read_pcd] is the decoding loop run on what follows
    the header. *)
Lemma read_pcd_binary_mode (file : bytes) (h : header_info) (hs : nat) :
  pcd_binary_header file h hs ->
  read_pcd file
  = finish (pcd_binary_loop (get_fields h)
              (index_or (lit "x") (get_fields h) 0)
              (index_or (lit "y") (get_fields h) 1)
              (index_or (lit "z") (get_fields h) 2)
              (Z.to_nat (get_points h)) (skipn hs file) []).
Proof.
  intros (st & Hrh & Hinfo & Hhs & Hup).
  unfold read_pcd. rewrite Hrh, Hinfo, Hhs, Hup.
  reflexivity.
Qed.

(** [c] whole records and fewer than three more floats after a binary
    header: the points of the [c] records are returned. *)
Lemma read_pcd_binary_records (file : bytes) (h : header_info) (hs c r : nat) :
  pcd_binary_header file h hs ->
  3 <= List.length (get_fields h) ->
  (Z.of_nat c <= get_points h)%Z ->
  List.length file = hs + 4 * List.length (get_fields h) * c + r ->
  r < 12 ->
  read_pcd file
  = Ok (map (record_point file hs (List.length (get_fields h))
               (index_or (lit "x") (get_fields h) 0)
               (index_or (lit "y") (get_fields h) 1)
               (index_or (lit "z") (get_fields h) 2))
            (seq 0 c)).
Proof.
  intros Hh Hnf Hc Hlen Hr.
  rewrite (read_pcd_binary_mode Hh).
  rewrite pcd_binary_loop_records with (c := c);
    try (apply index_or_lt; lia); try lia;
    try (rewrite length_skipn; nia).
  cbn [app finish]. f_equal.
  apply map_ext. intros i. unfold record_point.
  rewrite !float_at_skipn. cbn [Nat.add].
  rewrite !Nat.add_assoc. reflexivity.
Qed.

(** C1 (as amended).  [hs] is the header size that [read_pcd] computes
    from the stripped header lines (line 55), the offset it seeks to
    before it decodes.  A binary-mode PCD file with at least three
    fields whose bytes from offset [hs] on are [k] bytes short of
    [POINTS] records, [0 < k <] the length of one record, so that fewer
    than three whole fields of the last record are left
    ([4 * fields - k < 12]): [read_pcd] does not raise and returns
    exactly [POINTS - 1] points, the point [i] being the fields [x],
    [y], [z] read at offset [hs + 4 * fields * i]. *)
Theorem read_pcd_truncated_record (file : bytes) (h : header_info) (hs P k : nat) :
  pcd_binary_header file h hs ->
  3 <= List.length (get_fields h) ->
  get_points h = Z.of_nat P ->
  1 <= P ->
  0 < k < 4 * List.length (get_fields h) ->
  List.length file + k = hs + 4 * List.length (get_fields h) * P ->
  4 * List.length (get_fields h) - k < 12 ->
  exists pts,
    read_pcd file = Ok pts
    /\ List.length pts = P - 1
    /\ forall i, i < P - 1 ->
         nth_error pts i
         = Some (record_point file hs (List.length (get_fields h))
                   (index_or (lit "x") (get_fields h) 0)
                   (index_or (lit "y") (get_fields h) 1)
                   (index_or (lit "z") (get_fields h) 2) i).
Proof.
  intros Hh Hnf HP H1 Hk Hlen Hcut.
  eexists. split; [|split].
  - apply read_pcd_binary_records
      with (c := P - 1) (r := 4 * List.length (get_fields h) - k) (1 := Hh);
      try assumption; nia.
  - rewrite length_map, length_seq. reflexivity.
  - intros i Hi. apply nth_error_map_seq. assumption.
Qed.

Lemma read_pcd_truncated_record_witness :
  pcd_binary_header pcd_xyz_cut3 (info_of pcd_xyz_cut3) (header_size_of pcd_xyz_cut3)
  /\ List.length (get_fields (info_of pcd_xyz_cut3)) = 3
  /\ get_points (info_of pcd_xyz_cut3) = 2%Z
  /\ exists pts,
       read_pcd pcd_xyz_cut3 = Ok pts
       /\ List.length pts = 2 - 1
       /\ forall i, i < 2 - 1 ->
            nth_error pts i
            = Some (record_point pcd_xyz_cut3 (header_size_of pcd_xyz_cut3)
                      (List.length (get_fields (info_of pcd_xyz_cut3)))
                      (index_or (lit "x") (get_fields (info_of pcd_xyz_cut3)) 0)
                      (index_or (lit "y") (get_fields (info_of pcd_xyz_cut3)) 1)
                      (index_or (lit "z") (get_fields (info_of pcd_xyz_cut3)) 2) i).
Proof.
  assert (Hh : pcd_binary_header pcd_xyz_cut3 (info_of pcd_xyz_cut3)
                                 (header_size_of pcd_xyz_cut3)).
  { exists (pcd_scan_of pcd_xyz_cut3). repeat split; vm_compute; reflexivity. }
  split; [exact Hh|].
  split; [vm_compute; reflexivity|].
  split; [vm_compute; reflexivity|].
  apply (@read_pcd_truncated_record pcd_xyz_cut3 (info_of pcd_xyz_cut3)
           (header_size_of pcd_xyz_cut3) 2 3 Hh).
  - vm_compute. lia.
  - vm_compute. reflexivity.
  - lia.
  - vm_compute. lia.
  - vm_compute. reflexivity.
  - vm_compute. lia.
Defined.

(** C1 (counterexample).  Four fields, two declared points, the payload
    cut short by 4 of the 16 bytes of a record: three whole fields of the
    last record are left and [read_pcd] returns two points, not one. *)
Lemma read_pcd_truncated_counterexample :
  pcd_binary_header pcd_xyzi_cut4 (info_of pcd_xyzi_cut4) (header_size_of pcd_xyzi_cut4)
  /\ List.length (get_fields (info_of pcd_xyzi_cut4)) = 4
  /\ get_points (info_of pcd_xyzi_cut4) = 2%Z
  /\ List.length pcd_xyzi_cut4 + 4 = header_size_of pcd_xyzi_cut4 + 4 * 4 * 2
  /\ exists pts, read_pcd pcd_xyzi_cut4 = Ok pts
                 /\ List.length pts = 2 /\ List.length pts <> 2 - 1.
Proof.
  split.
  { exists (pcd_scan_of pcd_xyzi_cut4). repeat split; vm_compute; reflexivity. }
  split; [vm_compute; reflexivity|].
  split; [vm_compute; reflexivity|].
  split; [vm_compute; reflexivity|].
  eexists. split; [vm_compute; reflexivity|].
  split; [reflexivity | discriminate].
Qed.

(** *** read_ply after the header *)

Lemma read_ply_after_header (file : bytes) (h : ply_header) (payload : bytes) :
  ply_header_of file h payload ->
  read_ply file
  = finish (match index (lit "x") (properties h), index (lit "y") (properties h),
                  index (lit "z") (properties h) with
            | Some xi, Some yi, Some zi => ply_read_payload h xi yi zi payload
            | _, _, _ => Exc ValueError_missing_xyz
            end).
Proof.
  intros (st & Hrh & Hf & Hp).
  unfold read_ply, ply_after_header. rewrite Hrh, Hp, Hf. reflexivity.
Qed.

Lemma read_ply_binary_le (file : bytes) (h : ply_header) (payload : bytes)
      (xi yi zi : nat) :
  ply_header_of file h payload ->
  format_type h = lit "binary_little_endian" ->
  index (lit "x") (properties h) = Some xi ->
  index (lit "y") (properties h) = Some yi ->
  index (lit "z") (properties h) = Some zi ->
  read_ply file
  = finish (ply_binary_loop unpack_le_f (properties h) xi yi zi
              (Z.to_nat (vertex_count h)) payload []).
Proof.
  intros Hh Hfmt Hx Hy Hz.
  rewrite (read_ply_after_header Hh), Hx, Hy, Hz.
  unfold ply_read_payload. rewrite Hfmt. reflexivity.
Qed.

Lemma read_ply_binary_be (file : bytes) (h : ply_header) (payload : bytes)
      (xi yi zi : nat) :
  ply_header_of file h payload ->
  format_type h = lit "binary_big_endian" ->
  index (lit "x") (properties h) = Some xi ->
  index (lit "y") (properties h) = Some yi ->
  index (lit "z") (properties h) = Some zi ->
  read_ply file
  = finish (ply_binary_loop unpack_be_f (properties h) xi yi zi
              (Z.to_nat (vertex_count h)) payload []).
Proof.
  intros Hh Hfmt Hx Hy Hz.
  rewrite (read_ply_after_header Hh), Hx, Hy, Hz.
  unfold ply_read_payload. rewrite Hfmt. reflexivity.
Qed.

(** C2 (as amended).  [hs] is the header size that [read_pcd] computes
    from the stripped header lines (line 55), the offset it seeks to.
    When the bytes of a binary-mode PCD file from offset [hs] on are
    [c] whole records, [c < POINTS], and [r] more bytes, [0 < r < 12]
    (fewer than three whole fields of the cut record), [read_pcd]
    returns without raising the [c] points of these records, read at
    the offsets [hs + 4 * fields * i]; the two binary decoders of
    [read_ply] raise [struct.error] when the payload, the bytes after
    the [end_header] line, ends before the declared vertices are
    read. *)
Theorem binary_decoders_truncated_payload :
  (forall (file : bytes) (h : header_info) (hs c r : nat),
      pcd_binary_header file h hs ->
      3 <= List.length (get_fields h) ->
      (Z.of_nat c < get_points h)%Z ->
      List.length file = hs + 4 * List.length (get_fields h) * c + r ->
      0 < r < 12 ->
      read_pcd file
      = Ok (map (record_point file hs (List.length (get_fields h))
                   (index_or (lit "x") (get_fields h) 0)
                   (index_or (lit "y") (get_fields h) 1)
                   (index_or (lit "z") (get_fields h) 2))
                (seq 0 c)))
  /\ (forall (file : bytes) (h : ply_header) (payload : bytes) (xi yi zi : nat),
         ply_header_of file h payload ->
         format_type h = lit "binary_little_endian"
         \/ format_type h = lit "binary_big_endian" ->
         index (lit "x") (properties h) = Some xi ->
         index (lit "y") (properties h) = Some yi ->
         index (lit "z") (properties h) = Some zi ->
         List.length payload
         < 4 * List.length (properties h) * Z.to_nat (vertex_count h) ->
         read_ply file = Raise struct_error).
Proof.
  split.
  - intros file h hs c r Hh Hnf Hc Hlen Hr.
    apply read_pcd_binary_records with (r := r); try assumption; lia.
  - intros file h payload xi yi zi Hh Hfmt Hx Hy Hz Hlen.
    pose proof (index_lt _ _ Hx). pose proof (index_lt _ _ Hy).
    pose proof (index_lt _ _ Hz).
    destruct Hfmt as [Hfmt|Hfmt].
    + rewrite (read_ply_binary_le Hh Hfmt Hx Hy Hz).
      unfold unpack_le_f. rewrite ply_binary_loop_short by assumption.
      reflexivity.
    + rewrite (read_ply_binary_be Hh Hfmt Hx Hy Hz).
      unfold unpack_be_f. rewrite ply_binary_loop_short by assumption.
      reflexivity.
Qed.

Lemma ply_header_of_example (file : bytes) :
  ply_read_header file = Ok (ply_scan_of file) ->
  ply_parse_header ply_header_init (ply_lines (ply_scan_of file))
  = Val (ply_header_parsed file) ->
  ply_header_of file (ply_header_parsed file) (ply_payload_of file).
Proof. intros H1 H2. exists (ply_scan_of file). repeat split; assumption. Qed.

Lemma binary_decoders_truncated_payload_witness :
  read_pcd pcd_xyz_cut3
  = Ok (map (record_point pcd_xyz_cut3 (header_size_of pcd_xyz_cut3)
               (List.length (get_fields (info_of pcd_xyz_cut3)))
               (index_or (lit "x") (get_fields (info_of pcd_xyz_cut3)) 0)
               (index_or (lit "y") (get_fields (info_of pcd_xyz_cut3)) 1)
               (index_or (lit "z") (get_fields (info_of pcd_xyz_cut3)) 2))
            (seq 0 1))
  /\ List.length (ply_payload_of ply_le_2_cut1) = 23
  /\ read_ply ply_le_2_cut1 = Raise struct_error.
Proof.
  destruct binary_decoders_truncated_payload as [Hpcd Hply].
  split; [|split].
  - apply (Hpcd pcd_xyz_cut3 (info_of pcd_xyz_cut3)
                (header_size_of pcd_xyz_cut3) 1 9).
    + exists (pcd_scan_of pcd_xyz_cut3). repeat split; vm_compute; reflexivity.
    + vm_compute. lia.
    + vm_compute. reflexivity.
    + vm_compute. reflexivity.
    + lia.
  - vm_compute. reflexivity.
  - apply (Hply ply_le_2_cut1 (ply_header_parsed ply_le_2_cut1)
                (ply_payload_of ply_le_2_cut1) 0 1 2).
    + apply ply_header_of_example; vm_compute; reflexivity.
    + left. vm_compute. reflexivity.
    + vm_compute. reflexivity.
    + vm_compute. reflexivity.
    + vm_compute. reflexivity.
    + vm_compute. lia.
Defined.

(** C2 (counterexample).  A little-endian PLY file that declares two
    vertices of three floats and whose payload is one byte short:
    [read_ply] raises [struct.error] instead of returning the first
    vertex. *)
Lemma read_ply_truncated_counterexample :
  ply_header_of ply_le_2_cut1 (ply_header_parsed ply_le_2_cut1)
                (ply_payload_of ply_le_2_cut1)
  /\ format_type (ply_header_parsed ply_le_2_cut1) = lit "binary_little_endian"
  /\ vertex_count (ply_header_parsed ply_le_2_cut1) = 2%Z
  /\ List.length (properties (ply_header_parsed ply_le_2_cut1)) = 3
  /\ List.length (ply_payload_of ply_le_2_cut1) = 4 * 3 * 2 - 1
  /\ read_ply ply_le_2_cut1 = Raise struct_error.
Proof.
  split; [apply ply_header_of_example; vm_compute; reflexivity|].
  repeat split; vm_compute; reflexivity.
Qed.

(** C9.  The same vertex data after a little-endian and after a
    big-endian header that agree on the vertex count and the
    properties, the bytes of each 4-byte float reversed: [read_ply] has
    the same outcome on both files, and when the payload holds the
    declared vertices the outcome is the same sequence of points, one a
    vertex. *)
Theorem read_ply_endianness (file_le file_be : bytes) (h_le h_be : ply_header)
        (payload : bytes) (xi yi zi : nat) :
  ply_header_of file_le h_le payload ->
  ply_header_of file_be h_be (swap4 payload) ->
  format_type h_le = lit "binary_little_endian" ->
  format_type h_be = lit "binary_big_endian" ->
  vertex_count h_be = vertex_count h_le ->
  properties h_be = properties h_le ->
  index (lit "x") (properties h_le) = Some xi ->
  index (lit "y") (properties h_le) = Some yi ->
  index (lit "z") (properties h_le) = Some zi ->
  read_ply file_be = read_ply file_le
  /\ (4 * List.length (properties h_le) * Z.to_nat (vertex_count h_le)
      <= List.length payload ->
      exists pts, read_ply file_le = Ok pts /\ read_ply file_be = Ok pts
                  /\ List.length pts = Z.to_nat (vertex_count h_le)).
Proof.
  intros Hle Hbe Hfle Hfbe Hvc Hprops Hx Hy Hz.
  assert (Heq : read_ply file_be = read_ply file_le).
  { rewrite (read_ply_binary_le Hle Hfle Hx Hy Hz).
    assert (Hx' := Hx). assert (Hy' := Hy). assert (Hz' := Hz).
    rewrite <- Hprops in Hx', Hy', Hz'.
    rewrite (read_ply_binary_be Hbe Hfbe Hx' Hy' Hz').
    rewrite Hprops, Hvc, ply_binary_loop_swap4. reflexivity. }
  split; [exact Heq|].
  intros Hlen.
  pose proof (index_lt _ _ Hx). pose proof (index_lt _ _ Hy).
  pose proof (index_lt _ _ Hz).
  destruct (@ply_binary_loop_enough decode_le_f (properties h_le) xi yi zi
              ltac:(assumption) ltac:(assumption) ltac:(assumption)
              (Z.to_nat (vertex_count h_le)) payload [] Hlen)
    as (pts & Hp & Hl).
  exists pts.
  assert (Hr : read_ply file_le = Ok pts).
  { rewrite (read_ply_binary_le Hle Hfle Hx Hy Hz).
    unfold unpack_le_f. rewrite Hp. reflexivity. }
  split; [exact Hr|]. split; [rewrite Heq; exact Hr|].
  rewrite Hl. reflexivity.
Qed.

Lemma read_ply_endianness_witness :
  read_ply ply_be_2 = read_ply ply_le_2
  /\ exists pts, read_ply ply_le_2 = Ok pts /\ read_ply ply_be_2 = Ok pts
                 /\ List.length pts = 2.
Proof.
  assert (Hle : ply_header_of ply_le_2 (ply_header_parsed ply_le_2)
                              (ply_payload_of ply_le_2))
    by (apply ply_header_of_example; vm_compute; reflexivity).
  assert (Hbe : ply_header_of ply_be_2 (ply_header_parsed ply_be_2)
                              (swap4 (ply_payload_of ply_le_2))).
  { exists (ply_scan_of ply_be_2). repeat split; vm_compute; reflexivity. }
  destruct (@read_ply_endianness ply_le_2 ply_be_2
              (ply_header_parsed ply_le_2) (ply_header_parsed ply_be_2)
              (ply_payload_of ply_le_2) 0 1 2 Hle Hbe) as [Heq Hok];
    try (vm_compute; reflexivity).
  split; [exact Heq|].
  apply Hok. vm_compute. lia.
Defined.

(** *** The header loops at the end of the file *)

(** C10.  On a file in which the sentinel line never appears, the
    header loops of [read_pcd] and [read_ply] do not end, whatever the
    number of rounds: at the end of the file [readline] returns [b''],
    no branch of the body breaks on the empty line, and neither function
    returns.  So it is on the empty file, on a PCD header without its
    DATA line and on a PLY header without its [end_header] line. *)
Theorem header_loops_never_end_at_eof :
  (forall fuel, while_true pcd_header_body fuel (pcd_scan_init []) = Diverge)
  /\ (forall fuel,
         while_true ply_header_body fuel {| ply_f := []; ply_lines := [] |}
         = Diverge)
  /\ (forall fuel,
         while_true pcd_header_body fuel (pcd_scan_init pcd_no_data) = Diverge)
  /\ (forall fuel,
         while_true ply_header_body fuel
                    {| ply_f := ply_no_end_header; ply_lines := [] |}
         = Diverge)
  /\ read_pcd [] = Diverge
  /\ read_ply [] = Diverge
  /\ read_pcd pcd_no_data = Diverge
  /\ read_ply ply_no_end_header = Diverge.
Proof.
  split; [|split; [|split; [|split; [|split; [|split; [|split]]]]]].
  - intros fuel.
    apply while_true_stuck with (P := fun s => pcd_f s = []);
      [apply pcd_header_body_eof | reflexivity].
  - intros fuel.
    apply while_true_stuck with (P := fun s => ply_f s = []);
      [apply ply_header_body_eof | reflexivity].
  - apply pcd_header_diverges with (n := S (List.length pcd_no_data));
      [apply Nat.lt_succ_diag_r | vm_compute; reflexivity].
  - apply ply_header_diverges with (n := S (List.length ply_no_end_header));
      [apply Nat.lt_succ_diag_r | vm_compute; reflexivity].
  - reflexivity.
  - reflexivity.
  - vm_compute. reflexivity.
  - vm_compute. reflexivity.
Qed.

(** *** read_bin *)

Lemma div4_step (n : nat) : (4 + n) / 4 = S (n / 4).
Proof.
  replace (4 + n) with (n + 1 * 4) by lia.
  rewrite Nat.div_add by lia. lia.
Qed.

(** [np.fromfile] yields one float for every four bytes. *)
Lemma np_fromfile_length (f : bytes) :
  List.length (np_fromfile_float32 f) = List.length f / 4.
Proof.
  revert f. fix IH 1. intros [|a [|b [|c [|d r]]]]; try reflexivity.
  cbn [np_fromfile_float32 List.length]. rewrite IH.
  change (S (S (S (S (List.length r))))) with (4 + List.length r).
  rewrite div4_step. reflexivity.
Qed.

(** The rows of [read_bin] on a file of [16 * n] bytes. *)
Lemma read_bin_rows (n : nat) (f : bytes) :
  List.length f = 16 * n ->
  columns_3 (rows4 (np_fromfile_float32 f))
  = map (fun i => [float_at f (16 * i); float_at f (16 * i + 4);
                   float_at f (16 * i + 8)]) (seq 0 n).
Proof.
  revert f. induction n as [|n IH]; intros f Hlen.
  - destruct f; [reflexivity | simpl in Hlen; lia].
  - do 16 (destruct f as [|? f]; [simpl in Hlen; lia|]).
    cbn [np_fromfile_float32 rows4 columns_3 map firstn].
    rewrite map_seq_S. f_equal.
    fold (columns_3 (rows4 (np_fromfile_float32 f))).
    rewrite IH by (simpl in Hlen; lia).
    apply map_ext. intros i.
    replace (16 * S i) with (16 + 16 * i) by lia.
    rewrite <- !Nat.add_assoc, <- !float_at_skipn. reflexivity.
Qed.

(** C7.  On a file of exactly [4 * N] 32-bit floats [read_bin] returns
    exactly [N] points, the point [i] being the first three floats of
    the group of four number [i]; when the number of floats of the file
    is not a multiple of 4 the call fails in [reshape]. *)
Theorem read_bin_reshape :
  (forall (file : bytes) (N : nat),
      List.length file = 4 * (4 * N) ->
      exists pts,
        read_bin file = Val pts
        /\ List.length pts = N
        /\ forall i, i < N ->
             nth_error pts i
             = Some [float_at file (16 * i); float_at file (16 * i + 4);
                     float_at file (16 * i + 8)])
  /\ (forall file : bytes,
         (List.length file / 4) mod 4 <> 0 ->
         read_bin file = Exc ValueError_reshape).
Proof.
  split.
  - intros file N Hlen.
    assert (Hlen' : List.length file = 16 * N) by lia.
    eexists. split; [|split].
    + unfold read_bin, reshape_4. rewrite np_fromfile_length, Hlen'.
      replace (16 * N) with ((4 * N) * 4) by lia.
      rewrite Nat.div_mul by lia.
      replace (4 * N) with (N * 4) by lia.
      rewrite Nat.Div0.mod_mul. cbn [Nat.eqb bind].
      replace (N * 4 * 4) with (16 * N) in Hlen' by lia.
      rewrite (read_bin_rows N file Hlen'). reflexivity.
    + rewrite length_map, length_seq. reflexivity.
    + intros i Hi.
      apply (nth_error_map_seq
               (fun i => [float_at file (16 * i); float_at file (16 * i + 4);
                          float_at file (16 * i + 8)])).
      assumption.
  - intros file Hmod. unfold read_bin, reshape_4.
    rewrite np_fromfile_length.
    destruct (Nat.eqb_spec ((List.length file / 4) mod 4) 0); [contradiction|].
    reflexivity.
Qed.

Lemma read_bin_reshape_witness :
  (exists pts,
      read_bin bin_2_points = Val pts
      /\ List.length pts = 2
      /\ forall i, i < 2 ->
           nth_error pts i
           = Some [float_at bin_2_points (16 * i);
                   float_at bin_2_points (16 * i + 4);
                   float_at bin_2_points (16 * i + 8)])
  /\ (List.length bin_7_floats / 4) mod 4 = 3
  /\ read_bin bin_7_floats = Exc ValueError_reshape.
Proof.
  destruct read_bin_reshape as [Hok Hbad].
  split; [|split].
  - apply (Hok bin_2_points 2). reflexivity.
  - reflexivity.
  - apply (Hbad bin_7_floats). vm_compute. discriminate.
Defined.

(** *** Names in a property list *)

Lemma str_eqb_eq (a b : str) : str_eqb a b = true <-> a = b.
Proof.
  revert b. induction a as [|x a IH]; intros [|y b]; simpl;
    try (split; [discriminate | discriminate]); try tauto.
  rewrite andb_true_iff, N.eqb_eq, IH.
  split; [intros [-> ->]; reflexivity | intros H; inversion H; auto].
Qed.

Lemma index_None (x : str) (xs : list str) :
  index x xs = None <-> ~ In x xs.
Proof.
  induction xs as [|y r IH]; simpl.
  - tauto.
  - destruct (str_eqb y x) eqn:E.
    + apply str_eqb_eq in E. split; [discriminate | intros H; tauto].
    + assert (y <> x) by (intros Hyx; apply str_eqb_eq in Hyx; congruence).
      destruct (index x r); simpl.
      * split; [discriminate|]. intros Hn. exfalso.
        destruct (in_dec (list_eq_dec N.eq_dec) x r) as [Hin|Hnin].
        -- apply Hn. right. exact Hin.
        -- apply IH in Hnin. discriminate.
      * split; [|reflexivity]. intros _ [Hyx|Hin]; [contradiction|].
        apply IH in Hin; [assumption | reflexivity].
Qed.

(** C5.  A PLY file whose header is read and parsed and whose float and
    double properties lack one of the names [x], [y], [z]: [read_ply]
    raises the missing-coordinates [ValueError] and returns no point;
    the failure comes before the payload is looked at, for all that
    follows the header loop fails in the same way on any payload. *)
Theorem read_ply_missing_coordinates (file : bytes) (h : ply_header)
        (payload : bytes) :
  ply_header_of file h payload ->
  ~ In (lit "x") (properties h) \/ ~ In (lit "y") (properties h)
  \/ ~ In (lit "z") (properties h) ->
  read_ply file = Raise ValueError_missing_xyz
  /\ forall st, ply_read_header file = Ok st ->
       forall f, ply_after_header (ply_lines st) f = Exc ValueError_missing_xyz.
Proof.
  intros Hh Hmiss.
  assert (Hidx : match index (lit "x") (properties h),
                       index (lit "y") (properties h),
                       index (lit "z") (properties h) with
                 | Some _, Some _, Some _ => False
                 | _, _, _ => True
                 end).
  { destruct Hmiss as [H|[H|H]]; apply index_None in H; rewrite H;
      repeat match goal with |- context [index ?a ?b] => destruct (index a b) end;
      exact I. }
  split.
  - rewrite (read_ply_after_header Hh).
    destruct (index (lit "x") (properties h)), (index (lit "y") (properties h)),
      (index (lit "z") (properties h)); try contradiction; reflexivity.
  - intros st Hst f. destruct Hh as (st' & Hst' & _ & Hp).
    rewrite Hst in Hst'. inversion Hst'. subst st'.
    unfold ply_after_header. rewrite Hp. cbn [bind].
    destruct (index (lit "x") (properties h)), (index (lit "y") (properties h)),
      (index (lit "z") (properties h)); try contradiction; reflexivity.
Qed.

Lemma read_ply_missing_coordinates_witness :
  ~ In (lit "z") (properties (ply_header_parsed ply_no_z))
  /\ read_ply ply_no_z = Raise ValueError_missing_xyz
  /\ forall st, ply_read_header ply_no_z = Ok st ->
       forall f, ply_after_header (ply_lines st) f = Exc ValueError_missing_xyz.
Proof.
  assert (Hz : ~ In (lit "z") (properties (ply_header_parsed ply_no_z))).
  { apply index_None. vm_compute. reflexivity. }
  split; [exact Hz|].
  apply (@read_ply_missing_coordinates ply_no_z (ply_header_parsed ply_no_z)
           (ply_payload_of ply_no_z)).
  - apply ply_header_of_example; vm_compute; reflexivity.
  - right. right. exact Hz.
Defined.

(** *** The declared count bounds the result *)

Lemma ply_ascii_loop_bound (np xi yi zi n : nat) (f : bytes) (pts pts' : list point) :
  ply_ascii_loop np xi yi zi n f pts = Val pts' ->
  List.length pts' <= List.length pts + n.
Proof.
  revert f pts. induction n as [|n IH]; intros f pts H.
  - simpl in H. inversion H. lia.
  - cbn [ply_ascii_loop] in H.
    destruct (readline f) as [line f'].
    destruct (utf8_decode line) as [text|]; [|discriminate].
    cbn [of_option bind] in H.
    destruct (np <=? List.length (split (strip text))).
    + destruct (bind (item (split (strip text)) xi) float_); [|discriminate].
      destruct (bind (item (split (strip text)) yi) float_); [|discriminate].
      destruct (bind (item (split (strip text)) zi) float_); [|discriminate].
      cbn [bind] in H. apply IH in H. rewrite length_app in H. simpl in H. lia.
    + apply IH in H. lia.
Qed.

(** C6 (as amended).  The binary decoder of [read_pcd] and the three
    decoders of [read_ply] return no more points than the header
    declares (POINTS, or the count of [element vertex]; 0 when it is
    absent or negative). *)
Theorem readers_bounded_by_declared_count :
  (forall (file : bytes) (h : header_info) (hs : nat) (pts : list point),
      pcd_binary_header file h hs ->
      read_pcd file = Ok pts ->
      (Z.of_nat (List.length pts) <= Z.max 0 (get_points h))%Z)
  /\ (forall (file : bytes) (h : ply_header) (payload : bytes) (pts : list point),
         ply_header_of file h payload ->
         read_ply file = Ok pts ->
         (Z.of_nat (List.length pts) <= Z.max 0 (vertex_count h))%Z).
Proof.
  split.
  - intros file h hs pts Hh Hr.
    rewrite (read_pcd_binary_mode Hh) in Hr.
    destruct (pcd_binary_loop _ _ _ _ _ _ _) as [pts'|e] eqn:Hl; [|discriminate].
    inversion Hr. subst pts'.
    apply pcd_binary_loop_bound in Hl. simpl in Hl. lia.
  - intros file h payload pts Hh Hr.
    rewrite (read_ply_after_header Hh) in Hr.
    destruct (index (lit "x") (properties h)) as [xi|]; [|discriminate].
    destruct (index (lit "y") (properties h)) as [yi|]; [|discriminate].
    destruct (index (lit "z") (properties h)) as [zi|]; [|discriminate].
    unfold ply_read_payload in Hr.
    destruct (str_eqb (format_type h) (lit "ascii")).
    { destruct (ply_ascii_loop _ _ _ _ _ _ _) as [pts'|e] eqn:Hl; [|discriminate].
      inversion Hr. subst pts'.
      apply ply_ascii_loop_bound in Hl. simpl in Hl. lia. }
    destruct (str_eqb (format_type h) (lit "binary_little_endian")).
    { destruct (ply_binary_loop _ _ _ _ _ _ _ _) as [pts'|e] eqn:Hl; [|discriminate].
      inversion Hr. subst pts'.
      apply ply_binary_loop_bound in Hl. simpl in Hl. lia. }
    destruct (str_eqb (format_type h) (lit "binary_big_endian")); [|discriminate].
    destruct (ply_binary_loop _ _ _ _ _ _ _ _) as [pts'|e] eqn:Hl; [|discriminate].
    inversion Hr. subst pts'.
    apply ply_binary_loop_bound in Hl. simpl in Hl. lia.
Qed.

Lemma readers_bounded_by_declared_count_witness :
  (exists pts, read_pcd pcd_xyz_cut3 = Ok pts
               /\ (Z.of_nat (List.length pts)
                   <= Z.max 0 (get_points (info_of pcd_xyz_cut3)))%Z)
  /\ (exists pts, read_ply ply_le_2 = Ok pts
                  /\ (Z.of_nat (List.length pts)
                      <= Z.max 0 (vertex_count (ply_header_parsed ply_le_2)))%Z).
Proof.
  destruct readers_bounded_by_declared_count as [Hpcd Hply].
  split.
  - eexists. split; [vm_compute; reflexivity|].
    eapply (Hpcd pcd_xyz_cut3 (info_of pcd_xyz_cut3) (header_size_of pcd_xyz_cut3)).
    + exists (pcd_scan_of pcd_xyz_cut3). repeat split; vm_compute; reflexivity.
    + vm_compute. reflexivity.
  - eexists. split; [vm_compute; reflexivity|].
    eapply (Hply ply_le_2 (ply_header_parsed ply_le_2) (ply_payload_of ply_le_2)).
    + apply ply_header_of_example; vm_compute; reflexivity.
    + vm_compute. reflexivity.
Defined.

(** C6 (counterexample).  In ASCII mode [read_pcd] does not look at
    POINTS: a file that declares one point and holds two payload lines
    yields two points. *)
Lemma read_pcd_ascii_exceeds_points :
  pcd_ascii_header pcd_ascii_1_of_2 (info_of pcd_ascii_1_of_2)
  /\ get_points (info_of pcd_ascii_1_of_2) = 1%Z
  /\ read_pcd pcd_ascii_1_of_2
     = Ok [(Fin false 1 0, Fin false 1 1, Fin false 3 0);
           (Fin false 1 2, Fin false 5 0, Fin false 3 1)]
  /\ ~ (2 <= 1)%Z.
Proof.
  split.
  { exists (pcd_scan_of pcd_ascii_1_of_2). repeat split; vm_compute; reflexivity. }
  repeat split; try (vm_compute; reflexivity). lia.
Qed.

(** *** read_pcd on an ASCII file *)

Lemma find_data_start_skipn (pre lines : list str) :
  skipn (find_data_start lines (List.length pre)) (pre ++ lines)
  = match after_data_marker lines with
    | Some r => r
    | None => pre ++ lines
    end.
Proof.
  revert pre. induction lines as [|l r IH]; intros pre.
  - reflexivity.
  - cbn [find_data_start after_data_marker].
    destruct (startswith (strip l) (lit "DATA")).
    + replace (List.length pre + 1) with (List.length (pre ++ [l]))
        by (rewrite length_app; reflexivity).
      replace (pre ++ l :: r) with ((pre ++ [l]) ++ r)
        by (rewrite <- app_assoc; reflexivity).
      rewrite skipn_app, skipn_all, Nat.sub_diag. reflexivity.
    + specialize (IH (pre ++ [l])).
      rewrite length_app, <- app_assoc in IH. cbn [List.length app] in IH.
      rewrite Nat.add_1_r in IH. exact IH.
Qed.

Lemma map_try_float_values (toks : list str) :
  Forall (fun t => float_of_str t <> None) toks ->
  exists vs, map_try float_ toks = Val vs /\ map float_of_str toks = map Some vs.
Proof.
  induction 1 as [|t r Ht _ (vs & Hm & Hs)].
  - exists []. split; reflexivity.
  - destruct (float_of_str t) as [v|] eqn:Hv; [|congruence].
    exists (v :: vs). split.
    + cbn [map_try]. unfold float_ at 1. rewrite Hv. cbn [of_option bind].
      rewrite Hm. reflexivity.
    + cbn [map]. rewrite Hv, Hs. reflexivity.
Qed.

(** The accumulating loop of the ASCII branch is the map of
    [point_of_line] over the lines. *)
Lemma pcd_ascii_loop_points (lines : list str) (pts : list point) :
  Forall values_are_floats lines ->
  pcd_ascii_loop lines pts = Val (pts ++ flat_map point_of_line lines).
Proof.
  intros H. revert pts. induction H as [|l r Hl _ IH]; intros pts.
  - simpl. rewrite app_nil_r. reflexivity.
  - cbn [pcd_ascii_loop flat_map]. unfold point_of_line at 1.
    unfold values_are_floats in Hl.
    destruct (strip l) as [|c s] eqn:Hs.
    + cbn [split split_aux app]. apply IH.
    + destruct (map_try_float_values Hl) as (vs & Hm & Hv).
      rewrite Hm. cbn [bind].
      destruct (split (c :: s)) as [|a [|b [|c' toks]]];
        destruct vs as [|x [|y [|z vs]]]; try discriminate;
        cbn [map] in Hv; inversion Hv as [Hv'];
        try (cbn [app]; apply IH).
      match goal with
      | H1 : float_of_str a = _, H2 : float_of_str b = _,
        H3 : float_of_str c' = _ |- _ => rewrite H1, H2, H3
      end.
      rewrite IH, <- app_assoc. reflexivity.
Qed.

Lemma read_pcd_ascii_mode (file : bytes) (h : header_info) :
  pcd_ascii_header file h ->
  read_pcd file = finish (read_pcd_ascii file).
Proof.
  intros (st & Hrh & Hinfo & Hup).
  unfold read_pcd. rewrite Hrh, Hinfo, Hup. reflexivity.
Qed.

(** In ASCII mode [read_pcd] is the loop over the payload lines. *)
Lemma read_pcd_ascii_run (file : bytes) (h : header_info) (lines : list str) :
  pcd_ascii_header file h ->
  text_readlines file = Val lines ->
  read_pcd file = finish (pcd_ascii_loop (payload_lines lines) []).
Proof.
  intros Hh Hl.
  rewrite (read_pcd_ascii_mode Hh). unfold read_pcd_ascii.
  rewrite Hl. cbn [bind].
  pose proof (find_data_start_skipn [] lines) as Hs.
  cbn [List.length app] in Hs. rewrite Hs. reflexivity.
Qed.

(** C4.  On an ASCII-mode PCD file whose payload values are float
    literals, [read_pcd] returns, for the payload lines in their order,
    the first three values of every line that has three; the declared
    fields play no part, so that two files with the same payload lines
    give the same points; and the file of the concrete scenario gives
    [[1.0, 2.0, 3.0], [4.0, 5.0, 6.0]]. *)
Theorem read_pcd_ascii_first_three :
  (forall (file : bytes) (h : header_info) (lines : list str),
      pcd_ascii_header file h ->
      text_readlines file = Val lines ->
      Forall values_are_floats (payload_lines lines) ->
      read_pcd file = Ok (flat_map point_of_line (payload_lines lines)))
  /\ (forall (file1 file2 : bytes) (h1 h2 : header_info) (lines1 lines2 : list str),
         pcd_ascii_header file1 h1 -> pcd_ascii_header file2 h2 ->
         text_readlines file1 = Val lines1 ->
         text_readlines file2 = Val lines2 ->
         payload_lines lines1 = payload_lines lines2 ->
         read_pcd file1 = read_pcd file2)
  /\ read_pcd pcd_scenario
     = Ok [(Fin false 1 0, Fin false 1 1, Fin false 3 0);
           (Fin false 1 2, Fin false 5 0, Fin false 3 1)].
Proof.
  split; [|split].
  - intros file h lines Hh Hl Hv.
    rewrite (read_pcd_ascii_run Hh Hl), (pcd_ascii_loop_points [] Hv). reflexivity.
  - intros file1 file2 h1 h2 lines1 lines2 Hh1 Hh2 Hl1 Hl2 Heq.
    rewrite (read_pcd_ascii_run Hh1 Hl1), (read_pcd_ascii_run Hh2 Hl2), Heq.
    reflexivity.
  - vm_compute. reflexivity.
Qed.

Ltac concrete_floats :=
  match goal with
  | |- Forall values_are_floats ?ls =>
    let l := eval vm_compute in ls in
    change (Forall values_are_floats l);
    repeat (apply Forall_cons || apply Forall_nil);
    unfold values_are_floats;
    repeat match goal with
           | |- Forall _ (split ?x) =>
             let t := eval vm_compute in (split x) in
             change (split x) with t
           end;
    repeat (apply Forall_cons || apply Forall_nil);
    vm_compute; discriminate
  end.

Lemma read_pcd_ascii_first_three_witness :
  read_pcd pcd_scenario_zyx
  = Ok (flat_map point_of_line (payload_lines (text_lines_of pcd_scenario_zyx)))
  /\ read_pcd pcd_scenario = read_pcd pcd_scenario_zyx.
Proof.
  destruct read_pcd_ascii_first_three as (Hpts & Hsame & _).
  assert (Hh : pcd_ascii_header pcd_scenario (info_of pcd_scenario)).
  { exists (pcd_scan_of pcd_scenario). repeat split; vm_compute; reflexivity. }
  assert (Hh' : pcd_ascii_header pcd_scenario_zyx (info_of pcd_scenario_zyx)).
  { exists (pcd_scan_of pcd_scenario_zyx). repeat split; vm_compute; reflexivity. }
  split.
  - apply (Hpts pcd_scenario_zyx (info_of pcd_scenario_zyx)
                (text_lines_of pcd_scenario_zyx) Hh').
    + vm_compute. reflexivity.
    + concrete_floats.
  - apply (Hsame pcd_scenario pcd_scenario_zyx (info_of pcd_scenario)
                 (info_of pcd_scenario_zyx) (text_lines_of pcd_scenario)
                 (text_lines_of pcd_scenario_zyx) Hh Hh');
      vm_compute; reflexivity.
Defined.

(** *** ASCII text: characters, encoding, lines *)

Lemma is_digit_graph (c : N) : is_digit c = true -> is_graph c = true.
Proof.
  unfold is_digit, is_graph. rewrite !andb_true_iff, !N.leb_le. lia.
Qed.

Lemma is_graph_print (c : N) : is_graph c = true -> is_print c = true.
Proof.
  unfold is_print, is_graph. rewrite !andb_true_iff, !N.leb_le. lia.
Qed.

Lemma is_graph_range (c : N) : is_graph c = true <-> (33 <= c <= 126)%N.
Proof. unfold is_graph. rewrite andb_true_iff, !N.leb_le. tauto. Qed.

Lemma is_print_range (c : N) : is_print c = true <-> (32 <= c <= 126)%N.
Proof. unfold is_print. rewrite andb_true_iff, !N.leb_le. tauto. Qed.

Lemma is_digit_range (c : N) : is_digit c = true <-> (48 <= c <= 57)%N.
Proof. unfold is_digit. rewrite andb_true_iff, !N.leb_le. tauto. Qed.

Lemma is_graph_not_space (c : N) : is_graph c = true -> isspace c = false.
Proof.
  rewrite is_graph_range. intros Hc. unfold isspace.
  repeat match goal with
         | |- context [(?a <=? ?b)%N] => destruct (N.leb_spec a b); try lia
         | |- context [(?a =? ?b)%N] => destruct (N.eqb_spec a b); try lia
         end;
    reflexivity.
Qed.

Lemma nl_is_space : isspace 10 = true.
Proof. reflexivity. Qed.

Lemma to_N_byte_of_N (c : N) : (c < 256)%N -> Byte.to_N (byte_of_N c) = c.
Proof.
  intros Hc. unfold byte_of_N. rewrite N.mod_small by assumption.
  destruct (Byte.of_N c) as [b|] eqn:E.
  - apply Byte.to_of_N. assumption.
  - apply Byte.of_N_None_iff in E. lia.
Qed.

Lemma utf8_encode_app (a b : str) :
  utf8_encode (a ++ b) = utf8_encode a ++ utf8_encode b.
Proof. unfold utf8_encode. apply flat_map_app. Qed.

Lemma utf8_encode_ascii (s : str) :
  Forall (fun c => (c < 128)%N) s -> utf8_encode s = map byte_of_N s.
Proof.
  induction 1 as [|c r Hc _ IH]; [reflexivity|].
  unfold utf8_encode in *. cbn [flat_map map]. rewrite IH.
  unfold utf8_encode_char. destruct (N.ltb_spec c 128); [reflexivity | lia].
Qed.

Lemma utf8_decode_ascii (s : str) :
  Forall (fun c => (c < 128)%N) s -> utf8_decode (map byte_of_N s) = Some s.
Proof.
  induction 1 as [|c r Hc _ IH]; [reflexivity|].
  cbn [map utf8_decode]. rewrite to_N_byte_of_N by lia.
  destruct (N.ltb_spec c 128); [|lia]. rewrite IH. reflexivity.
Qed.

Lemma print_ascii (s : str) :
  Forall (fun c => is_print c = true) s -> Forall (fun c => (c < 128)%N) s.
Proof.
  apply Forall_impl. intros c Hc. apply is_print_range in Hc. lia.
Qed.

Lemma byte_of_N_is_lf (c : N) :
  (c < 256)%N -> Byte.eqb (byte_of_N c) "010"%byte = (c =? 10)%N.
Proof.
  intros Hc. destruct (N.eqb_spec c 10) as [->|Hne].
  - reflexivity.
  - destruct (Byte.eqb (byte_of_N c) "010") eqn:E; [|reflexivity].
    apply Byte.byte_dec_bl in E.
    apply (f_equal Byte.to_N) in E. rewrite to_N_byte_of_N in E by assumption.
    exfalso. apply Hne. exact E.
Qed.

(** [readline] stops after the first line feed. *)
Lemma readline_line (content : str) (rest : bytes) :
  Forall (fun c => is_print c = true) content ->
  readline (map byte_of_N (with_nl content) ++ rest)
  = (map byte_of_N (with_nl content), rest).
Proof.
  induction 1 as [|c r Hc _ IH].
  - reflexivity.
  - apply is_print_range in Hc.
    unfold with_nl in *. cbn [app map readline].
    rewrite byte_of_N_is_lf by lia.
    destruct (N.eqb_spec c 10); [lia|].
    rewrite IH. reflexivity.
Qed.

Lemma universal_newlines_print (s : str) :
  Forall (fun c => is_print c = true \/ c = 10%N) s -> universal_newlines s = s.
Proof.
  induction 1 as [|c r Hc _ IH]; [reflexivity|].
  cbn [universal_newlines].
  destruct (N.eqb_spec c 13) as [->|_].
  - destruct Hc as [Hc|Hc]; [apply is_print_range in Hc; lia | discriminate].
  - rewrite IH. reflexivity.
Qed.

Lemma lines_of_line (content rest cur : str) :
  Forall (fun c => is_print c = true) content ->
  lines_of (with_nl content ++ rest) cur
  = (cur ++ with_nl content) :: lines_of rest [].
Proof.
  intros H. revert cur. induction H as [|c r Hc _ IH]; intros cur.
  - reflexivity.
  - apply is_print_range in Hc.
    unfold with_nl in *. cbn [app lines_of].
    destruct (N.eqb_spec c 10); [lia|].
    rewrite IH, <- app_assoc. reflexivity.
Qed.

Lemma lines_of_concat (contents : list str) :
  Forall (Forall (fun c => is_print c = true)) contents ->
  lines_of (List.concat (map with_nl contents)) [] = map with_nl contents.
Proof.
  induction 1 as [|c r Hc _ IH]; [reflexivity|].
  cbn [map List.concat]. rewrite lines_of_line by assumption.
  rewrite IH. reflexivity.
Qed.

Lemma concat_lines_print (contents : list str) :
  Forall (Forall (fun c => is_print c = true)) contents ->
  Forall (fun c => is_print c = true \/ c = 10%N) (List.concat (map with_nl contents)).
Proof.
  induction 1 as [|c r Hc _ IH]; [constructor|].
  cbn [map List.concat]. unfold with_nl at 1.
  rewrite !Forall_app. repeat split.
  - eapply Forall_impl; [|exact Hc]. auto.
  - unfold nl. constructor; [right; reflexivity | constructor].
  - exact IH.
Qed.

(** A file made of printable ASCII lines is read back line by line. *)
Lemma text_readlines_lines (contents : list str) :
  Forall (Forall (fun c => is_print c = true)) contents ->
  text_readlines (utf8_encode (List.concat (map with_nl contents)))
  = Val (map with_nl contents).
Proof.
  intros H. unfold text_readlines.
  assert (Hascii : Forall (fun c => (c < 128)%N) (List.concat (map with_nl contents))).
  { eapply Forall_impl; [|apply concat_lines_print; exact H].
    intros c [Hc| ->]; [apply is_print_range in Hc|]; lia. }
  rewrite utf8_encode_ascii, utf8_decode_ascii by assumption.
  rewrite universal_newlines_print by (apply concat_lines_print; exact H).
  rewrite lines_of_concat by assumption. reflexivity.
Qed.

(** *** Decimal digits *)

Lemma digit_char_digit (d : N) : is_digit (digit_char d) = true.
Proof.
  apply is_digit_range. unfold digit_char.
  pose proof (N.mod_upper_bound d 10 ltac:(lia)) as H.
  set (r := (d mod 10)%N) in *. clearbody r. lia.
Qed.

Lemma digit_val_digit (c : N) :
  is_digit c = true -> digit_val c = Some (c - 48)%N.
Proof. intros H. unfold digit_val. unfold is_digit in H. rewrite H. reflexivity. Qed.

Lemma digits_from_digits (ds : str) (acc : N) (cnt : nat) :
  Forall (fun c => is_digit c = true) ds ->
  digits_from ds acc cnt = Some (digits_value ds acc, cnt + List.length ds).
Proof.
  intros H. revert acc cnt. induction H as [|c r Hc _ IH]; intros acc cnt.
  - simpl. rewrite Nat.add_0_r. reflexivity.
  - cbn [digits_from]. rewrite (digit_val_digit _ Hc), IH.
    cbn [digits_value fold_left List.length]. f_equal. f_equal. lia.
Qed.

Lemma digitpart_digits (ds : str) :
  ds <> [] -> Forall (fun c => is_digit c = true) ds ->
  digitpart ds = Some (digits_value ds 0, List.length ds).
Proof.
  intros Hne H. destruct H as [|c r Hc Hr]; [congruence|].
  unfold digitpart. rewrite (digit_val_digit _ Hc).
  rewrite digits_from_digits by assumption.
  cbn [digits_value fold_left List.length]. rewrite N.mul_0_r. reflexivity.
Qed.

Lemma digits_value_app (a b : str) (v : N) :
  digits_value (a ++ b) v = digits_value b (digits_value a v).
Proof. apply fold_left_app. Qed.

(** The digits of [str(n)], most significant first. *)
Lemma str_of_N_fuel_digits (fuel : nat) (n : N) (acc : str) :
  (n < 10 ^ N.of_nat (S fuel))%N ->
  exists ds,
    str_of_N_fuel (S fuel) n acc = ds ++ acc
    /\ ds <> []
    /\ Forall (fun c => is_digit c = true) ds
    /\ forall a, digits_value ds a = (a * 10 ^ N.of_nat (List.length ds) + n)%N.
Proof.
  revert n acc. induction fuel as [|fuel IH]; intros n acc Hn;
    cbn [str_of_N_fuel];
    assert (Hd : is_digit (48 + n mod 10) = true) by apply (digit_char_digit n);
    (destruct (N.ltb_spec n 10) as [Hlt|Hge];
     [ exists [(48 + n mod 10)%N]; repeat split;
       [ discriminate
       | repeat constructor; exact Hd
       | intros a; cbn [digits_value fold_left List.length];
         rewrite N.mod_small by assumption;
         change (N.of_nat 1) with 1%N; rewrite N.pow_1_r; lia ]
     | ]).
  - change (10 ^ N.of_nat 1)%N with 10%N in Hn. lia.
  - destruct (IH (n / 10)%N ((48 + n mod 10)%N :: acc)) as (ds & Hs & Hne & Hds & Hv).
    { rewrite Nat2N.inj_succ, N.pow_succ_r' in Hn.
      apply N.Div0.div_lt_upper_bound. exact Hn. }
    exists (ds ++ [(48 + n mod 10)%N]). repeat split.
    + change (str_of_N_fuel (S fuel) (n / 10) ((48 + n mod 10)%N :: acc)
              = (ds ++ [(48 + n mod 10)%N]) ++ acc).
      rewrite Hs, <- app_assoc. reflexivity.
    + destruct ds; discriminate.
    + apply Forall_app. split; [exact Hds | repeat constructor; exact Hd].
    + intros a. rewrite digits_value_app, Hv.
      cbn [digits_value fold_left]. rewrite length_app. cbn [List.length].
      rewrite Nat.add_1_r, Nat2N.inj_succ, N.pow_succ_r'.
      pose proof (N.div_mod n 10 ltac:(lia)) as Hdm.
      pose proof (N.mod_upper_bound n 10 ltac:(lia)) as Hub.
      set (q := (n / 10)%N) in *. set (r := (n mod 10)%N) in *.
      clearbody q r. nia.
Qed.

Lemma str_of_N_digits (n : N) :
  str_of_N n <> []
  /\ Forall (fun c => is_digit c = true) (str_of_N n)
  /\ digits_value (str_of_N n) 0 = n.
Proof.
  unfold str_of_N.
  destruct (@str_of_N_fuel_digits (N.to_nat (N.log2 n)) n [])
    as (ds & Hs & Hne & Hds & Hv).
  - rewrite Nat2N.inj_succ, N2Nat.id.
    destruct (N.eq_dec n 0) as [->|Hn0]; [reflexivity|].
    destruct (N.log2_spec n) as [_ Hlt]; [lia|].
    eapply N.lt_le_trans; [exact Hlt|].
    apply N.pow_le_mono_l. lia.
  - rewrite Hs, app_nil_r. repeat split; try assumption.
    rewrite Hv. lia.
Qed.

Lemma digitpart_str_of_N (n : N) :
  digitpart (str_of_N n) = Some (n, List.length (str_of_N n)).
Proof.
  destruct (str_of_N_digits n) as (Hne & Hds & Hv).
  rewrite digitpart_digits by assumption. rewrite Hv. reflexivity.
Qed.

Lemma pad6_digits (r : N) : Forall (fun c => is_digit c = true) (pad6 r).
Proof. unfold pad6. repeat constructor; apply digit_char_digit. Qed.

Lemma digits_value_pad6 (r : N) :
  (r < 1000000)%N -> digits_value (pad6 r) 0 = r.
Proof.
  intros Hr. unfold pad6, digit_char. cbn [digits_value fold_left].
  rewrite !(N.add_comm 48), !N.add_sub, N.mul_0_r, N.add_0_l.
  zify. Z.to_euclidean_division_equations. lia.
Qed.

Lemma digitpart_pad6 (r : N) :
  (r < 1000000)%N -> digitpart (pad6 r) = Some (r, 6).
Proof.
  intros Hr. rewrite digitpart_digits; [|discriminate | apply pad6_digits].
  rewrite digits_value_pad6 by assumption. reflexivity.
Qed.

(** *** The text written by write_pcd *)

(** The shape of a finite float in the [.6f] format: an optional minus
    sign, the digits of the integer part, a point and six digits; the
    digits are those of [|x| * 10^6] rounded to the nearest integer. *)
Lemma format_6f_finite (neg : bool) (m : N) (e : Z) :
  exists ip fp,
    format_6f (Fin neg m e) = (if neg then lit "-" else []) ++ ip ++ lit "." ++ fp
    /\ ip <> []
    /\ Forall (fun c => is_digit c = true) ip
    /\ List.length fp = 6
    /\ Forall (fun c => is_digit c = true) fp
    /\ (digits_value ip 0 * 1000000 + digits_value fp 0)%N = micro m e.
Proof.
  exists (str_of_N (micro m e / 1000000)), (pad6 (micro m e mod 1000000)).
  destruct (str_of_N_digits (micro m e / 1000000)) as (Hne & Hds & Hv).
  repeat split; try assumption.
  - apply pad6_digits.
  - rewrite Hv.
    rewrite digits_value_pad6 by (apply N.mod_upper_bound; lia).
    pose proof (N.div_mod (micro m e) 1000000 ltac:(lia)) as Hdm.
    set (q := (micro m e / 1000000)%N) in *.
    set (r := (micro m e mod 1000000)%N) in *. clearbody q r. lia.
Qed.

Lemma format_6f_graph (x : float) :
  format_6f x <> [] /\ Forall (fun c => is_graph c = true) (format_6f x).
Proof.
  destruct x as [|neg|neg m e].
  - split; [discriminate | repeat constructor].
  - destruct neg; (split; [discriminate | repeat constructor]).
  - destruct (format_6f_finite neg m e) as (ip & fp & -> & Hne & Hip & _ & Hfp & _).
    split.
    + destruct neg; [discriminate|]. destruct ip; [congruence | discriminate].
    + rewrite !Forall_app. repeat split.
      * destruct neg; repeat constructor.
      * eapply Forall_impl; [|exact Hip]. apply is_digit_graph.
      * repeat constructor.
      * eapply Forall_impl; [|exact Hfp]. apply is_digit_graph.
Qed.

Lemma graph_print (s : str) :
  Forall (fun c => is_graph c = true) s -> Forall (fun c => is_print c = true) s.
Proof. apply Forall_impl. apply is_graph_print. Qed.

Lemma pcd_point_content_print (p : point) :
  Forall (fun c => is_print c = true) (pcd_point_content p).
Proof.
  destruct p as [[x y] z]. unfold pcd_point_content.
  rewrite !Forall_app. repeat split;
    try (apply graph_print; apply format_6f_graph); repeat constructor.
Qed.

Lemma print_check (s : str) :
  forallb is_print s = true -> Forall (fun c => is_print c = true) s.
Proof. intros H. apply Forall_forall. apply forallb_forall. exact H. Qed.

Lemma pcd_header_contents_print (n : N) :
  Forall (Forall (fun c => is_print c = true)) (pcd_header_contents n).
Proof.
  destruct (str_of_N_digits n) as (_ & Hds & _).
  assert (Hp : Forall (fun c => is_print c = true) (str_of_N n)).
  { apply graph_print. eapply Forall_impl; [|exact Hds]. apply is_digit_graph. }
  unfold pcd_header_contents.
  repeat (apply Forall_cons;
          [ first [ apply print_check; vm_compute; reflexivity
                  | apply Forall_app; split;
                    [apply print_check; vm_compute; reflexivity | exact Hp] ]
          | ]).
  apply Forall_nil.
Qed.

(** The written text, line by line. *)
Lemma write_pcd_text_lines (pts : list point) :
  write_pcd_text pts
  = List.concat (map with_nl (pcd_header_contents (N.of_nat (List.length pts))
                              ++ map pcd_point_content pts)).
Proof.
  unfold write_pcd_text. rewrite map_app, concat_app. f_equal.
  - unfold pcd_header_text, pcd_header_contents, with_nl.
    cbn [map List.concat]. rewrite <- !app_assoc, app_nil_r. reflexivity.
  - induction pts as [|[[x y] z] r IH]; [reflexivity|].
    cbn [flat_map map List.concat]. rewrite IH.
    unfold pcd_point_text, pcd_point_content, with_nl.
    rewrite <- !app_assoc. reflexivity.
Qed.

Lemma write_pcd_contents_print (pts : list point) :
  Forall (Forall (fun c => is_print c = true))
         (pcd_header_contents (N.of_nat (List.length pts))
          ++ map pcd_point_content pts).
Proof.
  apply Forall_app. split; [apply pcd_header_contents_print|].
  apply Forall_map. apply Forall_forall. intros p _.
  apply pcd_point_content_print.
Qed.

Lemma write_pcd_readlines (pts : list point) :
  text_readlines (write_pcd pts)
  = Val (map with_nl (pcd_header_contents (N.of_nat (List.length pts))
                      ++ map pcd_point_content pts)).
Proof.
  unfold write_pcd. rewrite write_pcd_text_lines.
  apply text_readlines_lines. apply write_pcd_contents_print.
Qed.

(** C8 (as amended).  For [N] points [write_pcd] writes an eleven-line
    header, the comment line [# .PCD v0.7 - Point Cloud Data file format]
    and the ten lines VERSION 0.7, FIELDS x y z, SIZE 4 4 4, TYPE F F F,
    COUNT 1 1 1, WIDTH N, HEIGHT 1, VIEWPOINT 0 0 0 1 0 0 0, POINTS N and
    DATA ascii, and then exactly [N] lines, one a point, each holding the
    three coordinates in the [.6f] format separated by single spaces; a
    finite coordinate is written as an optional minus sign, the digits
    of the integer part, a point and six decimals, correctly rounded. *)
Theorem write_pcd_layout (pts : list point) :
  text_readlines (write_pcd pts)
  = Val (map with_nl
           ([lit "# .PCD v0.7 - Point Cloud Data file format";
             lit "VERSION 0.7";
             lit "FIELDS x y z";
             lit "SIZE 4 4 4";
             lit "TYPE F F F";
             lit "COUNT 1 1 1";
             lit "WIDTH " ++ str_of_N (N.of_nat (List.length pts));
             lit "HEIGHT 1";
             lit "VIEWPOINT 0 0 0 1 0 0 0";
             lit "POINTS " ++ str_of_N (N.of_nat (List.length pts));
             lit "DATA ascii"]
            ++ map (fun p : point =>
                      let '(x, y, z) := p in
                      format_6f x ++ lit " " ++ format_6f y ++ lit " " ++ format_6f z)
                   pts))
  /\ digits_value (str_of_N (N.of_nat (List.length pts))) 0
     = N.of_nat (List.length pts)
  /\ forall (neg : bool) (m : N) (e : Z),
       exists ip fp,
         format_6f (Fin neg m e)
         = (if neg then lit "-" else []) ++ ip ++ lit "." ++ fp
         /\ ip <> []
         /\ Forall (fun c => is_digit c = true) ip
         /\ List.length fp = 6
         /\ Forall (fun c => is_digit c = true) fp
         /\ (digits_value ip 0 * 1000000 + digits_value fp 0)%N = micro m e.
Proof.
  split; [|split].
  - apply write_pcd_readlines.
  - apply str_of_N_digits.
  - apply format_6f_finite.
Qed.

(** C8 (counterexample).  The header written for no point at all has
    eleven lines, not nine, and starts with a comment line. *)
Lemma write_pcd_header_eleven_lines :
  text_readlines (write_pcd [])
  = Val (map with_nl
           [lit "# .PCD v0.7 - Point Cloud Data file format";
            lit "VERSION 0.7"; lit "FIELDS x y z"; lit "SIZE 4 4 4";
            lit "TYPE F F F"; lit "COUNT 1 1 1"; lit "WIDTH 0"; lit "HEIGHT 1";
            lit "VIEWPOINT 0 0 0 1 0 0 0"; lit "POINTS 0"; lit "DATA ascii"])
  /\ List.length (text_lines_of (write_pcd [])) = 11
  /\ List.length (text_lines_of (write_pcd [])) <> 9 + 0.
Proof.
  split; [vm_compute; reflexivity|].
  split; [vm_compute; reflexivity | vm_compute; discriminate].
Qed.

(** *** Words, [split] and [strip] *)

Lemma split_aux_word (t rest cur : str) :
  Forall (fun c => is_graph c = true) t ->
  split_aux (t ++ rest) cur = split_aux rest (cur ++ t).
Proof.
  intros H. revert cur. induction H as [|c r Hc _ IH]; intros cur.
  - rewrite app_nil_r. reflexivity.
  - cbn [app split_aux]. rewrite (is_graph_not_space _ Hc).
    rewrite IH, <- app_assoc. reflexivity.
Qed.

(** [split] undoes [join_sp]. *)
Lemma split_join_sp (toks : list str) :
  Forall is_word toks -> split (join_sp toks) = toks.
Proof.
  unfold split. induction 1 as [|t r [Hne Ht] Hr IH]; [reflexivity|].
  destruct r as [|t' r'].
  - cbn [join_sp]. rewrite <- (app_nil_r t) at 1.
    rewrite split_aux_word by assumption. cbn [app split_aux].
    destruct t; [congruence | reflexivity].
  - change (join_sp (t :: t' :: r')) with (t ++ 32%N :: join_sp (t' :: r')).
    rewrite split_aux_word by assumption. cbn [app split_aux].
    change (isspace 32) with true. cbv iota.
    rewrite IH. destruct t; [congruence | reflexivity].
Qed.

Lemma lstrip_head (c : N) (s : str) :
  isspace c = false -> lstrip (c :: s) = c :: s.
Proof. intros H. cbn [lstrip]. rewrite H. reflexivity. Qed.

(** A text that starts and ends with a character other than a space
    is what [strip] leaves of it, with or without a line feed. *)
Lemma strip_trimmed (s : str) (c c' : N) (r r' : str) :
  s = c :: r -> isspace c = false ->
  rev s = c' :: r' -> isspace c' = false ->
  strip s = s /\ strip (with_nl s) = s.
Proof.
  intros Hs Hc Hrev Hc'. unfold strip, rstrip, with_nl, nl. split.
  - rewrite Hs at 1. rewrite lstrip_head by assumption. rewrite <- Hs.
    rewrite Hrev, lstrip_head by assumption. rewrite <- Hrev. apply rev_involutive.
  - rewrite Hs at 1. cbn [app]. rewrite lstrip_head by assumption.
    change (c :: r ++ [10%N]) with ((c :: r) ++ [10%N]). rewrite <- Hs.
    rewrite rev_app_distr. cbn [rev app lstrip].
    change (isspace 10) with true. cbv iota.
    rewrite Hrev, lstrip_head by assumption. rewrite <- Hrev. apply rev_involutive.
Qed.

Lemma word_head (t : str) :
  is_word t -> exists c r, t = c :: r /\ isspace c = false.
Proof.
  intros [Hne Ht]. destruct Ht as [|c r Hc _]; [congruence|].
  exists c, r. split; [reflexivity | apply is_graph_not_space; assumption].
Qed.

Lemma word_last (t : str) :
  is_word t -> exists c r, rev t = c :: r /\ isspace c = false.
Proof.
  intros [Hne Ht]. apply Forall_rev in Ht.
  destruct (rev t) as [|c r] eqn:E.
  - apply (f_equal (@rev N)) in E. rewrite rev_involutive in E. simpl in E.
    congruence.
  - inversion Ht. exists c, r. split; [reflexivity|].
    apply is_graph_not_space; assumption.
Qed.

Lemma join_sp_head (toks : list str) :
  toks <> [] -> Forall is_word toks ->
  exists c r, join_sp toks = c :: r /\ isspace c = false.
Proof.
  intros Hne H. destruct H as [|t r Ht Hr]; [congruence|].
  destruct (word_head Ht) as (c & s & -> & Hc).
  destruct r; cbn [join_sp app]; eauto.
Qed.

Lemma join_sp_last (toks : list str) :
  toks <> [] -> Forall is_word toks ->
  exists c r, rev (join_sp toks) = c :: r /\ isspace c = false.
Proof.
  intros Hne H. induction H as [|t r Ht Hr IH]; [congruence|].
  destruct r as [|t' r'].
  - cbn [join_sp]. apply word_last. assumption.
  - change (join_sp (t :: t' :: r')) with (t ++ 32%N :: join_sp (t' :: r')).
    destruct IH as (c & s & Hs & Hc); [discriminate|].
    rewrite rev_app_distr. cbn [rev]. rewrite Hs. cbn [app]. eauto.
Qed.

(** A line of words is its own [strip], with or without its line feed. *)
Lemma strip_join_sp (toks : list str) :
  toks <> [] -> Forall is_word toks ->
  strip (join_sp toks) = join_sp toks
  /\ strip (with_nl (join_sp toks)) = join_sp toks.
Proof.
  intros Hne H.
  destruct (join_sp_head Hne H) as (c & r & Hs & Hc).
  destruct (join_sp_last Hne H) as (c' & r' & Hs' & Hc').
  eapply strip_trimmed; eassumption.
Qed.

Lemma strip_word (t : str) : is_word t -> strip t = t.
Proof.
  intros Ht.
  assert (H1 : Forall is_word [t]) by (constructor; [assumption | constructor]).
  apply (strip_join_sp (toks := [t])); [discriminate | assumption].
Qed.

Lemma digits_word (ds : str) :
  ds <> [] -> Forall (fun c => is_digit c = true) ds -> is_word ds.
Proof.
  intros Hne H. split; [assumption|].
  eapply Forall_impl; [|exact H]. apply is_digit_graph.
Qed.

Lemma str_of_N_word (n : N) : is_word (str_of_N n).
Proof. destruct (str_of_N_digits n) as (Hne & Hds & _). apply digits_word; assumption. Qed.

Lemma format_6f_word (x : float) : is_word (format_6f x).
Proof. apply format_6f_graph. Qed.

Lemma word_check (t : str) :
  match t with [] => false | _ => forallb is_graph t end = true -> is_word t.
Proof.
  intros H. destruct t as [|c r]; [discriminate|].
  split; [discriminate|]. apply Forall_forall. apply forallb_forall. exact H.
Qed.

(** [int] reads back what [str] wrote. *)
Lemma int_str_of_N (n : N) : int (str_of_N n) = Val (Z.of_N n).
Proof.
  unfold int, int_of_str. rewrite strip_word by apply str_of_N_word.
  pose proof (digitpart_str_of_N n) as Hd.
  destruct (str_of_N_digits n) as (Hne & Hds & _).
  destruct (str_of_N n) as [|c r]; [congruence|].
  inversion Hds as [|? ? Hc _]. subst. apply is_digit_range in Hc.
  destruct (N.eqb_spec c 45); [lia|].
  destruct (N.eqb_spec c 43); [lia|].
  rewrite Hd. reflexivity.
Qed.

(** *** float() on the [.6f] format *)

Lemma break_at_none (p : N -> bool) (s : str) :
  Forall (fun c => p c = false) s -> break_at p s = (s, None).
Proof.
  induction 1 as [|c r Hc _ IH]; [reflexivity|].
  cbn [break_at]. rewrite Hc, IH. reflexivity.
Qed.

Lemma break_at_first (p : N -> bool) (a : str) (c : N) (b : str) :
  Forall (fun x => p x = false) a -> p c = true ->
  break_at p (a ++ c :: b) = (a, Some b).
Proof.
  intros Ha Hc. induction Ha as [|x r Hx _ IH].
  - cbn [app break_at]. rewrite Hc. reflexivity.
  - cbn [app break_at]. rewrite Hx, IH. reflexivity.
Qed.

Lemma digit_not_e (c : N) :
  is_digit c = true -> (lower_ascii c =? 101)%N = false.
Proof.
  intros H. apply is_digit_range in H. unfold lower_ascii.
  destruct (N.leb_spec 65 c); cbn [andb]; [lia|].
  apply N.eqb_neq. lia.
Qed.

Lemma digit_not_point (c : N) : is_digit c = true -> (46 =? c)%N = false.
Proof. intros H. apply is_digit_range in H. apply N.eqb_neq. lia. Qed.

(** The digits of an integer part and of six decimals, read as a
    number. *)
Lemma parse_number_fixed (ip fp : str) :
  ip <> [] -> Forall (fun c => is_digit c = true) ip ->
  fp <> [] -> Forall (fun c => is_digit c = true) fp ->
  parse_number (ip ++ lit "." ++ fp)
  = Some ((digits_value ip 0 * 10 ^ N.of_nat (List.length fp)
           + digits_value fp 0)%N, List.length fp).
Proof.
  intros Hi Hip Hf Hfp. unfold parse_number.
  change (lit "." ++ fp) with (46%N :: fp).
  rewrite break_at_first;
    [| eapply Forall_impl; [|exact Hip]; apply digit_not_point | reflexivity].
  rewrite (digitpart_digits Hi Hip), (digitpart_digits Hf Hfp).
  destruct ip as [|i ip']; [congruence|].
  destruct fp as [|f fp']; [congruence|].
  reflexivity.
Qed.

Lemma parse_floatnumber_fixed (neg : bool) (ip fp : str) :
  ip <> [] -> Forall (fun c => is_digit c = true) ip ->
  List.length fp = 6 -> Forall (fun c => is_digit c = true) fp ->
  parse_floatnumber neg (ip ++ lit "." ++ fp)
  = Some (round_ratio neg (digits_value ip 0 * 1000000 + digits_value fp 0)
                      1000000).
Proof.
  intros Hi Hip Hf Hfp. unfold parse_floatnumber.
  rewrite break_at_none.
  - rewrite parse_number_fixed; try assumption.
    + rewrite Hf. reflexivity.
    + destruct fp; [discriminate | discriminate].
  - rewrite !Forall_app. repeat split.
    + eapply Forall_impl; [|exact Hip]. apply digit_not_e.
    + repeat constructor.
    + eapply Forall_impl; [|exact Hfp]. apply digit_not_e.
Qed.

(** A text that starts with a digit is none of the words [inf],
    [infinity] and [nan], and bears no sign. *)
Lemma float_of_str_number (neg : bool) (d : N) (r : str) :
  is_digit d = true ->
  is_word ((if neg then lit "-" else []) ++ d :: r) ->
  float_of_str ((if neg then lit "-" else []) ++ d :: r)
  = parse_floatnumber neg (d :: r).
Proof.
  intros Hd Hw. unfold float_of_str. rewrite (strip_word Hw).
  assert (Hl : lower_ascii d = d).
  { apply is_digit_range in Hd. unfold lower_ascii.
    destruct (N.leb_spec 65 d); [lia | reflexivity]. }
  assert (Hwords : str_eqb (map lower_ascii (d :: r)) (lit "inf")
                   || str_eqb (map lower_ascii (d :: r)) (lit "infinity") = false
                   /\ str_eqb (map lower_ascii (d :: r)) (lit "nan") = false).
  { cbn [map]. rewrite Hl.
    change (lit "inf") with (105 :: lit "nf")%N.
    change (lit "infinity") with (105 :: lit "nfinity")%N.
    change (lit "nan") with (110 :: lit "an")%N.
    cbn [str_eqb]. apply is_digit_range in Hd.
    destruct (N.eqb_spec d 105); [lia|].
    destruct (N.eqb_spec d 110); [lia|].
    split; reflexivity. }
  destruct Hwords as [Hw1 Hw2].
  destruct neg.
  - change (lit "-" ++ d :: r) with (45 :: d :: r)%N. cbv iota beta.
    change (45 =? 45)%N with true. cbv iota.
    rewrite Hw1, Hw2. reflexivity.
  - cbn [app]. apply is_digit_range in Hd.
    destruct (N.eqb_spec d 45); [lia|].
    destruct (N.eqb_spec d 43); [lia|].
    rewrite Hw1, Hw2. reflexivity.
Qed.

(** [float()] reads the [.6f] text of a float as [reread] says. *)
Lemma float_of_str_format_6f (x : float) :
  float_of_str (format_6f x) = Some (reread x).
Proof.
  destruct x as [|neg|neg m e].
  - vm_compute. reflexivity.
  - destruct neg; vm_compute; reflexivity.
  - pose proof (format_6f_word (Fin neg m e)) as Hw.
    destruct (format_6f_finite neg m e)
      as (ip & fp & Heq & Hne & Hip & Hlen & Hfp & Hval).
    rewrite Heq in *.
    destruct ip as [|d ip']; [congruence|].
    inversion Hip as [|? ? Hd Hip']. subst.
    change ((d :: ip') ++ lit "." ++ fp) with (d :: (ip' ++ lit "." ++ fp)) in *.
    rewrite (@float_of_str_number neg d (ip' ++ lit "." ++ fp) Hd Hw).
    change (d :: ip' ++ lit "." ++ fp) with ((d :: ip') ++ lit "." ++ fp).
    rewrite parse_floatnumber_fixed; try assumption.
    unfold reread. rewrite Hval. reflexivity.
Qed.

(** *** The header loop of read_pcd on a written file *)

Lemma while_true_continue {S} (body : S -> step S) (n : nat) (s s' : S) :
  body s = Continue s' -> while_true body (Datatypes.S n) s = while_true body n s'.
Proof. intros H. cbn [while_true]. rewrite H. reflexivity. Qed.

Lemma while_true_break {S} (body : S -> step S) (n : nat) (s s' : S) :
  body s = Break s' -> while_true body (Datatypes.S n) s = Ok s'.
Proof. intros H. cbn [while_true]. rewrite H. reflexivity. Qed.

(** A round on a printable line: the line is read, decoded and handed
    to the keyword match. *)
Lemma pcd_header_body_line (content : str) (rest : bytes) (h : header_info)
      (lines : list str) :
  Forall (fun c => is_print c = true) content ->
  pcd_header_body {| pcd_f := map byte_of_N (with_nl content) ++ rest;
                     pcd_info := h; pcd_lines := lines |}
  = pcd_header_keyword (strip (with_nl content)) rest
      {| pcd_f := map byte_of_N (with_nl content) ++ rest;
         pcd_info := h; pcd_lines := lines |}.
Proof.
  intros Hp. unfold pcd_header_body. cbn [pcd_f].
  rewrite readline_line by assumption.
  rewrite utf8_decode_ascii; [reflexivity|].
  unfold with_nl. apply Forall_app. split.
  - apply print_ascii. assumption.
  - repeat constructor.
Qed.

Lemma keyword_line_number (kw : str) (n : N) :
  is_word kw ->
  strip (with_nl (kw ++ 32%N :: str_of_N n)) = kw ++ 32%N :: str_of_N n
  /\ split (kw ++ 32%N :: str_of_N n) = [kw; str_of_N n].
Proof.
  intros Hkw.
  assert (Hw : Forall is_word [kw; str_of_N n]).
  { repeat constructor; try apply Hkw; apply str_of_N_word. }
  split.
  - apply (strip_join_sp (toks := [kw; str_of_N n])); [discriminate | exact Hw].
  - apply (split_join_sp Hw).
Qed.

Lemma keyword_WIDTH (n : N) (rest : bytes) (st : pcd_scan) :
  pcd_header_keyword (strip (with_nl (lit "WIDTH " ++ str_of_N n))) rest st
  = Continue {| pcd_f := rest; pcd_info := set_width (Z.of_N n) (pcd_info st);
                pcd_lines := pcd_lines st ++ [lit "WIDTH " ++ str_of_N n] |}.
Proof.
  assert (Hkw : is_word (lit "WIDTH")) by (apply word_check; reflexivity).
  destruct (keyword_line_number n Hkw) as [Hstrip Hsplit].
  change (lit "WIDTH" ++ 32%N :: str_of_N n) with (lit "WIDTH " ++ str_of_N n) in *.
  rewrite Hstrip. unfold pcd_header_keyword, word1.
  rewrite Hsplit. cbn [nth_error of_option bind].
  rewrite int_str_of_N. reflexivity.
Qed.

Lemma keyword_POINTS (n : N) (rest : bytes) (st : pcd_scan) :
  pcd_header_keyword (strip (with_nl (lit "POINTS " ++ str_of_N n))) rest st
  = Continue {| pcd_f := rest; pcd_info := set_points (Z.of_N n) (pcd_info st);
                pcd_lines := pcd_lines st ++ [lit "POINTS " ++ str_of_N n] |}.
Proof.
  assert (Hkw : is_word (lit "POINTS")) by (apply word_check; reflexivity).
  destruct (keyword_line_number n Hkw) as [Hstrip Hsplit].
  change (lit "POINTS" ++ 32%N :: str_of_N n) with (lit "POINTS " ++ str_of_N n) in *.
  rewrite Hstrip. unfold pcd_header_keyword, word1.
  rewrite Hsplit. cbn [nth_error of_option bind].
  rewrite int_str_of_N. reflexivity.
Qed.

Lemma lines_bytes_cons (c : str) (cs : list str) :
  lines_bytes (c :: cs) = map byte_of_N (with_nl c) ++ lines_bytes cs.
Proof. unfold lines_bytes. cbn [map List.concat]. apply map_app. Qed.

Lemma write_pcd_bytes (pts : list point) :
  write_pcd pts
  = lines_bytes (pcd_header_contents (N.of_nat (List.length pts))
                 ++ map pcd_point_content pts).
Proof.
  unfold write_pcd, lines_bytes. rewrite write_pcd_text_lines.
  apply utf8_encode_ascii.
  eapply Forall_impl; [|apply concat_lines_print; apply write_pcd_contents_print].
  intros c [Hc| ->]; [apply is_print_range in Hc|]; lia.
Qed.

Ltac header_round :=
  erewrite while_true_continue;
  [| rewrite pcd_header_body_line by (apply print_check; vm_compute; reflexivity);
     reflexivity ].

(** The header loop of [read_pcd] on a file written by [write_pcd]: it
    ends on the DATA line, having read the eleven header lines. *)
Lemma write_pcd_header (pts : list point) :
  pcd_read_header (write_pcd pts)
  = Ok {| pcd_f := lines_bytes (map pcd_point_content pts);
          pcd_info := written_header_info (N.of_nat (List.length pts));
          pcd_lines := pcd_header_contents (N.of_nat (List.length pts)) |}.
Proof.
  set (n := N.of_nat (List.length pts)).
  assert (Hp : Forall (fun c => is_print c = true) (str_of_N n)).
  { apply graph_print. apply str_of_N_word. }
  assert (H11 : while_true pcd_header_body 11 (pcd_scan_init (write_pcd pts))
                = Ok {| pcd_f := lines_bytes (map pcd_point_content pts);
                        pcd_info := written_header_info n;
                        pcd_lines := pcd_header_contents n |}).
  { rewrite write_pcd_bytes. fold n. unfold pcd_header_contents, pcd_scan_init.
    cbn [app]. rewrite !lines_bytes_cons.
    do 6 header_round.
    erewrite while_true_continue;
      [| rewrite pcd_header_body_line
           by (apply Forall_app; split;
               [apply print_check; vm_compute; reflexivity | exact Hp]);
         apply keyword_WIDTH ].
    do 2 header_round.
    erewrite while_true_continue;
      [| rewrite pcd_header_body_line
           by (apply Forall_app; split;
               [apply print_check; vm_compute; reflexivity | exact Hp]);
         apply keyword_POINTS ].
    erewrite while_true_break;
      [| rewrite pcd_header_body_line by (apply print_check; vm_compute; reflexivity);
         reflexivity ].
    reflexivity. }
  rewrite (pcd_header_fuel 11); [exact H11|].
  rewrite H11. discriminate.
Qed.

(** *** Reading back a written file *)

Lemma write_pcd_ascii_header (pts : list point) :
  pcd_ascii_header (write_pcd pts)
                   (written_header_info (N.of_nat (List.length pts))).
Proof.
  eexists. split; [apply write_pcd_header|]. split; reflexivity.
Qed.

Lemma content_not_data (kw : str) (n : N) (c : N) (s : str) :
  is_word kw -> kw = c :: s -> (68 =? c)%N = false ->
  startswith (strip (with_nl (kw ++ 32%N :: str_of_N n))) (lit "DATA") = false.
Proof.
  intros Hkw -> Hc.
  destruct (keyword_line_number n Hkw) as [-> _].
  change (lit "DATA") with (68 :: lit "ATA")%N.
  cbn [app startswith]. rewrite Hc. reflexivity.
Qed.

(** The payload lines of a written file are the lines of its points. *)
Lemma write_pcd_payload_lines (pts : list point) :
  payload_lines (map with_nl (pcd_header_contents (N.of_nat (List.length pts))
                              ++ map pcd_point_content pts))
  = map with_nl (map pcd_point_content pts).
Proof.
  set (n := N.of_nat (List.length pts)).
  assert (HW : startswith (strip (with_nl (lit "WIDTH " ++ str_of_N n))) (lit "DATA")
               = false).
  { apply (@content_not_data (lit "WIDTH") n 87%N (lit "IDTH"));
      [apply word_check; reflexivity | reflexivity | reflexivity]. }
  assert (HP : startswith (strip (with_nl (lit "POINTS " ++ str_of_N n))) (lit "DATA")
               = false).
  { apply (@content_not_data (lit "POINTS") n 80%N (lit "OINTS"));
      [apply word_check; reflexivity | reflexivity | reflexivity]. }
  unfold payload_lines, pcd_header_contents.
  cbn [app map after_data_marker].
  change (startswith (strip (with_nl (lit "# .PCD v0.7 - Point Cloud Data file format")))
                     (lit "DATA")) with false.
  change (startswith (strip (with_nl (lit "VERSION 0.7"))) (lit "DATA")) with false.
  change (startswith (strip (with_nl (lit "FIELDS x y z"))) (lit "DATA")) with false.
  change (startswith (strip (with_nl (lit "SIZE 4 4 4"))) (lit "DATA")) with false.
  change (startswith (strip (with_nl (lit "TYPE F F F"))) (lit "DATA")) with false.
  change (startswith (strip (with_nl (lit "COUNT 1 1 1"))) (lit "DATA")) with false.
  change (startswith (strip (with_nl (lit "HEIGHT 1"))) (lit "DATA")) with false.
  change (startswith (strip (with_nl (lit "VIEWPOINT 0 0 0 1 0 0 0"))) (lit "DATA"))
    with false.
  change (startswith (strip (with_nl (lit "DATA ascii"))) (lit "DATA")) with true.
  cbv iota. rewrite HW, HP. reflexivity.
Qed.

Lemma point_line_words (p : point) :
  strip (with_nl (pcd_point_content p)) = pcd_point_content p
  /\ split (pcd_point_content p)
     = [format_6f (fst (fst p)); format_6f (snd (fst p)); format_6f (snd p)].
Proof.
  destruct p as [[x y] z]. cbn [fst snd].
  assert (Hw : Forall is_word [format_6f x; format_6f y; format_6f z])
    by (repeat constructor; apply format_6f_word).
  change (pcd_point_content (x, y, z))
    with (join_sp [format_6f x; format_6f y; format_6f z]).
  split.
  - apply strip_join_sp; [discriminate | exact Hw].
  - apply split_join_sp. exact Hw.
Qed.

(** The line of a point is read as the point of the re-read
    coordinates. *)
Lemma point_line_reread (p : point) :
  values_are_floats (with_nl (pcd_point_content p))
  /\ point_of_line (with_nl (pcd_point_content p)) = [reread_point p].
Proof.
  destruct (point_line_words p) as [Hstrip Hsplit].
  unfold values_are_floats, point_of_line. rewrite Hstrip, Hsplit.
  destruct p as [[x y] z]. cbn [fst snd]. split.
  - repeat constructor; rewrite float_of_str_format_6f; discriminate.
  - rewrite !float_of_str_format_6f. reflexivity.
Qed.

(** Reading a written file yields the re-read points, in their order. *)
Lemma read_write_pcd (pts : list point) :
  read_pcd (write_pcd pts) = Ok (map reread_point pts).
Proof.
  rewrite (read_pcd_ascii_run (write_pcd_ascii_header pts) (write_pcd_readlines pts)).
  rewrite write_pcd_payload_lines.
  rewrite pcd_ascii_loop_points.
  - cbn [app finish]. f_equal.
    induction pts as [|p r IH]; [reflexivity|].
    cbn [map flat_map]. rewrite IH.
    destruct (point_line_reread p) as [_ ->]. reflexivity.
  - apply Forall_map. apply Forall_map. apply Forall_forall. intros p _.
    apply point_line_reread.
Qed.


(** *** Powers of two and rounding, in the rationals *)

Lemma pow2_pos (e : Z) : (0 < pow2 e)%Q.
Proof. apply Qpower_0_lt. reflexivity. Qed.

Lemma pow2_add (a b : Z) : (pow2 (a + b) == pow2 a * pow2 b)%Q.
Proof. apply Qpower_plus. discriminate. Qed.

Lemma pow2_Z (e : Z) : (0 <= e)%Z -> (pow2 e == inject_Z (2 ^ e))%Q.
Proof. intros He. symmetry. apply (Zpower_Qpower 2 e He). Qed.

Lemma pow2_le (a b : Z) : (a <= b)%Z -> (pow2 a <= pow2 b)%Q.
Proof. intros H. apply Qpower_le_compat_l; [assumption | discriminate]. Qed.

Lemma pow2_lt (a b : Z) : (a < b)%Z -> (pow2 a < pow2 b)%Q.
Proof. intros H. apply Qpower_lt_compat_l; [assumption | reflexivity]. Qed.

Lemma pow2_lt_inv (a b : Z) : (pow2 a < pow2 b)%Q -> (a < b)%Z.
Proof. intros H. apply (Qpower_lt_compat_l_inv _ _ _ H). reflexivity. Qed.

Lemma pow2_opp (e : Z) : (pow2 (- e) == / pow2 e)%Q.
Proof. apply Qpower_opp. Qed.

Lemma pow2_sub (a b : Z) : (pow2 (a - b) * pow2 b == pow2 a)%Q.
Proof. rewrite <- pow2_add. replace (a - b + b)%Z with a by lia. reflexivity. Qed.

Lemma Qabs_inject_Z (z : Z) : (Qabs (inject_Z z) == inject_Z (Z.abs z))%Q.
Proof. symmetry. apply (Zabs_Qabs z 1). Qed.

(** [rne_div a b] is an integer nearest to [a / b], at most half a unit
    away. *)
Lemma rne_div_spec (a b : N) :
  (0 < b)%N ->
  (2 * Z.abs (Z.of_N b * Z.of_N (rne_div a b) - Z.of_N a) <= Z.of_N b)%Z
  /\ forall K : Z,
      (Z.abs (Z.of_N b * Z.of_N (rne_div a b) - Z.of_N a)
       <= Z.abs (Z.of_N b * K - Z.of_N a))%Z.
Proof.
  intros Hb. unfold rne_div.
  pose proof (N.div_mod a b ltac:(lia)) as Hdm.
  pose proof (N.mod_upper_bound a b ltac:(lia)) as Hub.
  set (q := (a / b)%N) in *. set (r := (a mod b)%N) in *. clearbody q r.
  assert (HK : forall K : Z,
             (Z.of_N b * K <= Z.of_N b * Z.of_N q
              \/ Z.of_N b * Z.of_N q + Z.of_N b <= Z.of_N b * K)%Z).
  { intros K. destruct (Z_le_gt_dec K (Z.of_N q)); [left | right]; nia. }
  assert (Ha : Z.of_N a = (Z.of_N b * Z.of_N q + Z.of_N r)%Z) by lia.
  destruct (N.compare_spec (2 * r) b) as [He|Hl|Hg];
    [destruct (N.even q)| |];
    (split; [| intros K; destruct (HK K)]);
    rewrite ?N2Z.inj_add, ?Z.mul_add_distr_l; change (Z.of_N 1) with 1%Z;
    set (bq := (Z.of_N b * Z.of_N q)%Z) in *; clearbody bq; lia.
Qed.

Lemma abs_div_le (z1 z2 : Z) (c : Q) :
  (0 < c)%Q -> (Z.abs z1 <= Z.abs z2)%Z ->
  (Qabs (inject_Z z1 / c) <= Qabs (inject_Z z2 / c))%Q.
Proof.
  intros Hc H. unfold Qdiv. rewrite !Qabs_Qmult.
  apply Qmult_le_compat_r; [|apply Qabs_nonneg].
  rewrite !Qabs_inject_Z, <- Zle_Qle. assumption.
Qed.

Lemma NQ_pos (n : N) : (0 < n)%N -> (0 < NQ n)%Q.
Proof. intros H. unfold NQ. change 0%Q with (inject_Z 0). rewrite <- Zlt_Qlt. lia. Qed.

Lemma NQ_nonneg (n : N) : (0 <= NQ n)%Q.
Proof. unfold NQ. change 0%Q with (inject_Z 0). rewrite <- Zle_Qle. lia. Qed.

Lemma NQ_mul (a b : N) : (NQ (a * b) == NQ a * NQ b)%Q.
Proof. unfold NQ. rewrite N2Z.inj_mul, inject_Z_mult. reflexivity. Qed.

Lemma NQ_pow2 (e : Z) : (0 <= e)%Z -> (NQ (2 ^ Z.to_N e) == pow2 e)%Q.
Proof.
  intros He. unfold NQ. rewrite N2Z.inj_pow, Z2N.id by assumption.
  symmetry. apply pow2_Z. assumption.
Qed.

Lemma rne_div_nearest (a b : N) (K : Z) :
  (0 < b)%N ->
  (Qabs (NQ (rne_div a b) - NQ a / NQ b) <= Qabs (inject_Z K - NQ a / NQ b))%Q.
Proof.
  intros Hb. pose proof (NQ_pos Hb) as Hbq.
  destruct (rne_div_spec a Hb) as [_ Hn]. specialize (Hn K).
  assert (E : forall x : Z,
             (inject_Z x - NQ a / NQ b
              == inject_Z (Z.of_N b * x - Z.of_N a) / NQ b)%Q).
  { intros x. unfold Zminus. rewrite inject_Z_plus, inject_Z_mult, inject_Z_opp.
    fold (NQ a) (NQ b). field. lra. }
  unfold NQ at 1. rewrite !E. apply abs_div_le; assumption.
Qed.

Lemma rne_div_half (a b : N) :
  (0 < b)%N -> (Qabs (NQ (rne_div a b) - NQ a / NQ b) <= 1 # 2)%Q.
Proof.
  intros Hb. pose proof (NQ_pos Hb) as Hbq.
  destruct (rne_div_spec a Hb) as [Hh _].
  assert (E : (NQ (rne_div a b) - NQ a / NQ b
               == inject_Z (Z.of_N b * Z.of_N (rne_div a b) - Z.of_N a) / NQ b)%Q).
  { unfold Zminus. rewrite inject_Z_plus, inject_Z_mult, inject_Z_opp.
    fold (NQ a) (NQ b) (NQ (rne_div a b)). field. lra. }
  rewrite E. unfold Qdiv. rewrite Qabs_Qmult, Qabs_inject_Z.
  rewrite (Qabs_pos (/ NQ b)) by (apply Qlt_le_weak, Qinv_lt_0_compat; assumption).
  apply Qle_shift_div_r; [assumption|].
  apply (Qmult_le_l _ _ 2); [reflexivity|].
  setoid_replace (2 * ((1 # 2) * NQ b))%Q with (NQ b) by field.
  change 2%Q with (inject_Z 2). rewrite <- inject_Z_mult. unfold NQ.
  rewrite <- Zle_Qle. assumption.
Qed.

Lemma NQ_Npos (p : positive) : NQ (Npos p) = inject_Z (Zpos p).
Proof. reflexivity. Qed.

(** [floor_log2_ratio p q] is the integer part of the binary logarithm
    of [p / q]. *)
Lemma floor_log2_ratio_spec (p q : positive) :
  (pow2 (floor_log2_ratio p q) * NQ (Npos q) <= NQ (Npos p)
   /\ NQ (Npos p) < pow2 (floor_log2_ratio p q + 1) * NQ (Npos q))%Q.
Proof.
  rewrite !NQ_Npos. unfold floor_log2_ratio.
  destruct (Z.log2_spec (Zpos p) ltac:(lia)) as [Hp1 Hp2].
  destruct (Z.log2_spec (Zpos q) ltac:(lia)) as [Hq1 Hq2].
  pose proof (Z.log2_nonneg (Zpos p)) as Hlp.
  pose proof (Z.log2_nonneg (Zpos q)) as Hlq.
  set (lp := Z.log2 (Zpos p)) in *. set (lq := Z.log2 (Zpos q)) in *.
  rewrite Zle_Qle in Hp1, Hq1. rewrite Zlt_Qlt in Hp2, Hq2.
  rewrite <- pow2_Z in Hp1, Hq1, Hp2, Hq2 by lia.
  unfold Z.succ in *.
  set (P := inject_Z (Zpos p)) in *. set (R := inject_Z (Zpos q)) in *.
  assert (HR : (0 < R)%Q) by (unfold R; change 0%Q with (inject_Z 0);
                               rewrite <- Zlt_Qlt; lia).
  set (d := (lp - lq)%Z).
  (* the coarse bounds *)
  assert (E1 : (pow2 (lp + 1) == pow2 (d + 1) * pow2 lq)%Q).
  { rewrite <- pow2_add. replace (d + 1 + lq)%Z with (lp + 1)%Z by (unfold d; lia).
    reflexivity. }
  assert (E2 : (pow2 lp == pow2 (d - 1) * pow2 (lq + 1))%Q).
  { rewrite <- pow2_add. replace (d - 1 + (lq + 1))%Z with lp by (unfold d; lia).
    reflexivity. }
  pose proof (pow2_pos (d + 1)) as Hd1. pose proof (pow2_pos (d - 1)) as Hd2.
  assert (Hup : (P < pow2 (d + 1) * R)%Q) by nra.
  assert (Hlo : (pow2 (d - 1) * R <= P)%Q) by nra.
  (* the test decides between [d] and [d - 1] *)
  assert (Htest : (if (0 <=? d)%Z
                   then (Zpos q * 2 ^ d <=? Zpos p)%Z
                   else (Zpos q <=? Zpos p * 2 ^ (- d))%Z) = true
                  <-> (pow2 d * R <= P)%Q).
  { destruct (Z.leb_spec 0 d) as [Hd|Hd].
    - rewrite Z.leb_le, Zle_Qle, inject_Z_mult, <- pow2_Z by assumption.
      fold P R. split; intros Hx; nra.
    - rewrite Z.leb_le, Zle_Qle, inject_Z_mult, <- pow2_Z by lia.
      fold P R.
      pose proof (pow2_add d (- d)) as Hz. rewrite Z.add_opp_diag_r in Hz.
      change (pow2 0) with 1%Q in Hz.
      pose proof (pow2_pos d) as Hpd. pose proof (pow2_pos (- d)) as Hpnd.
      split; intros H.
      + apply (Qmult_le_r _ _ (pow2 (- d))); [assumption|].
        setoid_replace (pow2 d * R * pow2 (- d))%Q
          with ((pow2 d * pow2 (- d)) * R)%Q by ring.
        rewrite <- Hz. nra.
      + apply (Qmult_le_r _ _ (pow2 d)); [assumption|].
        setoid_replace (P * pow2 (- d) * pow2 d)%Q
          with ((pow2 d * pow2 (- d)) * P)%Q by ring.
        rewrite <- Hz. nra. }
  destruct (if (0 <=? d)%Z then (Zpos q * 2 ^ d <=? Zpos p)%Z
            else (Zpos q <=? Zpos p * 2 ^ (- d))%Z) eqn:Hc.
  - split; [apply Htest; reflexivity | exact Hup].
  - split; [exact Hlo|].
    replace (d - 1 + 1)%Z with d by lia.
    apply Qnot_le_lt. intros H. apply Htest in H. congruence.
Qed.

Lemma abs_scale (x y u : Q) :
  (0 < u)%Q -> (Qabs x <= Qabs y)%Q -> (Qabs (x * u) <= Qabs (y * u))%Q.
Proof.
  intros Hu H. rewrite !Qabs_Qmult.
  apply Qmult_le_compat_r; [assumption | apply Qabs_nonneg].
Qed.

Lemma NQ_pow2_neg (e : Z) :
  (e < 0)%Z -> (NQ (2 ^ Z.to_N (- e)) * pow2 e == 1)%Q.
Proof.
  intros He. rewrite NQ_pow2 by lia. rewrite <- pow2_add.
  replace (- e + e)%Z with 0%Z by lia. reflexivity.
Qed.

(** [scaled_rne p q e] is an integer [M] nearest to [p / q / 2^e]:
    no multiple of [2^e] is nearer to [p / q] than [M * 2^e]. *)
Lemma scaled_rne_nearest (p : N) (q : positive) (E K : Z) :
  (Qabs (NQ (scaled_rne p q E) * pow2 E - NQ p / NQ (Npos q))
   <= Qabs (inject_Z K * pow2 E - NQ p / NQ (Npos q)))%Q.
Proof.
  pose proof (pow2_pos E) as Hu.
  assert (HR : (0 < NQ (Npos q))%Q) by (apply NQ_pos; lia).
  unfold scaled_rne. destruct (Z.leb_spec 0 E) as [HE|HE].
  - set (b := (Npos q * 2 ^ Z.to_N E)%N).
    assert (Hb : (0 < b)%N).
    { unfold b. apply N.mul_pos_pos; [lia|]. apply N.neq_0_lt_0.
      apply N.pow_nonzero. lia. }
    assert (Eb : (NQ b == NQ (Npos q) * pow2 E)%Q)
      by (unfold b; rewrite NQ_mul, NQ_pow2 by assumption; reflexivity).
    pose proof (rne_div_nearest p K Hb) as Hn.
    apply (@abs_scale _ _ _ Hu) in Hn.
    setoid_replace (NQ (rne_div p b) * pow2 E - NQ p / NQ (Npos q))%Q
      with ((NQ (rne_div p b) - NQ p / NQ b) * pow2 E)%Q
      by (rewrite Eb; field; split; lra).
    setoid_replace (inject_Z K * pow2 E - NQ p / NQ (Npos q))%Q
      with ((inject_Z K - NQ p / NQ b) * pow2 E)%Q
      by (rewrite Eb; field; split; lra).
    exact Hn.
  - set (a := (p * 2 ^ Z.to_N (- E))%N).
    assert (Ea : (NQ a * pow2 E == NQ p)%Q).
    { unfold a. rewrite NQ_mul, <- Qmult_assoc, NQ_pow2_neg by assumption. ring. }
    pose proof (@rne_div_nearest a (Npos q) K ltac:(lia)) as Hn.
    apply (@abs_scale _ _ _ Hu) in Hn.
    setoid_replace (NQ (rne_div a (Npos q)) * pow2 E - NQ p / NQ (Npos q))%Q
      with ((NQ (rne_div a (Npos q)) - NQ a / NQ (Npos q)) * pow2 E)%Q
      by (rewrite <- Ea; field; lra).
    setoid_replace (inject_Z K * pow2 E - NQ p / NQ (Npos q))%Q
      with ((inject_Z K - NQ a / NQ (Npos q)) * pow2 E)%Q
      by (rewrite <- Ea; field; lra).
    exact Hn.
Qed.

(** [micro m e] is [m * 2^e * 10^6] within half a unit. *)
Lemma micro_half (m : N) (e : Z) :
  (Qabs (NQ (micro m e) / 1000000 - NQ m * pow2 e) <= 1 # 2000000)%Q.
Proof.
  unfold micro. destruct (Z.leb_spec 0 e) as [He|He].
  - rewrite !NQ_mul, NQ_pow2 by assumption.
    setoid_replace (NQ m * pow2 e * NQ 1000000 / 1000000 - NQ m * pow2 e)%Q
      with 0%Q by (unfold NQ; simpl inject_Z; field).
    discriminate.
  - set (b := (2 ^ Z.to_N (- e))%N).
    assert (Hb : (0 < b)%N)
      by (unfold b; apply N.neq_0_lt_0, N.pow_nonzero; lia).
    pose proof (NQ_pos Hb) as Hbq.
    assert (Eb : (NQ b * pow2 e == 1)%Q) by (apply NQ_pow2_neg; assumption).
    pose proof (rne_div_half (m * 1000000) Hb) as Hh.
    set (n := rne_div (m * 1000000) b) in *.
    rewrite NQ_mul in Hh.
    assert (Ex : (NQ m * NQ 1000000 / NQ b == NQ m * pow2 e * 1000000)%Q).
    { unfold NQ at 2. simpl inject_Z.
      setoid_replace (pow2 e) with (/ NQ b)%Q; [field; lra|].
      apply (Qmult_inj_l _ _ (NQ b)); [lra|]. rewrite Eb. field. lra. }
    rewrite Ex in Hh.
    apply Qabs_Qle_condition in Hh. apply Qabs_Qle_condition.
    set (X := (NQ m * pow2 e)%Q) in *. set (Y := NQ n) in *. clearbody X Y.
    clear Ex Eb. unfold Qdiv.
    setoid_replace (/ 1000000)%Q with (1 # 1000000)%Q by reflexivity. lra.
Qed.

Lemma strip_zeros_value (p : positive) (e : Z) :
  (NQ (Npos (fst (strip_zeros p e))) * pow2 (snd (strip_zeros p e))
   == NQ (Npos p) * pow2 e)%Q.
Proof.
  revert e. induction p as [p IH|p IH|]; intros e; try reflexivity.
  cbn [strip_zeros]. rewrite IH. rewrite (pow2_add e 1).
  change (pow2 1) with 2%Q.
  change (NQ (N.pos p~0)) with (inject_Z (2 * Z.pos p)).
  rewrite inject_Z_mult. change (inject_Z (Z.pos p)) with (NQ (Npos p)).
  change (inject_Z 2) with 2%Q. ring.
Qed.

(** [dyadic] keeps the value. *)
Lemma dyadic_value (neg : bool) (M : N) (E : Z) :
  exists m e, dyadic neg M E = Fin neg m e
              /\ (NQ m * pow2 e == NQ M * pow2 E)%Q.
Proof.
  unfold dyadic. destruct M as [|p].
  - exists 0%N, 0%Z. split; [reflexivity|]. unfold NQ. simpl inject_Z. ring.
  - pose proof (strip_zeros_value p E) as H.
    destruct (strip_zeros p E) as [p' e']. exists (Npos p'), e'.
    split; [reflexivity | exact H].
Qed.

Lemma NQ_lt_pow2_size (m : N) : (NQ m < pow2 (Z.of_N (N.size m)))%Q.
Proof.
  rewrite pow2_Z by lia. unfold NQ. rewrite <- Zlt_Qlt.
  pose proof (N.size_gt m) as H.
  apply N2Z.inj_lt in H. rewrite N2Z.inj_pow in H. exact H.
Qed.

Lemma pow2_size_le_NQ (m : N) :
  (0 < m)%N -> (pow2 (Z.of_N (N.size m) - 1) <= NQ m)%Q.
Proof.
  intros Hm. rewrite N.size_log2 by lia. rewrite N2Z.inj_succ.
  replace (Z.succ (Z.of_N (N.log2 m)) - 1)%Z with (Z.of_N (N.log2 m)) by lia.
  rewrite pow2_Z by lia. unfold NQ. rewrite <- Zle_Qle.
  destruct (N.log2_spec m Hm) as [H _].
  apply N2Z.inj_le in H. rewrite N2Z.inj_pow in H. exact H.
Qed.

(** No binary64 value is nearer to [p / q] than the rounded one. *)
Lemma round_nearest (p q : positive) (m : N) (e : Z) :
  (-1074 <= e)%Z -> (N.size m <= 53)%N ->
  (Qabs (NQ (scaled_rne (Npos p) q (ulp_exponent p q)) * pow2 (ulp_exponent p q)
         - NQ (Npos p) / NQ (Npos q))
   <= Qabs (NQ m * pow2 e - NQ (Npos p) / NQ (Npos q)))%Q.
Proof.
  intros He Hm.
  set (E := ulp_exponent p q). set (d := (NQ (Npos p) / NQ (Npos q))%Q).
  destruct (Z_le_gt_dec E e) as [HEe|HEe].
  - (* the value is a multiple of [2^E] *)
    pose proof (scaled_rne_nearest (Npos p) q E (Z.of_N m * 2 ^ (e - E))) as Hn.
    fold d in Hn.
    assert (EK : (inject_Z (Z.of_N m * 2 ^ (e - E)) * pow2 E == NQ m * pow2 e)%Q).
    { rewrite inject_Z_mult, <- pow2_Z by lia. fold (NQ m).
      rewrite <- Qmult_assoc, pow2_sub. reflexivity. }
    rewrite EK in Hn. exact Hn.
  - (* the value lies below the binade of [p / q] *)
    destruct (floor_log2_ratio_spec p q) as [Ht _].
    set (t := floor_log2_ratio p q) in *.
    assert (HE : E = (t - 52)%Z).
    { unfold E, ulp_exponent in *. fold t in HEe |- *. lia. }
    assert (HR : (0 < NQ (Npos q))%Q) by (apply NQ_pos; lia).
    assert (Htd : (pow2 t <= d)%Q).
    { unfold d. apply Qle_shift_div_l; assumption. }
    pose proof (scaled_rne_nearest (Npos p) q E (2 ^ 52)) as Hn. fold d in Hn.
    assert (EK : (inject_Z (2 ^ 52) * pow2 E == pow2 t)%Q).
    { rewrite <- (@pow2_Z 52) by lia. rewrite <- pow2_add.
      replace (52 + E)%Z with t by lia. reflexivity. }
    rewrite EK in Hn.
    assert (HX : (NQ m * pow2 e <= pow2 t)%Q).
    { pose proof (NQ_lt_pow2_size m) as H1.
      assert (H2 : (pow2 (Z.of_N (N.size m)) <= pow2 53)%Q) by (apply pow2_le; lia).
      assert (H3 : (pow2 53 * pow2 e <= pow2 t)%Q).
      { rewrite <- pow2_add. apply pow2_le. lia. }
      pose proof (pow2_pos e). pose proof (NQ_nonneg m). nra. }
    rewrite (Qabs_neg (pow2 t - d)) in Hn by lra.
    rewrite (Qabs_neg (NQ m * pow2 e - d)) by lra.
    lra.
Qed.

Lemma is_binary64_finite (neg : bool) (m : N) (e : Z) :
  is_binary64 (Fin neg m e) = true ->
  (-1074 <= e)%Z /\ (N.size m <= 53)%N /\ (Z.of_N (N.size m) + e <= 1024)%Z.
Proof.
  unfold is_binary64. destruct m as [|p].
  - rewrite Z.eqb_eq. intros ->. cbn. lia.
  - rewrite !andb_true_iff, !Z.leb_le, N.leb_le. tauto.
Qed.

(** A finite binary64 value is at least one below [2^1024]. *)
Lemma binary64_below_max (m : N) (e : Z) :
  (N.size m <= 53)%N -> (Z.of_N (N.size m) + e <= 1024)%Z ->
  (NQ m * pow2 e + 1 <= pow2 1024)%Q.
Proof.
  intros Hm Hme. destruct (Z_le_gt_dec 0 e) as [He|He].
  - rewrite pow2_Z by assumption. rewrite (@pow2_Z 1024) by lia.
    unfold NQ. rewrite <- inject_Z_mult. change 1%Q with (inject_Z 1).
    rewrite <- inject_Z_plus, <- Zle_Qle.
    pose proof (N.size_gt m) as H.
    apply N2Z.inj_lt in H. rewrite N2Z.inj_pow in H.
    assert (H2 : (2 ^ Z.of_N (N.size m) * 2 ^ e <= 2 ^ 1024)%Z).
    { rewrite <- Z.pow_add_r by lia. apply Z.pow_le_mono_r; lia. }
    assert (H3 : (0 < 2 ^ e)%Z) by (apply Z.pow_pos_nonneg; lia).
    change (Z.of_N 2) with 2%Z in H.
    set (a := Z.of_N m) in *. set (b := (2 ^ e)%Z) in *.
    set (c := (2 ^ Z.of_N (N.size m))%Z) in *. set (t := (2 ^ 1024)%Z) in *.
    clearbody a b c t. nia.
  - pose proof (NQ_lt_pow2_size m) as H1.
    assert (H2 : (pow2 (Z.of_N (N.size m)) <= pow2 53)%Q) by (apply pow2_le; lia).
    assert (H3 : (pow2 e <= 1)%Q) by (apply (@pow2_le e 0); lia).
    assert (H4 : (pow2 53 + pow2 53 <= pow2 1024)%Q).
    { setoid_replace (pow2 53 + pow2 53)%Q with (pow2 54)%Q by reflexivity.
      apply pow2_le. lia. }
    assert (H5 : (1 <= pow2 53)%Q) by (apply (@pow2_le 0 53); lia).
    pose proof (pow2_pos e). pose proof (NQ_nonneg m).
    set (X := NQ m) in *. set (u := pow2 e) in *. clearbody X u. nra.
Qed.

(** The float re-read from the [.6f] text of a finite binary64 value is
    finite and at most [1e-6] away. *)
Lemma reread_close (neg : bool) (m : N) (e : Z) :
  is_binary64 (Fin neg m e) = true ->
  exists m' e',
    reread (Fin neg m e) = Fin neg m' e'
    /\ (Qabs (NQ m' * pow2 e' - NQ m * pow2 e) <= 1 # 1000000)%Q.
Proof.
  intros Hb. destruct (@is_binary64_finite neg m e Hb) as (He & Hm & Hme).
  pose proof (micro_half m e) as Hh.
  pose proof (@binary64_below_max m e Hm Hme) as Hmax.
  unfold reread, round_ratio.
  destruct (micro m e) as [|p] eqn:Hn.
  - exists 0%N, 0%Z. split; [reflexivity|].
    change (NQ 0) with 0%Q in *.
    setoid_replace (0 / 1000000)%Q with 0%Q in Hh by reflexivity.
    setoid_replace (0 * pow2 0)%Q with 0%Q by reflexivity.
    set (X := (NQ m * pow2 e)%Q) in *. clearbody X.
    apply Qabs_Qle_condition in Hh. apply Qabs_Qle_condition. lra.
  - set (E := ulp_exponent p 1000000).
    set (M := scaled_rne (Npos p) 1000000 E).
    pose proof (@round_nearest p 1000000 m e He Hm) as Hnear.
    fold E M in Hnear.
    change (NQ (Npos 1000000)) with 1000000%Q in Hnear.
    set (d := (NQ (Npos p) / 1000000)%Q) in *.
    set (X := (NQ m * pow2 e)%Q) in *. set (Y := (NQ M * pow2 E)%Q) in *.
    assert (HYd : (- (1 # 2000000) <= Y - d <= 1 # 2000000)%Q).
    { apply Qabs_Qle_condition. eapply Qle_trans; [exact Hnear|].
      rewrite Qabs_Qminus. exact Hh. }
    apply Qabs_Qle_condition in Hh.
    (* the rounded value does not overflow *)
    assert (Hfit : (Z.of_N (N.size M) + E <= 1024)%Z).
    { destruct (N.eq_dec M 0) as [HM0|HM0].
      - rewrite HM0. cbn [N.size Z.of_N Z.add].
        destruct (floor_log2_ratio_spec p 1000000) as [Ht _].
        change (NQ (Npos 1000000)) with 1000000%Q in Ht.
        set (t := floor_log2_ratio p 1000000) in *.
        assert (Htd : (pow2 t <= d)%Q).
        { unfold d. apply Qle_shift_div_l; [reflexivity | exact Ht]. }
        assert (Hlt : (pow2 t < pow2 1024)%Q) by lra.
        apply pow2_lt_inv in Hlt.
        unfold E, ulp_exponent. fold t. lia.
      - assert (HM : (0 < M)%N) by lia.
        pose proof (pow2_size_le_NQ HM) as Hs.
        assert (Hlt : (pow2 (Z.of_N (N.size M) - 1 + E) < pow2 1024)%Q).
        { rewrite pow2_add. pose proof (pow2_pos E).
          assert (pow2 (Z.of_N (N.size M) - 1) * pow2 E <= Y)%Q
            by (unfold Y; apply Qmult_le_compat_r; [exact Hs | lra]).
          lra. }
        apply pow2_lt_inv in Hlt. lia. }
    destruct (Z.ltb_spec 1024 (Z.of_N (N.size M) + E)) as [Hover|_]; [lia|].
    destruct (dyadic_value neg M E) as (m' & e' & Hdy & Hval).
    exists m', e'. split; [exact Hdy|].
    rewrite Hval. fold Y. apply Qabs_Qle_condition. lra.
Qed.

(** A binary64 coordinate other than a NaN is re-read within [1e-6]. *)
Lemma reread_within_1e6 (x : float) :
  is_binary64 x = true -> is_nan x = false -> within_1e6 x (reread x) = true.
Proof.
  intros Hb Hn. destruct x as [|neg|neg m e].
  - discriminate.
  - cbn [reread within_1e6]. apply Bool.eqb_reflx.
  - destruct (@reread_close neg m e Hb) as (m' & e' & -> & Hc).
    cbn [within_1e6 F2Q]. apply Qle_bool_iff.
    fold (NQ m') (NQ m).
    setoid_replace ((if neg then - (1) else 1) * NQ m' * pow2 e'
                    - (if neg then - (1) else 1) * NQ m * pow2 e)%Q
      with ((if neg then - (1) else 1) * (NQ m' * pow2 e' - NQ m * pow2 e))%Q
      by ring.
    rewrite Qabs_Qmult.
    setoid_replace (Qabs (if neg then - (1) else 1)) with 1%Q
      by (destruct neg; reflexivity).
    rewrite Qmult_1_l. exact Hc.
Qed.

(** C3 (as amended).  For every sequence of [N] points whose
    coordinates are binary64 values other than NaN, reading with
    [read_pcd] the file written by [write_pcd] yields [N] points, in the
    same order, each coordinate within [1e-6] of the original (an
    infinite coordinate is read back as the same infinity). *)
Theorem write_read_pcd_roundtrip (pts : list point) :
  Forall (fun p => point_ok p = true) pts ->
  exists pts',
    read_pcd (write_pcd pts) = Ok pts'
    /\ List.length pts' = List.length pts
    /\ Forall2 (fun p p' => point_within_1e6 p p' = true) pts pts'.
Proof.
  intros Hok. exists (map reread_point pts).
  split; [apply read_write_pcd|]. split; [apply length_map|].
  induction Hok as [|[[x y] z] r Hp _ IH]; [constructor|].
  cbn [map]. constructor; [|exact IH].
  unfold point_ok in Hp. rewrite !andb_true_iff, !negb_true_iff in Hp.
  destruct Hp as [[[[[Hx Hy] Hz] Nx] Ny] Nz].
  cbn [reread_point point_within_1e6].
  rewrite !reread_within_1e6 by assumption. reflexivity.
Qed.

Lemma write_read_pcd_roundtrip_witness :
  exists pts',
    read_pcd (write_pcd pcd_three_points) = Ok pts'
    /\ List.length pts' = List.length pcd_three_points
    /\ Forall2 (fun p p' => point_within_1e6 p p' = true) pcd_three_points pts'.
Proof.
  apply (@write_read_pcd_roundtrip pcd_three_points).
  repeat constructor.
Defined.

(** C3 (counterexample).  A point with a NaN coordinate is written as
    [nan] and read back as a NaN, which is not within [1e-6] of the
    original NaN. *)
Lemma write_read_pcd_nan :
  is_binary64 NaN = true
  /\ read_pcd (write_pcd [(NaN, Fin false 0 0, Fin false 0 0)])
     = Ok [(NaN, Fin false 0 0, Fin false 0 0)]
  /\ point_within_1e6 (NaN, Fin false 0 0, Fin false 0 0)
                      (NaN, Fin false 0 0, Fin false 0 0) = false.
Proof. repeat split; vm_compute; reflexivity. Qed.

(** ** Part 5. More of the readers, [bin2pcd] and the script *)

(** *** read_pcd on a binary file: whole and cut records *)

(** The payload holds [n] whole records: the loop returns their points,
    whatever follows them. *)
Lemma pcd_binary_loop_whole (fs : list str) (xi yi zi : nat) :
  3 <= List.length fs ->
  xi < List.length fs -> yi < List.length fs -> zi < List.length fs ->
  forall (n : nat) (f : bytes) (pts : list point),
    4 * List.length fs * n <= List.length f ->
    pcd_binary_loop fs xi yi zi n f pts
    = Val (pts ++ map (record_point f 0 (List.length fs) xi yi zi) (seq 0 n)).
Proof.
  intros Hnf Hx Hy Hz. induction n as [|n IH]; intros f pts Hlen.
  - simpl. rewrite app_nil_r. reflexivity.
  - cbn [pcd_binary_loop].
    rewrite pcd_read_fields_full by nia.
    cbn [app]. rewrite length_map, length_seq.
    destruct (Nat.leb_spec 3 (List.length fs)); [|lia].
    unfold item. rewrite !nth_error_map_seq by assumption. cbn [of_option bind].
    rewrite IH by (rewrite length_skipn; nia).
    rewrite map_seq_S, <- app_assoc. cbn [app].
    f_equal. f_equal. f_equal.
    + unfold record_point.
      f_equal; [f_equal|]; apply (f_equal (float_at f)); lia.
    + apply map_ext. intros i. unfold record_point.
      rewrite !float_at_skipn.
      f_equal; [f_equal|]; apply (f_equal (float_at f)); lia.
Qed.

(** X1.  [hs] is the header size that [read_pcd] computes from the
    stripped header lines (line 55), the offset it seeks to.  A
    binary-mode PCD file with at least three fields that holds [POINTS]
    records from offset [hs] on: [read_pcd] returns exactly [POINTS]
    points, the point [i] being the fields [x], [y], [z] (by name, by
    default the fields 0, 1, 2) read at offset [hs + 4 * fields * i];
    what follows these records is not read. *)
Theorem read_pcd_binary_complete (file : bytes) (h : header_info) (hs P : nat) :
  pcd_binary_header file h hs ->
  3 <= List.length (get_fields h) ->
  get_points h = Z.of_nat P ->
  hs + 4 * List.length (get_fields h) * P <= List.length file ->
  read_pcd file
  = Ok (map (record_point file hs (List.length (get_fields h))
               (index_or (lit "x") (get_fields h) 0)
               (index_or (lit "y") (get_fields h) 1)
               (index_or (lit "z") (get_fields h) 2))
            (seq 0 P)).
Proof.
  intros Hh Hnf HP Hlen.
  rewrite (read_pcd_binary_mode Hh), HP, Nat2Z.id.
  rewrite pcd_binary_loop_whole;
    try (apply index_or_lt; lia); try lia;
    try (rewrite length_skipn; nia).
  cbn [app finish]. f_equal.
  apply map_ext. intros i. unfold record_point.
  rewrite !float_at_skipn. cbn [Nat.add].
  rewrite !Nat.add_assoc. reflexivity.
Qed.

Lemma read_pcd_binary_complete_witness :
  read_pcd pcd_xyzi_2_tail
  = Ok (map (record_point pcd_xyzi_2_tail (header_size_of pcd_xyzi_2_tail)
               (List.length (get_fields (info_of pcd_xyzi_2_tail)))
               (index_or (lit "x") (get_fields (info_of pcd_xyzi_2_tail)) 0)
               (index_or (lit "y") (get_fields (info_of pcd_xyzi_2_tail)) 1)
               (index_or (lit "z") (get_fields (info_of pcd_xyzi_2_tail)) 2))
            (seq 0 2)).
Proof.
  apply (@read_pcd_binary_complete pcd_xyzi_2_tail (info_of pcd_xyzi_2_tail)
           (header_size_of pcd_xyzi_2_tail) 2).
  - exists (pcd_scan_of pcd_xyzi_2_tail). repeat split; vm_compute; reflexivity.
  - vm_compute. lia.
  - vm_compute. reflexivity.
  - vm_compute. lia.
Defined.

(** A read of the fields never yields more values than fields. *)
Lemma pcd_read_fields_length (fs : list str) (f : bytes) (acc : list float) :
  List.length (fst (pcd_read_fields fs f acc)) <= List.length acc + List.length fs.
Proof.
  revert f acc. induction fs as [|x fs IH]; intros f acc.
  - simpl. lia.
  - cbn [pcd_read_fields read].
    destruct (unpack_le_f (firstn 4 f)) as [v|].
    + specialize (IH (skipn 4 f) (acc ++ [v])).
      rewrite length_app in IH. simpl in *. lia.
    + simpl. lia.
Qed.

Lemma pcd_binary_loop_few_fields (fs : list str) (xi yi zi n : nat) (f : bytes)
      (pts : list point) :
  List.length fs < 3 -> pcd_binary_loop fs xi yi zi n f pts = Val pts.
Proof.
  intros Hfs. revert f. induction n as [|n IH]; intros f; [reflexivity|].
  cbn [pcd_binary_loop].
  pose proof (pcd_read_fields_length fs f []) as Hl.
  destruct (pcd_read_fields fs f []) as [vs f']. cbn [fst List.length] in Hl.
  destruct (Nat.leb_spec 3 (List.length vs)); [lia|].
  apply IH.
Qed.

(** X2.  A binary-mode PCD file that declares fewer than three fields
    (or no FIELDS line), or whose POINTS is missing, zero or negative:
    [read_pcd] returns the empty cloud without raising, whatever the
    payload. *)
Theorem read_pcd_binary_nothing_to_read (file : bytes) (h : header_info) (hs : nat) :
  pcd_binary_header file h hs ->
  List.length (get_fields h) < 3 \/ (get_points h <= 0)%Z ->
  read_pcd file = Ok [].
Proof.
  intros Hh [Hfs|Hp]; rewrite (read_pcd_binary_mode Hh).
  - rewrite pcd_binary_loop_few_fields by assumption. reflexivity.
  - replace (Z.to_nat (get_points h)) with 0 by lia. reflexivity.
Qed.

Lemma read_pcd_binary_nothing_to_read_witness :
  List.length (get_fields (info_of pcd_xy)) = 2
  /\ get_points (info_of pcd_xy) = 2%Z
  /\ read_pcd pcd_xy = Ok [].
Proof.
  split; [vm_compute; reflexivity|].
  split; [vm_compute; reflexivity|].
  apply (@read_pcd_binary_nothing_to_read pcd_xy (info_of pcd_xy)
           (header_size_of pcd_xy)).
  - exists (pcd_scan_of pcd_xy). repeat split; vm_compute; reflexivity.
  - left. vm_compute. lia.
Defined.

(** The file ends inside a record: the whole floats that are left are
    read and the file is at its end. *)
Lemma pcd_read_fields_cut (fs : list str) (f : bytes) (acc : list float) :
  List.length f < 4 * List.length fs ->
  pcd_read_fields fs f acc
  = (acc ++ map (fun k => float_at f (4 * k)) (seq 0 (List.length f / 4)), []).
Proof.
  revert f acc. induction fs as [|x fs IH]; intros f acc Hlen.
  - simpl in Hlen. lia.
  - cbn [pcd_read_fields read].
    destruct (le_lt_dec 4 (List.length f)) as [H4|H4].
    + rewrite unpack_le_f_4 by (rewrite length_firstn; lia).
      rewrite IH by (rewrite length_skipn; simpl in Hlen; lia).
      rewrite length_skipn.
      replace (List.length f / 4) with (S ((List.length f - 4) / 4)).
      2:{ rewrite <- div4_step. f_equal. lia. }
      rewrite map_seq_S, <- app_assoc. cbn [app].
      f_equal. f_equal. f_equal.
      apply map_ext. intros k. rewrite float_at_skipn. f_equal. lia.
    + rewrite unpack_le_f_short by (rewrite length_firstn; lia).
      rewrite Nat.div_small by lia. cbn [seq map]. rewrite app_nil_r.
      f_equal. apply skipn_all2. lia.
Qed.

(** [c] whole records, then a record cut after [q >= 3] whole fields,
    and at least one more round than whole records: the cut record gives
    a point when its first [q] fields hold the coordinates, an
    [IndexError] otherwise. *)
Lemma pcd_binary_loop_cut (fs : list str) (xi yi zi : nat) :
  xi < List.length fs -> yi < List.length fs -> zi < List.length fs ->
  forall (c n : nat) (f : bytes) (pts : list point),
    c < n ->
    4 * List.length fs * c + 12 <= List.length f ->
    List.length f < 4 * List.length fs * S c ->
    pcd_binary_loop fs xi yi zi n f pts
    = if (xi <? (List.length f - 4 * List.length fs * c) / 4)
         && (yi <? (List.length f - 4 * List.length fs * c) / 4)
         && (zi <? (List.length f - 4 * List.length fs * c) / 4)
      then Val (pts ++ map (record_point f 0 (List.length fs) xi yi zi) (seq 0 (S c)))
      else Exc IndexError.
Proof.
  intros Hx Hy Hz. induction c as [|c IH]; intros n f pts Hcn Hlo Hhi.
  - destruct n as [|n]; [lia|].
    cbn [pcd_binary_loop].
    rewrite pcd_read_fields_cut by lia.
    cbn [app]. rewrite length_map, length_seq.
    rewrite Nat.mul_0_r, Nat.sub_0_r.
    assert (Hq : 3 <= List.length f / 4).
    { apply Nat.div_le_lower_bound; lia. }
    destruct (Nat.leb_spec 3 (List.length f / 4)); [|lia].
    unfold item.
    destruct (Nat.ltb_spec xi (List.length f / 4)) as [Hxq|Hxq].
    2:{ cbn [andb].
        replace (nth_error _ xi) with (@None float); [reflexivity|].
        symmetry. apply nth_error_None. rewrite length_map, length_seq. lia. }
    rewrite nth_error_map_seq by assumption. cbn [of_option bind].
    destruct (Nat.ltb_spec yi (List.length f / 4)) as [Hyq|Hyq].
    2:{ cbn [andb].
        replace (nth_error _ yi) with (@None float); [reflexivity|].
        symmetry. apply nth_error_None. rewrite length_map, length_seq. lia. }
    rewrite nth_error_map_seq by assumption. cbn [of_option bind].
    destruct (Nat.ltb_spec zi (List.length f / 4)) as [Hzq|Hzq].
    2:{ cbn [andb].
        replace (nth_error _ zi) with (@None float); [reflexivity|].
        symmetry. apply nth_error_None. rewrite length_map, length_seq. lia. }
    rewrite nth_error_map_seq by assumption. cbn [of_option bind andb].
    rewrite pcd_binary_loop_starved by (simpl; lia).
    cbn [seq map]. unfold record_point.
    rewrite !Nat.mul_0_r. reflexivity.
  - destruct n as [|n]; [lia|].
    cbn [pcd_binary_loop].
    rewrite pcd_read_fields_full by nia.
    cbn [app]. rewrite length_map, length_seq.
    assert (3 <= List.length fs) by nia.
    destruct (Nat.leb_spec 3 (List.length fs)); [|lia].
    unfold item. rewrite !nth_error_map_seq by assumption. cbn [of_option bind].
    rewrite IH; [| lia | rewrite length_skipn; nia | rewrite length_skipn; nia].
    rewrite length_skipn.
    replace (List.length f - 4 * List.length fs - 4 * List.length fs * c)
      with (List.length f - 4 * List.length fs * S c) by nia.
    destruct (_ && _ && _); [|reflexivity].
    rewrite (map_seq_S _ (S c)), <- app_assoc. cbn [app].
    f_equal. f_equal. f_equal.
    + unfold record_point.
      f_equal; [f_equal|]; apply (f_equal (float_at f)); lia.
    + apply map_ext. intros i. unfold record_point.
      rewrite !float_at_skipn.
      f_equal; [f_equal|]; apply (f_equal (float_at f)); lia.
Qed.

(** X3.  [hs] is the header size that [read_pcd] computes from the
    stripped header lines (line 55), the offset it seeks to.  A
    binary-mode PCD file whose bytes from offset [hs] on are [c] whole
    records, [c < POINTS], and [r] more bytes, [12 <= r < 4 * fields]
    (a cut record of which [r / 4 >= 3] whole fields are left): when
    the indices of the fields [x], [y], [z] are below [r / 4],
    [read_pcd] builds a point from the cut record and returns [c + 1]
    points, read at the offsets [hs + 4 * fields * i]; when one of them
    is not, it raises [IndexError]. *)
Theorem read_pcd_cut_record (file : bytes) (h : header_info) (hs c r : nat) :
  pcd_binary_header file h hs ->
  (Z.of_nat c < get_points h)%Z ->
  List.length file = hs + 4 * List.length (get_fields h) * c + r ->
  12 <= r < 4 * List.length (get_fields h) ->
  (index_or (lit "x") (get_fields h) 0 < r / 4
   /\ index_or (lit "y") (get_fields h) 1 < r / 4
   /\ index_or (lit "z") (get_fields h) 2 < r / 4 ->
   read_pcd file
   = Ok (map (record_point file hs (List.length (get_fields h))
                (index_or (lit "x") (get_fields h) 0)
                (index_or (lit "y") (get_fields h) 1)
                (index_or (lit "z") (get_fields h) 2))
             (seq 0 (S c))))
  /\ (r / 4 <= index_or (lit "x") (get_fields h) 0
      \/ r / 4 <= index_or (lit "y") (get_fields h) 1
      \/ r / 4 <= index_or (lit "z") (get_fields h) 2 ->
      read_pcd file = Raise IndexError).
Proof.
  intros Hh Hc Hlen Hr.
  rewrite (read_pcd_binary_mode Hh).
  rewrite pcd_binary_loop_cut with (c := c);
    try (apply index_or_lt; lia); try lia;
    try (rewrite length_skipn; nia).
  rewrite length_skipn.
  replace (List.length file - hs - 4 * List.length (get_fields h) * c) with r by lia.
  split.
  - intros (Hx & Hy & Hz).
    destruct (Nat.ltb_spec (index_or (lit "x") (get_fields h) 0) (r / 4)); [|lia].
    destruct (Nat.ltb_spec (index_or (lit "y") (get_fields h) 1) (r / 4)); [|lia].
    destruct (Nat.ltb_spec (index_or (lit "z") (get_fields h) 2) (r / 4)); [|lia].
    cbn [andb app finish]. f_equal.
    apply map_ext. intros i. unfold record_point.
    rewrite !float_at_skipn. cbn [Nat.add].
    rewrite !Nat.add_assoc. reflexivity.
  - intros Hout.
    destruct (Nat.ltb_spec (index_or (lit "x") (get_fields h) 0) (r / 4));
      [|reflexivity].
    destruct (Nat.ltb_spec (index_or (lit "y") (get_fields h) 1) (r / 4));
      [|reflexivity].
    destruct (Nat.ltb_spec (index_or (lit "z") (get_fields h) 2) (r / 4));
      [|reflexivity].
    lia.
Qed.

Lemma read_pcd_cut_record_witness :
  read_pcd pcd_zxyi_cut4
  = Ok (map (record_point pcd_zxyi_cut4 (header_size_of pcd_zxyi_cut4) 4 1 2 0)
            (seq 0 2))
  /\ read_pcd pcd_ixyz_cut4 = Raise IndexError.
Proof.
  split.
  - apply (@read_pcd_cut_record pcd_zxyi_cut4 (info_of pcd_zxyi_cut4)
             (header_size_of pcd_zxyi_cut4) 1 12).
    + exists (pcd_scan_of pcd_zxyi_cut4). repeat split; vm_compute; reflexivity.
    + vm_compute. reflexivity.
    + vm_compute. reflexivity.
    + vm_compute. lia.
    + vm_compute. lia.
  - apply (@read_pcd_cut_record pcd_ixyz_cut4 (info_of pcd_ixyz_cut4)
             (header_size_of pcd_ixyz_cut4) 1 12).
    + exists (pcd_scan_of pcd_ixyz_cut4). repeat split; vm_compute; reflexivity.
    + vm_compute. reflexivity.
    + vm_compute. reflexivity.
    + vm_compute. lia.
    + right. right. vm_compute. lia.
Defined.

(** *** read_ply: the points of a binary payload, an ASCII payload that
    ends early *)

Lemma ply_binary_loop_whole (dec : bytes -> float) (props : list str)
      (xi yi zi : nat) :
  xi < List.length props -> yi < List.length props -> zi < List.length props ->
  forall (n : nat) (f : bytes) (pts : list point),
    4 * List.length props * n <= List.length f ->
    ply_binary_loop (unpack_4 dec) props xi yi zi n f pts
    = Val (pts ++ map (vertex_point dec f (List.length props) xi yi zi) (seq 0 n)).
Proof.
  intros Hx Hy Hz. induction n as [|n IH]; intros f pts Hlen.
  - simpl. rewrite app_nil_r. reflexivity.
  - cbn [ply_binary_loop].
    rewrite ply_read_vertex_full by nia. cbn [app bind].
    unfold item. rewrite !nth_error_map_seq by assumption. cbn [of_option bind].
    rewrite IH by (rewrite length_skipn; nia).
    rewrite map_seq_S, <- app_assoc. cbn [app].
    f_equal. f_equal. f_equal.
    + unfold vertex_point.
      f_equal; [f_equal|];
        apply (f_equal (fun k => dec (firstn 4 (skipn k f)))); lia.
    + apply map_ext. intros i. unfold vertex_point.
      rewrite !skipn_skipn.
      f_equal; [f_equal|];
        apply (f_equal (fun k => dec (firstn 4 (skipn k f)))); lia.
Qed.

(** X4.  A binary PLY file whose payload holds the declared vertices:
    [read_ply] returns exactly [vertex_count] points, the point [i]
    being the properties [x], [y], [z] of vertex [i], each read as a
    4-byte float in the byte order of the format; what follows the
    declared vertices is not read. *)
Theorem read_ply_binary_points (file : bytes) (h : ply_header) (payload : bytes)
        (dec : bytes -> float) (xi yi zi : nat) :
  ply_header_of file h payload ->
  (format_type h = lit "binary_little_endian" /\ dec = decode_le_f)
  \/ (format_type h = lit "binary_big_endian" /\ dec = decode_be_f) ->
  index (lit "x") (properties h) = Some xi ->
  index (lit "y") (properties h) = Some yi ->
  index (lit "z") (properties h) = Some zi ->
  4 * List.length (properties h) * Z.to_nat (vertex_count h) <= List.length payload ->
  read_ply file
  = Ok (map (vertex_point dec payload (List.length (properties h)) xi yi zi)
            (seq 0 (Z.to_nat (vertex_count h)))).
Proof.
  intros Hh Hfmt Hx Hy Hz Hlen.
  pose proof (index_lt _ _ Hx). pose proof (index_lt _ _ Hy).
  pose proof (index_lt _ _ Hz).
  destruct Hfmt as [[Hfmt ->]|[Hfmt ->]].
  - rewrite (read_ply_binary_le Hh Hfmt Hx Hy Hz).
    unfold unpack_le_f. rewrite ply_binary_loop_whole by assumption.
    reflexivity.
  - rewrite (read_ply_binary_be Hh Hfmt Hx Hy Hz).
    unfold unpack_be_f. rewrite ply_binary_loop_whole by assumption.
    reflexivity.
Qed.

Lemma read_ply_binary_points_witness :
  read_ply ply_le_2
  = Ok (map (vertex_point decode_le_f (ply_payload_of ply_le_2) 3 0 1 2) (seq 0 2))
  /\ read_ply ply_be_2
     = Ok (map (vertex_point decode_be_f (ply_payload_of ply_be_2) 3 0 1 2) (seq 0 2)).
Proof.
  split.
  - apply (@read_ply_binary_points ply_le_2 (ply_header_parsed ply_le_2)
             (ply_payload_of ply_le_2) decode_le_f 0 1 2).
    + apply ply_header_of_example; vm_compute; reflexivity.
    + left. split; [vm_compute|]; reflexivity.
    + vm_compute. reflexivity.
    + vm_compute. reflexivity.
    + vm_compute. reflexivity.
    + vm_compute. lia.
  - apply (@read_ply_binary_points ply_be_2 (ply_header_parsed ply_be_2)
             (ply_payload_of ply_be_2) decode_be_f 0 1 2).
    + apply ply_header_of_example; vm_compute; reflexivity.
    + right. split; [vm_compute|]; reflexivity.
    + vm_compute. reflexivity.
    + vm_compute. reflexivity.
    + vm_compute. reflexivity.
    + vm_compute. lia.
Defined.

(** At the end of the payload the rounds of the ASCII loop read empty
    lines and add nothing. *)
Lemma ply_ascii_loop_eof (np xi yi zi n : nat) (pts : list point) :
  1 <= np -> ply_ascii_loop np xi yi zi n [] pts = Val pts.
Proof.
  intros Hnp. induction n as [|n IH]; [reflexivity|].
  cbn [ply_ascii_loop readline utf8_decode of_option bind].
  change (split (strip [])) with (@nil str). cbn [List.length].
  destruct (Nat.leb_spec np 0); [lia|]. exact IH.
Qed.

Lemma byte_lines_readline (f cur : bytes) :
  f <> [] ->
  byte_lines f cur = (cur ++ fst (readline f)) :: byte_lines (snd (readline f)) [].
Proof.
  revert cur. induction f as [|b r IH]; intros cur Hf; [congruence|].
  cbn [byte_lines readline]. destruct (Byte.eqb b "010").
  - reflexivity.
  - destruct r as [|b' r'].
    + cbn. destruct (cur ++ [b]) eqn:Hc; [|reflexivity].
      destruct cur; discriminate.
    + rewrite IH by discriminate.
      destruct (readline (b' :: r')) as [l r'']. cbn [fst snd].
      rewrite <- app_assoc. reflexivity.
Qed.

(** On numeric lines the ASCII loop of [read_ply] adds the point of
    each line that is long enough, and raises nothing. *)
Lemma ply_ascii_loop_points (np xi yi zi : nat) :
  xi < np -> yi < np -> zi < np ->
  forall (n : nat) (f : bytes) (pts : list point),
    Forall numeric_line (firstn n (byte_lines f [])) ->
    ply_ascii_loop np xi yi zi n f pts
    = Val (pts ++ flat_map (ply_point_of_line np xi yi zi)
                           (firstn n (byte_lines f []))).
Proof.
  intros Hx Hy Hz. induction n as [|n IH]; intros f pts Hok.
  - cbn. rewrite app_nil_r. reflexivity.
  - destruct f as [|b r].
    { rewrite ply_ascii_loop_eof by lia. cbn. rewrite app_nil_r. reflexivity. }
    rewrite byte_lines_readline in Hok |- * by discriminate.
    cbn [app firstn flat_map] in Hok |- *.
    cbn [ply_ascii_loop].
    destruct (readline (b :: r)) as [line f']. cbn [fst snd] in *.
    inversion Hok as [|? ? (text & Hd & Hv) Hrest]. subst.
    unfold ply_point_of_line at 1. rewrite Hd. cbn [of_option bind].
    unfold values_are_floats in Hv.
    set (values := split (strip text)) in *.
    destruct (Nat.leb_spec np (List.length values)) as [Hnp|Hnp].
    + assert (Hval : forall i, i < np ->
                exists a v, nth_error values i = Some a /\ float_of_str a = Some v).
      { intros i Hi.
        destruct (nth_error values i) as [a|] eqn:Ha.
        - pose proof (proj1 (Forall_forall _ _) Hv a (nth_error_In _ _ Ha)) as Hf.
          destruct (float_of_str a) as [v|] eqn:Hfa; [|congruence].
          exists a, v. split; [reflexivity | exact Hfa].
        - apply nth_error_None in Ha. lia. }
      destruct (Hval xi Hx) as (a & x & Ha & Hfa).
      destruct (Hval yi Hy) as (b0 & y & Hb & Hfb).
      destruct (Hval zi Hz) as (c & z & Hc & Hfc).
      unfold item, float_. rewrite Ha, Hb, Hc. cbn [of_option bind].
      rewrite Hfa, Hfb, Hfc. cbn [of_option bind].
      rewrite IH by assumption. rewrite <- app_assoc. reflexivity.
    + rewrite IH by assumption. reflexivity.
Qed.

(** X5.  An ASCII PLY file whose first [vertex_count] payload lines
    (all of them when there are fewer) are UTF-8 lines of float
    literals is read without error: [read_ply] returns, in order, the
    values number [x_idx], [y_idx], [z_idx] of each of these lines that
    holds at least as many values as the header has float properties,
    and skips the shorter ones.  Lines that are missing at the end of
    the file are read as empty lines and add nothing: a header that
    declares more vertices than there are lines raises no error. *)
Theorem read_ply_ascii_points (file : bytes) (h : ply_header)
        (payload : bytes) (xi yi zi : nat) :
  ply_header_of file h payload ->
  format_type h = lit "ascii" ->
  index (lit "x") (properties h) = Some xi ->
  index (lit "y") (properties h) = Some yi ->
  index (lit "z") (properties h) = Some zi ->
  Forall numeric_line (firstn (Z.to_nat (vertex_count h)) (byte_lines payload [])) ->
  read_ply file
  = Ok (flat_map (ply_point_of_line (List.length (properties h)) xi yi zi)
                 (firstn (Z.to_nat (vertex_count h)) (byte_lines payload []))).
Proof.
  intros Hh Hfmt Hx Hy Hz Hok.
  pose proof (index_lt _ _ Hx). pose proof (index_lt _ _ Hy).
  pose proof (index_lt _ _ Hz).
  rewrite (read_ply_after_header Hh), Hx, Hy, Hz.
  unfold ply_read_payload. rewrite Hfmt.
  change (str_eqb (lit "ascii") (lit "ascii")) with true. cbv iota.
  rewrite ply_ascii_loop_points by assumption. reflexivity.
Qed.

Ltac numeric_lines :=
  repeat (apply Forall_cons || apply Forall_nil);
  (eexists; split; [vm_compute; reflexivity|];
   unfold values_are_floats;
   repeat match goal with
          | |- Forall _ (split ?x) =>
            let t := eval vm_compute in (split x) in
            change (split x) with t
          end;
   repeat (apply Forall_cons || apply Forall_nil);
   vm_compute; discriminate).

Lemma read_ply_ascii_points_witness :
  (vertex_count (ply_header_parsed ply_ascii_2_of_5) = 5%Z
   /\ List.length (byte_lines (ply_payload_of ply_ascii_2_of_5) []) = 2
   /\ read_ply ply_ascii_2_of_5
      = Ok [(Fin false 1 0, Fin false 1 1, Fin false 3 0);
            (Fin false 1 2, Fin false 5 0, Fin false 3 1)])
  /\ (vertex_count (ply_header_parsed ply_ascii_short_line) = 3%Z
      /\ List.length (byte_lines (ply_payload_of ply_ascii_short_line) []) = 4
      /\ read_ply ply_ascii_short_line
         = Ok [(Fin false 1 0, Fin false 1 1, Fin false 3 0);
               (Fin false 1 2, Fin false 5 0, Fin false 3 1)]).
Proof.
  split.
  - split; [vm_compute; reflexivity|].
    split; [vm_compute; reflexivity|].
    rewrite (@read_ply_ascii_points ply_ascii_2_of_5
               (ply_header_parsed ply_ascii_2_of_5)
               (ply_payload_of ply_ascii_2_of_5) 0 1 2).
    + vm_compute. reflexivity.
    + apply ply_header_of_example; vm_compute; reflexivity.
    + vm_compute. reflexivity.
    + vm_compute. reflexivity.
    + vm_compute. reflexivity.
    + vm_compute. reflexivity.
    + match goal with
      | |- Forall numeric_line ?ls =>
        let l := eval vm_compute in ls in change (Forall numeric_line l)
      end.
      numeric_lines.
  - split; [vm_compute; reflexivity|].
    split; [vm_compute; reflexivity|].
    rewrite (@read_ply_ascii_points ply_ascii_short_line
               (ply_header_parsed ply_ascii_short_line)
               (ply_payload_of ply_ascii_short_line) 0 1 2).
    + vm_compute. reflexivity.
    + apply ply_header_of_example; vm_compute; reflexivity.
    + vm_compute. reflexivity.
    + vm_compute. reflexivity.
    + vm_compute. reflexivity.
    + vm_compute. reflexivity.
    + match goal with
      | |- Forall numeric_line ?ls =>
        let l := eval vm_compute in ls in change (Forall numeric_line l)
      end.
      numeric_lines.
Defined.

(** *** bin2pcd *)

Lemma unpack_ffff_16 (b : bytes) :
  List.length b = 16 ->
  unpack_ffff b
  = Val (float_at b 0, float_at b 4, float_at b 8, float_at b 12).
Proof. intros H. unfold unpack_ffff. rewrite H. reflexivity. Qed.

(** A file of [n] whole records: one point a record. *)
Lemma bin_to_pcd_loop_whole (n : nat) (f : bytes) (pts : list point) :
  List.length f = 16 * n ->
  bin_to_pcd_loop f pts = Val (pts ++ map (kitti_point f) (seq 0 n)).
Proof.
  revert f pts. induction n as [|n IH]; intros f pts Hlen.
  - destruct f; [|simpl in Hlen; lia]. simpl. rewrite app_nil_r. reflexivity.
  - do 16 (destruct f as [|? f]; [simpl in Hlen; lia|]).
    cbn [bin_to_pcd_loop]. rewrite unpack_ffff_16 by reflexivity. cbn [bind].
    rewrite IH by (simpl in Hlen; lia).
    rewrite map_seq_S, <- app_assoc. cbn [app].
    f_equal. f_equal. f_equal.
    apply map_ext. intros i. unfold kitti_point.
    replace (16 * S i) with (16 + 16 * i) by lia.
    rewrite <- !Nat.add_assoc, <- !float_at_skipn. reflexivity.
Qed.

(** A file that ends inside a record: the last read is short and
    [struct.unpack] raises. *)
Lemma bin_to_pcd_loop_partial (n r : nat) (f : bytes) (pts : list point) :
  List.length f = 16 * n + r -> 0 < r < 16 ->
  bin_to_pcd_loop f pts = Exc struct_error.
Proof.
  revert f pts. induction n as [|n IH]; intros f pts Hlen Hr.
  - do 16 (destruct f as [|? f]; [try (simpl in Hlen; lia); reflexivity|]).
    simpl in Hlen. lia.
  - do 16 (destruct f as [|? f]; [simpl in Hlen; lia|]).
    cbn [bin_to_pcd_loop]. rewrite unpack_ffff_16 by reflexivity. cbn [bind].
    apply IH; [simpl in Hlen; lia | assumption].
Qed.

(** When [bin_to_pcd] returns, the file is made of whole records and
    the points are those of the records. *)
Lemma bin_to_pcd_returns (file : bytes) (pts : list point) :
  bin_to_pcd file = Val pts ->
  exists n, List.length file = 16 * n /\ pts = map (kitti_point file) (seq 0 n).
Proof.
  intros Hb.
  pose proof (Nat.div_mod_eq (List.length file) 16) as Hdm.
  pose proof (Nat.mod_upper_bound (List.length file) 16) as Hub.
  set (n := List.length file / 16) in *. set (r := List.length file mod 16) in *.
  clearbody n r. unfold bin_to_pcd in Hb.
  destruct (Nat.eq_dec r 0) as [Hr|Hr].
  - exists n. split; [lia|].
    rewrite bin_to_pcd_loop_whole with (n := n) in Hb by lia.
    cbn [app] in Hb. congruence.
  - rewrite bin_to_pcd_loop_partial with (n := n) (r := r) in Hb by lia.
    discriminate.
Qed.

(** X6.  [bin_to_pcd] returns one point for every sixteen bytes of a
    file whose length is a multiple of 16, the first three of the four
    floats of each record; on any other file, the empty file apart, the
    last read is short and it raises [struct.error] (no point is
    returned). *)
Theorem bin_to_pcd_outcome (file : bytes) :
  (List.length file mod 16 = 0 ->
   bin_to_pcd file = Val (map (kitti_point file) (seq 0 (List.length file / 16))))
  /\ (List.length file mod 16 <> 0 -> bin_to_pcd file = Exc struct_error).
Proof.
  pose proof (Nat.div_mod_eq (List.length file) 16) as Hdm.
  pose proof (Nat.mod_upper_bound (List.length file) 16) as Hub.
  split; intros Hm.
  - unfold bin_to_pcd. rewrite bin_to_pcd_loop_whole with (n := List.length file / 16).
    + reflexivity.
    + lia.
  - unfold bin_to_pcd.
    apply bin_to_pcd_loop_partial
      with (n := List.length file / 16) (r := List.length file mod 16); lia.
Qed.

Lemma bin_to_pcd_outcome_witness :
  bin_to_pcd bin_2_points = Val (map (kitti_point bin_2_points) (seq 0 2))
  /\ bin_to_pcd bin_33_bytes = Exc struct_error.
Proof.
  split.
  - apply (proj1 (bin_to_pcd_outcome bin_2_points)). reflexivity.
  - apply (proj2 (bin_to_pcd_outcome bin_33_bytes)). vm_compute. discriminate.
Defined.

(** X7.  Whenever [bin_to_pcd] returns, [read_bin] returns the same
    points on the same file.  The converse does not hold: [read_bin]
    drops up to three bytes after the last whole float. *)
Theorem bin_to_pcd_read_bin (file : bytes) (pts : list point) :
  bin_to_pcd file = Val pts ->
  read_bin file = Val (map row_of_point pts).
Proof.
  intros Hb.
  destruct (bin_to_pcd_returns _ Hb) as (n & Hlen & ->).
  unfold read_bin, reshape_4. rewrite np_fromfile_length, Hlen.
  replace (16 * n) with ((4 * n) * 4) by lia.
  rewrite Nat.div_mul by lia.
  replace (4 * n) with (n * 4) by lia.
  rewrite Nat.Div0.mod_mul. cbn [Nat.eqb bind].
  rewrite (read_bin_rows n file Hlen), map_map. reflexivity.
Qed.

Lemma bin_to_pcd_read_bin_witness :
  bin_to_pcd bin_2_points = Val (map (kitti_point bin_2_points) (seq 0 2))
  /\ read_bin bin_2_points
     = Val (map row_of_point (map (kitti_point bin_2_points) (seq 0 2)))
  /\ bin_to_pcd bin_33_bytes = Exc struct_error
  /\ read_bin bin_33_bytes
     = Val (map row_of_point (map (kitti_point bin_33_bytes) (seq 0 2))).
Proof.
  assert (H : bin_to_pcd bin_2_points = Val (map (kitti_point bin_2_points) (seq 0 2)))
    by reflexivity.
  split; [exact H|].
  split; [apply (@bin_to_pcd_read_bin bin_2_points _ H)|].
  split; reflexivity.
Defined.

(** *** Every binary32 value is a binary64 value *)

Lemma size_le_of_lt (m k : N) : (m < 2 ^ k)%N -> (N.size m <= k)%N.
Proof.
  intros Hm. pose proof (N.size_le m) as Hs.
  rewrite N.succ_double_spec in Hs.
  assert (H : (2 ^ N.size m < 2 ^ N.succ k)%N).
  { rewrite N.pow_succ_r'. lia. }
  apply N.pow_lt_mono_r_iff in H; lia.
Qed.

Lemma strip_zeros_spec (p : positive) (e : Z) :
  N.odd (Npos (fst (strip_zeros p e))) = true
  /\ (e <= snd (strip_zeros p e))%Z
  /\ (Z.of_N (N.size (Npos (fst (strip_zeros p e)))) + snd (strip_zeros p e)
      = Z.of_N (N.size (Npos p)) + e)%Z.
Proof.
  revert e. induction p as [p IH|p IH|]; intros e; cbn [strip_zeros fst snd].
  - split; [reflexivity|]. split; lia.
  - destruct (IH (e + 1)%Z) as (Ho & He & Hs).
    split; [exact Ho|]. split; [lia|].
    rewrite Hs. cbn [N.size Pos.size]. lia.
  - split; [reflexivity|]. split; lia.
Qed.

(** A dyadic number of at most 53 significant bits within the exponent
    range is a binary64 value. *)
Lemma dyadic_binary64 (neg : bool) (m : N) (e : Z) :
  (N.size m <= 53)%N -> (-1074 <= e)%Z -> (Z.of_N (N.size m) + e <= 1024)%Z ->
  is_binary64 (dyadic neg m e) = true.
Proof.
  intros Hm He Hs. destruct m as [|p]; [reflexivity|].
  unfold dyadic.
  destruct (strip_zeros_spec p e) as (Ho & Hle & Hsz).
  destruct (strip_zeros p e) as [p' e']. cbn [fst snd] in *.
  cbn [is_binary64].
  rewrite Ho. cbn [andb].
  rewrite !andb_true_iff, !Z.leb_le, N.leb_le.
  split; [split|]; lia.
Qed.

Lemma float_of_bits32_binary64 (w : N) : is_binary64 (float_of_bits32 w) = true.
Proof.
  unfold float_of_bits32.
  set (E := N.land (N.shiftr w 23) 255).
  set (M := N.land w 8388607).
  assert (HE : (E <= 255)%N) by apply N.land_le_r.
  assert (HM : (M <= 8388607)%N) by apply N.land_le_r.
  clearbody E M.
  destruct (N.eqb_spec E 255) as [|HE'].
  { destruct (M =? 0)%N; reflexivity. }
  destruct (N.eqb_spec E 0) as [|HE0].
  - assert (N.size M <= 23)%N
      by (apply size_le_of_lt; change (2 ^ 23)%N with 8388608%N; lia).
    apply dyadic_binary64; lia.
  - assert (N.size (8388608 + M) <= 24)%N
      by (apply size_le_of_lt; change (2 ^ 24)%N with 16777216%N; lia).
    apply dyadic_binary64; lia.
Qed.

(** *** bin2pcd, then read_pcd *)

Lemma reread_points_within (pts : list point) :
  Forall (fun p => point_ok p = true) pts ->
  Forall2 (fun p p' => point_within_1e6 p p' = true) pts (map reread_point pts).
Proof.
  intros Hok. induction Hok as [|[[x y] z] r Hp _ IH]; [constructor|].
  cbn [map]. constructor; [|exact IH].
  unfold point_ok in Hp. rewrite !andb_true_iff, !negb_true_iff in Hp.
  destruct Hp as [[[[[Hx Hy] Hz] Nx] Ny] Nz].
  cbn [reread_point point_within_1e6].
  rewrite !reread_within_1e6 by assumption. reflexivity.
Qed.

(** The coordinates of the points of a KITTI file are binary64 values. *)
Lemma kitti_point_ok (file : bytes) (i : nat) :
  no_nan (kitti_point file i) = true -> point_ok (kitti_point file i) = true.
Proof.
  unfold kitti_point, no_nan, point_ok, float_at.
  rewrite !float_of_bits32_binary64. cbn [andb]. auto.
Qed.

(** X8.  When [bin_to_pcd] returns [N] points none of which has a NaN
    coordinate, [main] writes a PCD file that [read_pcd] reads back as
    [N] points, in the same order, each coordinate within [1e-6] of the
    float of the [.bin] file. *)
Theorem bin2pcd_main_read_pcd (file : bytes) (pts : list point) :
  bin_to_pcd file = Val pts ->
  Forall (fun p => no_nan p = true) pts ->
  exists out pts',
    main file = Val out
    /\ read_pcd out = Ok pts'
    /\ List.length pts' = List.length pts
    /\ Forall2 (fun p p' => point_within_1e6 p p' = true) pts pts'.
Proof.
  intros Hb Hn.
  exists (write_pcd pts), (map reread_point pts).
  split; [unfold main; rewrite Hb; reflexivity|].
  split; [apply read_write_pcd|]. split; [apply length_map|].
  apply reread_points_within.
  destruct (bin_to_pcd_returns _ Hb) as (n & _ & ->). clear Hb.
  apply Forall_forall. intros p Hp. assert (Hp' := Hp).
  apply in_map_iff in Hp' as (i & <- & _).
  apply kitti_point_ok.
  apply (proj1 (Forall_forall _ _) Hn). exact Hp.
Qed.

Lemma bin2pcd_main_read_pcd_witness :
  exists out pts',
    main bin_2_points = Val out
    /\ read_pcd out = Ok pts'
    /\ List.length pts' = 2
    /\ Forall2 (fun p p' => point_within_1e6 p p' = true)
               (map (kitti_point bin_2_points) (seq 0 2)) pts'.
Proof.
  apply (@bin2pcd_main_read_pcd bin_2_points
           (map (kitti_point bin_2_points) (seq 0 2))).
  - reflexivity.
  - repeat constructor.
Defined.

(** *** The script: loading and cleaning a cloud *)

(** X9.  On an array of rows [remove_nan_from_point_cloud] keeps, in
    their order, the rows that have at least one finite coordinate, a
    row with a NaN beside a finite coordinate included, and only drops
    the rows all of whose coordinates are NaN or infinite; cleaning the
    result again changes nothing. *)
Theorem remove_nan_keeps_rows_with_a_finite_value (rows : list (list float)) :
  exists rows',
    remove_nan_from_point_cloud (Rows rows) = Loaded (Rows rows')
    /\ (forall r, In r rows' <-> In r rows /\ exists x, In x r /\ isfinite x = true)
    /\ (forall a b, rows = a ++ b ->
         exists a' b',
           remove_nan_from_point_cloud (Rows a) = Loaded (Rows a')
           /\ remove_nan_from_point_cloud (Rows b) = Loaded (Rows b')
           /\ rows' = a' ++ b')
    /\ remove_nan_from_point_cloud (Rows rows') = Loaded (Rows rows').
Proof.
  exists (filter (existsb isfinite) rows).
  split; [reflexivity|]. split; [|split].
  - intros r. rewrite filter_In, existsb_exists. reflexivity.
  - intros a b ->. do 2 eexists.
    split; [reflexivity|]. split; [reflexivity|]. apply filter_app.
  - cbn [remove_nan_from_point_cloud]. do 2 f_equal.
    induction rows as [|r rows IH]; [reflexivity|].
    cbn [filter]. destruct (existsb isfinite r) eqn:Hr; [|exact IH].
    cbn [filter]. rewrite Hr, IH. reflexivity.
Qed.

(** X10.  The script fails with the [AxisError] of
    [remove_nan_from_point_cloud] exactly when the path ends in [.pcd]
    or [.ply] and the reader returns a cloud without points: the array
    of an empty list has one dimension.  A [.bin] file without points
    passes. *)
Theorem load_and_clean_empty_cloud (path : str) (file : bytes) :
  load_and_clean path file = Fails AxisError
  <-> endswith path (lit ".bin") = false
      /\ ((endswith path (lit ".pcd") = true /\ read_pcd file = Ok [])
          \/ (endswith path (lit ".pcd") = false
              /\ endswith path (lit ".ply") = true /\ read_ply file = Ok [])).
Proof.
  unfold load_and_clean, load.
  destruct (endswith path (lit ".bin")).
  { split.
    - destruct (read_bin file); cbn; intros H; discriminate.
    - intros [H _]. discriminate. }
  destruct (endswith path (lit ".pcd")).
  { destruct (read_pcd file) as [pts| |].
    - destruct pts as [|p pts]; cbn; split.
      + intros _. split; [reflexivity|]. left. split; reflexivity.
      + reflexivity.
      + discriminate.
      + intros [_ [[_ H]|[H _]]]; discriminate.
    - split; [discriminate|]. intros [_ [[_ H]|[H _]]]; discriminate.
    - split; [discriminate|]. intros [_ [[_ H]|[H _]]]; discriminate. }
  destruct (endswith path (lit ".ply")).
  { destruct (read_ply file) as [pts| |].
    - destruct pts as [|p pts]; cbn; split.
      + intros _. split; [reflexivity|]. right. repeat split; reflexivity.
      + reflexivity.
      + discriminate.
      + intros [_ [[H _]|[_ [_ H]]]]; discriminate.
    - split; [discriminate|]. intros [_ [[H _]|[_ [_ H]]]]; discriminate.
    - split; [discriminate|]. intros [_ [[H _]|[_ [_ H]]]]; discriminate. }
  split; [discriminate|]. intros [_ [[H _]|[_ [H _]]]]; discriminate.
Qed.

Lemma load_and_clean_empty_cloud_example :
  load_and_clean (lit "scan.pcd") pcd_ascii_empty = Fails AxisError
  /\ load_and_clean (lit "scan.ply") ply_ascii_empty = Fails AxisError
  /\ load_and_clean (lit "scan.bin") [] = Loaded (Rows []).
Proof.
  split; [|split].
  - apply (proj2 (load_and_clean_empty_cloud (lit "scan.pcd") pcd_ascii_empty)).
    split; [reflexivity|]. left. split; vm_compute; reflexivity.
  - apply (proj2 (load_and_clean_empty_cloud (lit "scan.ply") ply_ascii_empty)).
    split; [reflexivity|]. right. repeat split; vm_compute; reflexivity.
  - reflexivity.
Defined.

(** *** The header loop of read_pcd: what it leaves *)

Section WhileTrueEnd.
Variable S : Type.
Variable body : S -> step S.
Variable P : S -> Prop.
Hypothesis P_continue : forall s s', P s -> body s = Continue s' -> P s'.

(** A loop that ends is left by a [break] from a state in which the
    invariant of the rounds that go on holds. *)
Lemma while_true_end (n : nat) (s s' : S) :
  P s -> while_true body n s = Ok s' ->
  exists s0, P s0 /\ body s0 = Break s'.
Proof.
  revert s. induction n as [|n IH]; intros s Hs H; simpl in H; [discriminate|].
  destruct (body s) as [s1|s1|e] eqn:Hb.
  - apply (IH s1); [apply (P_continue Hs Hb) | assumption].
  - inversion H. subst s1. exists s. split; assumption.
  - discriminate.
Qed.
End WhileTrueEnd.

Lemma startswith_head (s p : str) (c : N) :
  startswith s (c :: p) = true -> exists r, s = c :: r.
Proof.
  destruct s as [|d r]; simpl; [discriminate|].
  destruct (N.eqb_spec c d); [|discriminate].
  subst. intros _. eexists. reflexivity.
Qed.

(** A line that starts with DATA starts with no keyword of another
    initial. *)
Lemma data_line_keyword (ls kw : str) :
  startswith ls (lit "DATA") = true ->
  match kw with k :: _ => (k =? 68)%N = false | [] => False end ->
  startswith ls kw = false.
Proof.
  intros HD Hk. change (lit "DATA") with (68 :: lit "ATA")%N in HD.
  apply startswith_head in HD. destruct HD as [r ->].
  destruct kw as [|k kw]; [contradiction|].
  cbn [startswith]. rewrite Hk. reflexivity.
Qed.

Ltac not_a_data_line HD :=
  rewrite ?(@data_line_keyword _ (lit "VERSION") HD eq_refl),
          ?(@data_line_keyword _ (lit "FIELDS") HD eq_refl),
          ?(@data_line_keyword _ (lit "SIZE") HD eq_refl),
          ?(@data_line_keyword _ (lit "TYPE") HD eq_refl),
          ?(@data_line_keyword _ (lit "COUNT") HD eq_refl),
          ?(@data_line_keyword _ (lit "WIDTH") HD eq_refl),
          ?(@data_line_keyword _ (lit "HEIGHT") HD eq_refl),
          ?(@data_line_keyword _ (lit "VIEWPOINT") HD eq_refl),
          ?(@data_line_keyword _ (lit "POINTS") HD eq_refl).

(** A round that goes on has read a line that is UTF-8 and does not
    start with DATA; it records the line and leaves the [data] key as it
    is. *)
Lemma pcd_header_body_continue (st st' : pcd_scan) :
  pcd_header_body st = Continue st' ->
  exists text,
    utf8_decode (fst (readline (pcd_f st))) = Some text
    /\ pcd_f st' = snd (readline (pcd_f st))
    /\ pcd_lines st' = pcd_lines st ++ [strip text]
    /\ startswith (strip text) (lit "DATA") = false
    /\ data (pcd_info st') = data (pcd_info st).
Proof.
  unfold pcd_header_body.
  destruct (readline (pcd_f st)) as [line f]. cbn [fst snd].
  destruct (utf8_decode line) as [text|]; [|discriminate].
  intros H. exists text. split; [reflexivity|]. revert H.
  unfold pcd_header_keyword. set (ls := strip text).
  destruct (startswith ls (lit "DATA")) eqn:HD.
  - not_a_data_line HD. destruct (word1 ls); discriminate.
  - repeat match goal with
           | |- context [if ?c then _ else _] => destruct c
           end;
      repeat match goal with
             | |- context [bind ?a _] => destruct a; simpl
             end;
      intros H; inversion H; repeat split; reflexivity.
Qed.

(** A round that leaves the loop has read a line that is not UTF-8, and
    changes nothing, or a line that starts with DATA, and sets the
    [data] key to the second word of the line. *)
Lemma pcd_header_body_break (st st' : pcd_scan) :
  pcd_header_body st = Break st' ->
  pcd_f st' = snd (readline (pcd_f st))
  /\ ((utf8_decode (fst (readline (pcd_f st))) = None
       /\ pcd_lines st' = pcd_lines st /\ pcd_info st' = pcd_info st)
      \/ exists text v,
           utf8_decode (fst (readline (pcd_f st))) = Some text
           /\ pcd_lines st' = pcd_lines st ++ [strip text]
           /\ startswith (strip text) (lit "DATA") = true
           /\ nth_error (split (strip text)) 1 = Some v
           /\ pcd_info st' = set_data v (pcd_info st)).
Proof.
  unfold pcd_header_body.
  destruct (readline (pcd_f st)) as [line f]. cbn [fst snd].
  destruct (utf8_decode line) as [text|].
  2:{ intros H. inversion H. cbn. split; [reflexivity|]. left. auto. }
  unfold pcd_header_keyword. set (ls := strip text).
  destruct (startswith ls (lit "DATA")) eqn:HD.
  - not_a_data_line HD. unfold word1.
    destruct (nth_error (split ls) 1) as [v|] eqn:Hv; [|discriminate].
    cbn [of_option]. intros H. inversion H. cbn.
    split; [reflexivity|]. right. exists text, v. auto.
  - repeat match goal with
           | |- context [if ?c then _ else _] => destruct c
           end;
      repeat match goal with
             | |- context [bind ?a _] => destruct a; simpl
             end;
      intros H; discriminate.
Qed.

(** X11.  When the header loop of [read_pcd] ends, either the last line
    it recorded is the first line that starts with DATA, and the [data]
    key is the second word of that line, or the loop was left at a line
    that is not UTF-8 before any line that starts with DATA: the
    [data] key was never set and [read_pcd] raises the [ValueError] of
    an unsupported format. *)
Theorem pcd_header_loop_end (file : bytes) (st : pcd_scan) :
  pcd_read_header file = Ok st ->
  (exists before l v,
      pcd_lines st = before ++ [l]
      /\ Forall (fun l' => startswith l' (lit "DATA") = false) before
      /\ startswith l (lit "DATA") = true
      /\ nth_error (split l) 1 = Some v
      /\ data (pcd_info st) = Some v)
  \/ (Forall (fun l' => startswith l' (lit "DATA") = false) (pcd_lines st)
      /\ data (pcd_info st) = None
      /\ read_pcd file = Raise ValueError_unsupported_pcd).
Proof.
  intros Hrh. assert (Hrh' := Hrh). unfold pcd_read_header in Hrh'.
  apply while_true_end
    with (P := fun s => Forall (fun l' => startswith l' (lit "DATA") = false)
                               (pcd_lines s)
                        /\ data (pcd_info s) = None) in Hrh'.
  - destruct Hrh' as (s0 & [Hl Hd] & Hb).
    apply pcd_header_body_break in Hb.
    destruct Hb as [_ [(_ & Hlines & Hinfo)|(text & v & _ & Hlines & HD & Hv & Hinfo)]].
    + right. rewrite Hlines, Hinfo. split; [exact Hl|]. split; [exact Hd|].
      unfold read_pcd. rewrite Hrh. unfold get_data. rewrite Hinfo, Hd.
      reflexivity.
    + left. exists (pcd_lines s0), (strip text), v.
      rewrite Hinfo. repeat split; assumption.
  - intros s s' [Hl Hd] Hb.
    apply pcd_header_body_continue in Hb.
    destruct Hb as (text & _ & _ & Hlines & HD & Hdata).
    rewrite Hlines, Hdata. split; [|exact Hd].
    apply Forall_app. split; [exact Hl|]. constructor; [exact HD | constructor].
  - split; [constructor | reflexivity].
Qed.

Lemma pcd_header_loop_end_witness :
  ((exists before l v,
       pcd_lines (pcd_scan_of pcd_xy) = before ++ [l]
       /\ Forall (fun l' => startswith l' (lit "DATA") = false) before
       /\ startswith l (lit "DATA") = true
       /\ nth_error (split l) 1 = Some v
       /\ data (pcd_info (pcd_scan_of pcd_xy)) = Some v)
   \/ (Forall (fun l' => startswith l' (lit "DATA") = false)
              (pcd_lines (pcd_scan_of pcd_xy))
       /\ data (pcd_info (pcd_scan_of pcd_xy)) = None
       /\ read_pcd pcd_xy = Raise ValueError_unsupported_pcd))
  /\ data (pcd_info (pcd_scan_of pcd_xy)) = Some (lit "binary")
  /\ pcd_read_header pcd_no_data_binary = Ok (pcd_scan_of pcd_no_data_binary)
  /\ read_pcd pcd_no_data_binary = Raise ValueError_unsupported_pcd.
Proof.
  split; [|repeat split; vm_compute; reflexivity].
  apply (@pcd_header_loop_end pcd_xy (pcd_scan_of pcd_xy)).
  vm_compute. reflexivity.
Defined.

(** *** The header size and the bytes read by the header loop *)

Ltac bool_hyps H :=
  repeat first
    [ rewrite andb_true_iff in H | rewrite orb_true_iff in H
    | rewrite negb_true_iff in H | rewrite N.leb_le in H
    | rewrite N.eqb_neq in H | rewrite N.ltb_lt in H ].

Lemma utf8_len_1 (c : N) : (c < 128)%N -> utf8_len c = 1.
Proof. intros H. unfold utf8_len. destruct (N.ltb_spec c 128); [reflexivity | lia]. Qed.

Lemma utf8_len_2 (c : N) : (128 <= c < 2048)%N -> utf8_len c = 2.
Proof.
  intros H. unfold utf8_len.
  destruct (N.ltb_spec c 128); [lia|].
  destruct (N.ltb_spec c 2048); [reflexivity | lia].
Qed.

Lemma utf8_len_3 (c : N) : (2048 <= c < 65536)%N -> utf8_len c = 3.
Proof.
  intros H. unfold utf8_len.
  destruct (N.ltb_spec c 128); [lia|].
  destruct (N.ltb_spec c 2048); [lia|].
  destruct (N.ltb_spec c 65536); [reflexivity | lia].
Qed.

Lemma utf8_len_4 (c : N) : (65536 <= c)%N -> utf8_len c = 4.
Proof.
  intros H. unfold utf8_len.
  destruct (N.ltb_spec c 128); [lia|].
  destruct (N.ltb_spec c 2048); [lia|].
  destruct (N.ltb_spec c 65536); [lia | reflexivity].
Qed.

(** A text takes as many bytes as the bytes it was decoded from. *)
Lemma utf8_decode_length (bs : bytes) (s : str) :
  utf8_decode bs = Some s -> encoded_len s = List.length bs.
Proof.
  remember (List.length bs) as n eqn:Hn. revert bs Hn s.
  induction n as [n IH] using lt_wf_ind. intros bs Hn s H.
  destruct bs as [|b0 r0]; [inversion H; subst; reflexivity|].
  cbn [utf8_decode] in H. cbv zeta in H.
  set (n0 := Byte.to_N b0) in *.
  destruct (N.ltb_spec n0 128) as [H1|H1].
  { destruct (utf8_decode r0) as [t|] eqn:Hr; [|discriminate].
    inversion H; subst s. cbn [encoded_len fold_right]. fold (encoded_len t).
    rewrite (IH (List.length r0)) with (bs := r0) (s := t);
      [| subst n; simpl; lia | reflexivity | assumption].
    rewrite utf8_len_1 by assumption. subst n. reflexivity. }
  destruct ((194 <=? n0) && (n0 <=? 223))%N eqn:H2.
  { destruct r0 as [|b1 r1]; [discriminate|].
    set (n1 := Byte.to_N b1) in *.
    destruct (is_cont n1) eqn:Hc; [|discriminate].
    destruct (utf8_decode r1) as [t|] eqn:Hr; [|discriminate].
    inversion H; subst s. cbn [encoded_len fold_right]. fold (encoded_len t).
    rewrite (IH (List.length r1)) with (bs := r1) (s := t);
      [| subst n; simpl; lia | reflexivity | assumption].
    unfold is_cont in Hc. bool_hyps H2. bool_hyps Hc.
    rewrite utf8_len_2 by lia. subst n. reflexivity. }
  destruct ((224 <=? n0) && (n0 <=? 239))%N eqn:H3.
  { destruct r0 as [|b1 [|b2 r2]]; try discriminate.
    set (n1 := Byte.to_N b1) in *. set (n2 := Byte.to_N b2) in *.
    match type of H with (if ?c then _ else _) = _ => destruct c eqn:Hc end;
      [|discriminate].
    destruct (utf8_decode r2) as [t|] eqn:Hr; [|discriminate].
    inversion H; subst s. cbn [encoded_len fold_right]. fold (encoded_len t).
    rewrite (IH (List.length r2)) with (bs := r2) (s := t);
      [| subst n; simpl; lia | reflexivity | assumption].
    unfold is_cont in Hc. bool_hyps H3. bool_hyps Hc.
    rewrite utf8_len_3 by lia. subst n. reflexivity. }
  destruct ((240 <=? n0) && (n0 <=? 244))%N eqn:H4; [|discriminate].
  destruct r0 as [|b1 [|b2 [|b3 r3]]]; try discriminate.
  set (n1 := Byte.to_N b1) in *. set (n2 := Byte.to_N b2) in *.
  set (n3 := Byte.to_N b3) in *.
  match type of H with (if ?c then _ else _) = _ => destruct c eqn:Hc end;
    [|discriminate].
  destruct (utf8_decode r3) as [t|] eqn:Hr; [|discriminate].
  inversion H; subst s. cbn [encoded_len fold_right]. fold (encoded_len t).
  rewrite (IH (List.length r3)) with (bs := r3) (s := t);
    [| subst n; simpl; lia | reflexivity | assumption].
  unfold is_cont in Hc. bool_hyps H4. bool_hyps Hc.
  rewrite utf8_len_4 by lia. subst n. reflexivity.
Qed.

(** The text of bytes that end with an ASCII byte ends with that
    character. *)
Lemma utf8_decode_snoc_ascii (l : bytes) (x : byte) (text : str) :
  (Byte.to_N x < 128)%N ->
  utf8_decode (l ++ [x]) = Some text ->
  exists t, text = t ++ [Byte.to_N x].
Proof.
  intros Hx.
  assert (Hnc : is_cont (Byte.to_N x) = false).
  { unfold is_cont. destruct (N.leb_spec 128 (Byte.to_N x)); [lia | reflexivity]. }
  remember (List.length l) as n eqn:Hn. revert l Hn text.
  induction n as [n IH] using lt_wf_ind. intros l Hn text H.
  destruct l as [|b0 r0].
  { cbn [app utf8_decode] in H. cbv zeta in H.
    destruct (N.ltb_spec (Byte.to_N x) 128); [|lia].
    inversion H. exists []. reflexivity. }
  cbn [app utf8_decode] in H. cbv zeta in H.
  set (n0 := Byte.to_N b0) in *.
  destruct (n0 <? 128)%N.
  { destruct (utf8_decode (r0 ++ [x])) as [t|] eqn:Hr; [|discriminate].
    inversion H; subst text.
    destruct (IH (List.length r0)) with (l := r0) (text := t) as [t' ->];
      [subst n; simpl; lia | reflexivity | assumption |].
    exists (n0 :: t'). reflexivity. }
  destruct ((194 <=? n0) && (n0 <=? 223))%N.
  { destruct r0 as [|b1 r1]; cbn [app] in H.
    - rewrite Hnc in H. discriminate.
    - destruct (is_cont (Byte.to_N b1)); [|discriminate].
      destruct (utf8_decode (r1 ++ [x])) as [t|] eqn:Hr; [|discriminate].
      inversion H; subst text.
      destruct (IH (List.length r1)) with (l := r1) (text := t) as [t' ->];
        [subst n; simpl; lia | reflexivity | assumption |].
      eexists (_ :: t'). reflexivity. }
  destruct ((224 <=? n0) && (n0 <=? 239))%N.
  { destruct r0 as [|b1 [|b2 r2]]; cbn [app] in H.
    - discriminate.
    - rewrite Hnc, andb_false_r in H. discriminate.
    - match type of H with (if ?c then _ else _) = _ => destruct c end;
        [|discriminate].
      destruct (utf8_decode (r2 ++ [x])) as [t|] eqn:Hr; [|discriminate].
      inversion H; subst text.
      destruct (IH (List.length r2)) with (l := r2) (text := t) as [t' ->];
        [subst n; simpl; lia | reflexivity | assumption |].
      eexists (_ :: t'). reflexivity. }
  destruct ((240 <=? n0) && (n0 <=? 244))%N; [|discriminate].
  destruct r0 as [|b1 [|b2 [|b3 r3]]]; cbn [app] in H.
  - discriminate.
  - discriminate.
  - rewrite Hnc, andb_false_r in H. discriminate.
  - match type of H with (if ?c then _ else _) = _ => destruct c end;
      [|discriminate].
    destruct (utf8_decode (r3 ++ [x])) as [t|] eqn:Hr; [|discriminate].
    inversion H; subst text.
    destruct (IH (List.length r3)) with (l := r3) (text := t) as [t' ->];
      [subst n; simpl; lia | reflexivity | assumption |].
    eexists (_ :: t'). reflexivity.
Qed.

Lemma encoded_len_app (a b : str) :
  encoded_len (a ++ b) = encoded_len a + encoded_len b.
Proof.
  induction a as [|c a IH]; [reflexivity|].
  cbn [app encoded_len fold_right]. fold (encoded_len (a ++ b)) (encoded_len a).
  rewrite IH. lia.
Qed.

Lemma encoded_len_rev (a : str) : encoded_len (rev a) = encoded_len a.
Proof.
  induction a as [|c a IH]; [reflexivity|].
  cbn [rev]. rewrite encoded_len_app, IH.
  cbn [encoded_len fold_right]. fold (encoded_len a). lia.
Qed.

Lemma encoded_len_lstrip (a : str) : encoded_len (lstrip a) <= encoded_len a.
Proof.
  induction a as [|c a IH]; [reflexivity|].
  cbn [lstrip]. destruct (isspace c); [|reflexivity].
  cbn [encoded_len fold_right]. fold (encoded_len a). lia.
Qed.

Lemma encoded_len_strip (a : str) : encoded_len (strip a) <= encoded_len a.
Proof.
  unfold strip, rstrip. rewrite encoded_len_rev.
  etransitivity; [apply encoded_len_lstrip|].
  rewrite encoded_len_rev. apply encoded_len_lstrip.
Qed.

(** White space at the end of a text is stripped. *)
Lemma strip_snoc_space (t : str) (c : N) :
  isspace c = true -> strip (t ++ [c]) = strip t.
Proof.
  intros Hc. unfold strip.
  assert (Hl : lstrip (t ++ [c])
               = match lstrip t with [] => [] | _ => lstrip t ++ [c] end).
  { induction t as [|d t IH].
    - cbn. rewrite Hc. reflexivity.
    - cbn [app lstrip]. destruct (isspace d); [exact IH | reflexivity]. }
  rewrite Hl. destruct (lstrip t) as [|d u] eqn:Hu; [reflexivity|].
  unfold rstrip. rewrite rev_app_distr. cbn [rev app lstrip]. rewrite Hc.
  reflexivity.
Qed.

(** A line before the end of the file ends with a line feed. *)
Lemma readline_lf (f : bytes) :
  snd (readline f) <> [] -> exists l, fst (readline f) = l ++ ["010"%byte].
Proof.
  induction f as [|b r IH]; cbn [readline].
  - cbn. congruence.
  - destruct (Byte.eqb b "010") eqn:Hb.
    + intros _. exists []. apply Byte.byte_dec_bl in Hb. subst b. reflexivity.
    + destruct (readline r) as [l r']. cbn [fst snd] in *.
      intros Hr. destruct (IH Hr) as [l' ->]. exists (b :: l'). reflexivity.
Qed.

(** The header size counts, for a line that is followed by more bytes,
    no more than the bytes of the line. *)
Lemma header_line_size (f : bytes) (text : str) :
  snd (readline f) <> [] ->
  utf8_decode (fst (readline f)) = Some text ->
  encoded_len (strip text) + 1 <= List.length (fst (readline f)).
Proof.
  intros Hr Hd. destruct (readline_lf f Hr) as [l Hl].
  rewrite Hl in Hd |- *. rewrite <- (utf8_decode_length _ Hd).
  destruct (@utf8_decode_snoc_ascii l "010"%byte text) as [t ->];
    [reflexivity | assumption |].
  change (Byte.to_N "010") with 10%N.
  rewrite strip_snoc_space by reflexivity.
  rewrite encoded_len_app. cbn [encoded_len fold_right].
  pose proof (encoded_len_strip t). cbn. lia.
Qed.

Lemma header_size_app (a : list str) (l : str) :
  header_size (a ++ [l]) = header_size a + (encoded_len l + 1).
Proof.
  induction a as [|x a IH]; cbn [app header_size fold_right].
  - lia.
  - fold (header_size (a ++ [l])) (header_size a). rewrite IH. lia.
Qed.

Lemma readline_app (f : bytes) : f = fst (readline f) ++ snd (readline f).
Proof.
  induction f as [|b r IH]; cbn [readline]; [reflexivity|].
  destruct (Byte.eqb b "010"); [reflexivity|].
  destruct (readline r) as [l r']. cbn [fst snd app] in *. congruence.
Qed.

(** What a round of the header loop does to the bytes read and to the
    header size, whether it goes on or leaves the loop. *)
Lemma pcd_header_round_size (file : bytes) (s s' : pcd_scan) :
  pcd_header_body s = Continue s' \/ pcd_header_body s = Break s' ->
  (exists read, file = read ++ pcd_f s
                /\ (pcd_f s <> [] -> header_size (pcd_lines s) <= List.length read)) ->
  exists read, file = read ++ pcd_f s'
               /\ (pcd_f s' <> [] -> header_size (pcd_lines s') <= List.length read).
Proof.
  intros Hb (read & Hfile & Hsize).
  assert (Hcases :
            pcd_f s' = snd (readline (pcd_f s))
            /\ (pcd_lines s' = pcd_lines s
                \/ exists text, utf8_decode (fst (readline (pcd_f s))) = Some text
                                /\ pcd_lines s' = pcd_lines s ++ [strip text])).
  { destruct Hb as [Hb|Hb].
    - apply pcd_header_body_continue in Hb.
      destruct Hb as (text & Hd & Hf & Hl & _). split; [exact Hf|].
      right. exists text. auto.
    - apply pcd_header_body_break in Hb.
      destruct Hb as [Hf [(_ & Hl & _)|(text & v & Hd & Hl & _)]].
      + split; [exact Hf|]. left. exact Hl.
      + split; [exact Hf|]. right. exists text. auto. }
  destruct Hcases as [Hf Hl].
  exists (read ++ fst (readline (pcd_f s))). split.
  - rewrite Hf, <- app_assoc, <- readline_app. exact Hfile.
  - intros Hne. rewrite Hf in Hne.
    assert (Hs : pcd_f s <> []).
    { intros He. rewrite He in Hne. apply Hne. reflexivity. }
    specialize (Hsize Hs). rewrite length_app.
    destruct Hl as [->|(text & Hd & ->)]; [lia|].
    rewrite header_size_app.
    pose proof (header_line_size _ Hne Hd). lia.
Qed.

(** X12.  The bytes read by the header loop of [read_pcd] are a prefix
    of the file, and when the loop ends before the end of the file, the
    header size computed from the stripped lines is at most their
    number: the offset of [f.seek(header_size)] is never beyond the
    first byte after the header. *)
Theorem pcd_header_size_bound (file : bytes) (st : pcd_scan) :
  pcd_read_header file = Ok st ->
  exists read,
    file = read ++ pcd_f st
    /\ (pcd_f st <> [] -> header_size (pcd_lines st) <= List.length read).
Proof.
  intros Hrh. unfold pcd_read_header in Hrh.
  apply while_true_end
    with (P := fun s =>
                 exists read, file = read ++ pcd_f s
                   /\ (pcd_f s <> [] -> header_size (pcd_lines s) <= List.length read))
    in Hrh.
  - destruct Hrh as (s0 & HP & Hb).
    apply (@pcd_header_round_size file s0 st); [right; exact Hb | exact HP].
  - intros s s' HP Hb.
    apply (@pcd_header_round_size file s s'); [left; exact Hb | exact HP].
  - exists []. split; [reflexivity|]. intros _. cbn. lia.
Qed.

Lemma pcd_header_size_bound_witness :
  (exists read,
      pcd_crlf = read ++ pcd_f (pcd_scan_of pcd_crlf)
      /\ (pcd_f (pcd_scan_of pcd_crlf) <> [] ->
          header_size (pcd_lines (pcd_scan_of pcd_crlf)) <= List.length read))
  /\ List.length pcd_crlf - List.length (pcd_f (pcd_scan_of pcd_crlf)) = 37
  /\ header_size (pcd_lines (pcd_scan_of pcd_crlf)) = 34.
Proof.
  split; [|split; vm_compute; reflexivity].
  apply (@pcd_header_size_bound pcd_crlf (pcd_scan_of pcd_crlf)).
  vm_compute. reflexivity.
Defined.

(** *** The header written by write_pcd, read back *)

Lemma encoded_len_print (s : str) :
  Forall (fun c => is_print c = true) s -> encoded_len s = List.length s.
Proof.
  induction 1 as [|c r Hc _ IH]; [reflexivity|].
  cbn [encoded_len fold_right List.length]. fold (encoded_len r).
  apply is_print_range in Hc. rewrite utf8_len_1 by lia. rewrite IH. reflexivity.
Qed.

Lemma lines_bytes_app (a b : list str) :
  lines_bytes (a ++ b) = lines_bytes a ++ lines_bytes b.
Proof. unfold lines_bytes. rewrite map_app, concat_app, map_app. reflexivity. Qed.

(** For printable lines ending in a line feed the header size is the
    number of their bytes. *)
Lemma header_size_print (contents : list str) :
  Forall (Forall (fun c => is_print c = true)) contents ->
  header_size contents = List.length (lines_bytes contents).
Proof.
  induction 1 as [|c r Hc _ IH]; [reflexivity|].
  rewrite lines_bytes_cons, length_app, length_map.
  cbn [header_size fold_right]. fold (header_size r).
  rewrite IH, (encoded_len_print Hc). unfold with_nl, nl.
  rewrite length_app. simpl. lia.
Qed.

(** X13.  From the header that [write_pcd] writes for [N] points
    [read_pcd] gathers version 0.7, the fields x, y, z, the sizes
    4, 4, 4, the types F, F, F, the counts 1, 1, 1, width [N],
    height 1, the viewpoint 0 0 0 1 0 0 0, [N] points and the data mode
    ascii; the header size it computes is the offset of the first point
    line in the file. *)
Theorem write_pcd_header_read_back (pts : list point) :
  info_of (write_pcd pts) = written_header_info (N.of_nat (List.length pts))
  /\ skipn (header_size_of (write_pcd pts)) (write_pcd pts)
     = lines_bytes (map pcd_point_content pts).
Proof.
  unfold info_of, header_size_of, pcd_scan_of.
  rewrite write_pcd_header. cbn [pcd_info pcd_lines].
  split; [reflexivity|].
  rewrite write_pcd_bytes, lines_bytes_app.
  rewrite (header_size_print (pcd_header_contents_print _)).
  rewrite skipn_app, Nat.sub_diag, skipn_all. reflexivity.
Qed.

(** *** The exceptions of read_pcd *)

Lemma while_true_raise {S} (body : S -> step S) (n : nat) (s : S) (e : exn) :
  while_true body n s = Raise e -> exists s0, body s0 = Throw e.
Proof.
  revert s. induction n as [|n IH]; intros s H; simpl in H; [discriminate|].
  destruct (body s) as [s1|s1|e1] eqn:Hb.
  - apply (IH s1). assumption.
  - discriminate.
  - inversion H. subst e1. exists s. assumption.
Qed.

Lemma map_try_exc {A B} (f : A -> try B) (P : exn -> Prop) (xs : list A) (e : exn) :
  (forall x e', f x = Exc e' -> P e') -> map_try f xs = Exc e -> P e.
Proof.
  intros Hf. induction xs as [|x r IH]; cbn [map_try]; [discriminate|].
  destruct (f x) as [y|e'] eqn:Hx; cbn [bind].
  - destruct (map_try f r) as [ys|e'']; cbn [bind]; [discriminate|].
    intros H. inversion H. subst e''. apply IH. reflexivity.
  - intros H. inversion H. subst e'. apply (Hf x). assumption.
Qed.

Lemma word1_exc (l : str) (e : exn) : word1 l = Exc e -> e = IndexError.
Proof.
  unfold word1. destruct (nth_error (split l) 1); cbn; [discriminate|].
  intros H. inversion H. reflexivity.
Qed.

Lemma int_exc (w : str) (e : exn) : int w = Exc e -> e = ValueError_int.
Proof.
  unfold int. destruct (int_of_str w); cbn; [discriminate|].
  intros H. inversion H. reflexivity.
Qed.

Lemma float_exc (w : str) (e : exn) : float_ w = Exc e -> e = ValueError_float.
Proof.
  unfold float_. destruct (float_of_str w); cbn; [discriminate|].
  intros H. inversion H. reflexivity.
Qed.

Lemma item_exc {A} (xs : list A) (i : nat) (e : exn) :
  item xs i = Exc e -> e = IndexError.
Proof.
  unfold item. destruct (nth_error xs i); cbn; [discriminate|].
  intros H. inversion H. reflexivity.
Qed.

(** A round of the header loop raises only for a missing word or a word
    that is no number. *)
Lemma pcd_header_body_throw (st : pcd_scan) (e : exn) :
  pcd_header_body st = Throw e ->
  e = IndexError \/ e = ValueError_int \/ e = ValueError_float.
Proof.
  unfold pcd_header_body.
  destruct (readline (pcd_f st)) as [line f].
  destruct (utf8_decode line) as [text|]; [|discriminate].
  unfold pcd_header_keyword. set (ls := strip text).
  repeat match goal with
         | |- context [if ?c then _ else _] => destruct c
         end;
    try discriminate;
    repeat match goal with
           | |- context [word1 ?a] =>
             let H := fresh "Hw" in
             destruct (word1 a) eqn:H; [|apply word1_exc in H]; cbn [bind]
           | |- context [int ?a] =>
             let H := fresh "Hi" in
             destruct (int a) eqn:H; [|apply int_exc in H]; cbn [bind]
           | |- context [map_try int ?a] =>
             let H := fresh "Hm" in
             destruct (map_try int a) eqn:H;
             [|apply (map_try_exc int (fun e => e = ValueError_int)) in H;
               [|apply int_exc]]; cbn [bind]
           | |- context [map_try float_ ?a] =>
             let H := fresh "Hm" in
             destruct (map_try float_ a) eqn:H;
             [|apply (map_try_exc float_ (fun e => e = ValueError_float)) in H;
               [|apply float_exc]]; cbn [bind]
           end;
    try discriminate;
    intros H; inversion H; subst; auto.
Qed.

Lemma pcd_ascii_loop_exc (lines : list str) (pts : list point) (e : exn) :
  pcd_ascii_loop lines pts = Exc e -> e = ValueError_float.
Proof.
  revert pts. induction lines as [|l r IH]; intros pts; cbn [pcd_ascii_loop].
  - discriminate.
  - destruct (strip l) as [|c s]; [apply IH|].
    destruct (map_try float_ (split (c :: s))) as [vs|e'] eqn:Hm; cbn [bind].
    + destruct vs as [|x [|y [|z vs]]]; apply IH.
    + intros H. inversion H. subst e'.
      apply (map_try_exc float_ (fun e => e = ValueError_float)) in Hm;
        [assumption | apply float_exc].
Qed.

Lemma pcd_binary_loop_exc (fs : list str) (xi yi zi n : nat) (f : bytes)
      (pts : list point) (e : exn) :
  pcd_binary_loop fs xi yi zi n f pts = Exc e -> e = IndexError.
Proof.
  revert f pts. induction n as [|n IH]; intros f pts; cbn [pcd_binary_loop].
  - discriminate.
  - destruct (pcd_read_fields fs f []) as [vs f'].
    destruct (3 <=? List.length vs); [|apply IH].
    destruct (item vs xi) eqn:Hx; cbn [bind];
      [|apply item_exc in Hx; intros H; inversion H; congruence].
    destruct (item vs yi) eqn:Hy; cbn [bind];
      [|apply item_exc in Hy; intros H; inversion H; congruence].
    destruct (item vs zi) eqn:Hz; cbn [bind];
      [|apply item_exc in Hz; intros H; inversion H; congruence].
    apply IH.
Qed.

(** X14.  The exceptions of [read_pcd]: an [IndexError] or the
    [ValueError] of [int()] or [float()] from a header line, the
    [ValueError] of an unsupported format, in ASCII mode a
    [UnicodeDecodeError] or the [ValueError] of [float()], in binary
    mode an [IndexError] and nothing else.  A short read never raises:
    there is no [struct.error]. *)
Theorem read_pcd_exceptions (file : bytes) (e : exn) :
  read_pcd file = Raise e ->
  (pcd_read_header file = Raise e
   /\ (e = IndexError \/ e = ValueError_int \/ e = ValueError_float))
  \/ (exists st, pcd_read_header file = Ok st
       /\ ((upper (get_data (pcd_info st)) = lit "ASCII"
            /\ (e = UnicodeDecodeError \/ e = ValueError_float))
           \/ (upper (get_data (pcd_info st)) = lit "BINARY" /\ e = IndexError)
           \/ (upper (get_data (pcd_info st)) <> lit "ASCII"
               /\ upper (get_data (pcd_info st)) <> lit "BINARY"
               /\ e = ValueError_unsupported_pcd))).
Proof.
  unfold read_pcd.
  destruct (pcd_read_header file) as [st|e'|] eqn:Hrh; [| |discriminate].
  - intros H. right. exists st. split; [reflexivity|].
    destruct (str_eqb (upper (get_data (pcd_info st))) (lit "ASCII")) eqn:Ha.
    + left. split; [apply str_eqb_eq; assumption|].
      unfold read_pcd_ascii, text_readlines in H.
      destruct (utf8_decode file) as [s|]; cbn [bind finish] in H.
      * destruct (pcd_ascii_loop _ _) as [pts|e''] eqn:Hl; [discriminate|].
        cbn in H. inversion H. subst e''. right.
        apply (pcd_ascii_loop_exc _ _ Hl).
      * inversion H. left. reflexivity.
    + destruct (str_eqb (upper (get_data (pcd_info st))) (lit "BINARY")) eqn:Hb.
      * right. left. split; [apply str_eqb_eq; assumption|].
        unfold read_pcd_binary in H.
        destruct (pcd_binary_loop _ _ _ _ _ _ _) as [pts|e''] eqn:Hl;
          [discriminate|].
        cbn in H. inversion H. subst e''.
        apply (pcd_binary_loop_exc _ _ _ _ _ _ _ Hl).
      * right. right. inversion H.
        split; [|split; [|reflexivity]]; intros Heq;
          apply str_eqb_eq in Heq; congruence.
  - intros H. inversion H. subst e'. left. split; [reflexivity|].
    unfold pcd_read_header in Hrh. apply while_true_raise in Hrh.
    destruct Hrh as [s0 Hs0]. apply (pcd_header_body_throw _ Hs0).
Qed.

Lemma read_pcd_exceptions_witness :
  read_pcd pcd_ixyz_cut4 = Raise IndexError
  /\ ((pcd_read_header pcd_ixyz_cut4 = Raise IndexError
       /\ (IndexError = IndexError \/ IndexError = ValueError_int
           \/ IndexError = ValueError_float))
      \/ (exists st, pcd_read_header pcd_ixyz_cut4 = Ok st
           /\ ((upper (get_data (pcd_info st)) = lit "ASCII"
                /\ (IndexError = UnicodeDecodeError \/ IndexError = ValueError_float))
               \/ (upper (get_data (pcd_info st)) = lit "BINARY"
                   /\ IndexError = IndexError)
               \/ (upper (get_data (pcd_info st)) <> lit "ASCII"
                   /\ upper (get_data (pcd_info st)) <> lit "BINARY"
                   /\ IndexError = ValueError_unsupported_pcd)))).
Proof.
  assert (H : read_pcd pcd_ixyz_cut4 = Raise IndexError) by (vm_compute; reflexivity).
  split; [exact H|].
  apply (@read_pcd_exceptions pcd_ixyz_cut4 IndexError H).
Defined.

(** *** read_bin: bytes after the last whole float *)

Lemma np_fromfile_trailing (n : nat) (file tail : bytes) :
  List.length file = 4 * n -> List.length tail < 4 ->
  np_fromfile_float32 (file ++ tail) = np_fromfile_float32 file.
Proof.
  intros Hlen Ht. revert file Hlen. induction n as [|n IH]; intros file Hlen.
  - destruct file; [|simpl in Hlen; lia]. cbn [app].
    do 4 (destruct tail as [|? tail]; [reflexivity|]). simpl in Ht. lia.
  - do 4 (destruct file as [|? file]; [simpl in Hlen; lia|]).
    cbn [app np_fromfile_float32]. f_equal. apply IH. simpl in Hlen. lia.
Qed.

(** X15.  [read_bin] does not see up to three bytes that follow the
    last whole float of a file: with or without them the outcome is the
    same. *)
Theorem read_bin_trailing_bytes (file tail : bytes) :
  List.length file mod 4 = 0 -> List.length tail < 4 ->
  read_bin (file ++ tail) = read_bin file.
Proof.
  intros Hm Ht. unfold read_bin.
  pose proof (Nat.div_mod_eq (List.length file) 4) as Hdm.
  rewrite (@np_fromfile_trailing (List.length file / 4)); [reflexivity| lia |assumption].
Qed.

Lemma read_bin_trailing_bytes_witness :
  read_bin (bin_2_points ++ blit "xyz") = read_bin bin_2_points.
Proof.
  apply (@read_bin_trailing_bytes bin_2_points (blit "xyz")).
  - reflexivity.
  - simpl. lia.
Defined.

(** *** Coordinates that six decimals hold exactly *)

Lemma NQ_inj (a b : N) : (NQ a == NQ b)%Q -> a = b.
Proof. unfold NQ. intros H. apply N2Z.inj. apply inject_Z_injective. exact H. Qed.

Lemma NQ_pow2_zero (m : N) (e : Z) : (NQ m * pow2 e == 0)%Q -> m = 0%N.
Proof.
  intros H. pose proof (pow2_pos e) as Hp.
  apply NQ_inj. change (NQ 0) with 0%Q.
  apply Qmult_integral in H. destruct H as [H|H]; [exact H | lra].
Qed.

(** Two dyadic numbers in lowest terms of the same value are the same. *)
Lemma canonical_le (m1 m2 : N) (e1 e2 : Z) :
  N.odd m1 = true -> (e1 <= e2)%Z ->
  (NQ m1 * pow2 e1 == NQ m2 * pow2 e2)%Q ->
  m1 = m2 /\ e1 = e2.
Proof.
  intros Ho Hle H.
  assert (H' : (NQ m1 == NQ m2 * pow2 (e2 - e1))%Q).
  { pose proof (pow2_pos e1) as Hp. pose proof (pow2_sub e2 e1) as Hs.
    apply (Qmult_inj_r _ _ (pow2 e1)); [lra|].
    rewrite H, <- Qmult_assoc, Hs. reflexivity. }
  rewrite pow2_Z in H' by lia. unfold NQ in H'.
  rewrite <- inject_Z_mult in H'. apply -> inject_Z_injective in H'.
  destruct (Z.eq_dec e1 e2) as [->|Hne].
  - rewrite Z.sub_diag in H'. simpl in H'. split; [lia | reflexivity].
  - exfalso.
    replace (e2 - e1)%Z with (Z.succ (e2 - e1 - 1)) in H' by lia.
    rewrite Z.pow_succ_r in H' by lia.
    apply N.odd_spec in Ho. destruct Ho as [a Ha].
    set (t := (2 ^ (e2 - e1 - 1))%Z) in *. clearbody t.
    set (u := (Z.of_N m2 * t)%Z).
    assert (Hu : Z.of_N m1 = (2 * u)%Z) by (unfold u; lia).
    clearbody u. lia.
Qed.

Lemma canonical_unique (m1 m2 : N) (e1 e2 : Z) :
  N.odd m1 = true -> N.odd m2 = true ->
  (NQ m1 * pow2 e1 == NQ m2 * pow2 e2)%Q ->
  m1 = m2 /\ e1 = e2.
Proof.
  intros H1 H2 H. destruct (Z_le_gt_dec e1 e2) as [Hle|Hgt].
  - apply canonical_le; assumption.
  - destruct (@canonical_le m2 m1 e2 e1 H2) as [-> ->];
      [lia | symmetry; exact H | split; reflexivity].
Qed.

(** [dyadic] returns the binary64 term of a value. *)
Lemma dyadic_canonical (neg : bool) (M m : N) (E e : Z) :
  is_binary64 (Fin neg m e) = true ->
  (NQ M * pow2 E == NQ m * pow2 e)%Q ->
  dyadic neg M E = Fin neg m e.
Proof.
  intros Hb H. destruct m as [|p].
  - cbn [is_binary64] in Hb. apply Z.eqb_eq in Hb. subst e.
    change (NQ 0) with 0%Q in H. rewrite Qmult_0_l in H.
    apply NQ_pow2_zero in H. subst M. reflexivity.
  - destruct M as [|P].
    { symmetry in H. change (NQ 0) with 0%Q in H. rewrite Qmult_0_l in H.
      apply NQ_pow2_zero in H. discriminate. }
    unfold dyadic.
    destruct (strip_zeros_spec P E) as (Ho & _ & _).
    pose proof (strip_zeros_value P E) as Hv.
    destruct (strip_zeros P E) as [p' e']. cbn [fst snd] in *.
    cbn [is_binary64] in Hb. rewrite !andb_true_iff in Hb.
    destruct Hb as [[[Hodd _] _] _].
    rewrite H in Hv.
    destruct (@canonical_unique _ _ _ _ Ho Hodd Hv) as [Hp' He'].
    inversion Hp'. subst. reflexivity.
Qed.

Lemma rne_div_exact (a b : N) : (0 < b)%N -> rne_div (a * b) b = a.
Proof.
  intros Hb. unfold rne_div.
  rewrite N.Div0.mod_mul, N.div_mul by lia.
  destruct b; [lia | reflexivity].
Qed.

(** Six decimals hold a multiple of [2^-6] exactly. *)
Lemma micro_exact (m : N) (e : Z) :
  (-6 <= e)%Z -> (NQ (micro m e) / 1000000 == NQ m * pow2 e)%Q.
Proof.
  intros He. unfold micro. destruct (Z.leb_spec 0 e) as [H0|H0].
  - rewrite !NQ_mul, NQ_pow2 by assumption.
    unfold NQ; simpl inject_Z; field.
  - assert (Hc : e = (-1)%Z \/ e = (-2)%Z \/ e = (-3)%Z \/ e = (-4)%Z
                 \/ e = (-5)%Z \/ e = (-6)%Z) by lia.
    destruct Hc as [->|[->|[->|[->|[->| ->]]]]]; cbn [Z.opp Z.to_N].
    + change (2 ^ 1)%N with 2%N.
      replace (m * 1000000)%N with ((m * 500000) * 2)%N by lia.
      rewrite rne_div_exact by lia. rewrite NQ_mul.
      change (pow2 (-1)) with (1 # 2)%Q. unfold NQ; simpl inject_Z; field.
    + change (2 ^ 2)%N with 4%N.
      replace (m * 1000000)%N with ((m * 250000) * 4)%N by lia.
      rewrite rne_div_exact by lia. rewrite NQ_mul.
      change (pow2 (-2)) with (1 # 4)%Q. unfold NQ; simpl inject_Z; field.
    + change (2 ^ 3)%N with 8%N.
      replace (m * 1000000)%N with ((m * 125000) * 8)%N by lia.
      rewrite rne_div_exact by lia. rewrite NQ_mul.
      change (pow2 (-3)) with (1 # 8)%Q. unfold NQ; simpl inject_Z; field.
    + change (2 ^ 4)%N with 16%N.
      replace (m * 1000000)%N with ((m * 62500) * 16)%N by lia.
      rewrite rne_div_exact by lia. rewrite NQ_mul.
      change (pow2 (-4)) with (1 # 16)%Q. unfold NQ; simpl inject_Z; field.
    + change (2 ^ 5)%N with 32%N.
      replace (m * 1000000)%N with ((m * 31250) * 32)%N by lia.
      rewrite rne_div_exact by lia. rewrite NQ_mul.
      change (pow2 (-5)) with (1 # 32)%Q. unfold NQ; simpl inject_Z; field.
    + change (2 ^ 6)%N with 64%N.
      replace (m * 1000000)%N with ((m * 15625) * 64)%N by lia.
      rewrite rne_div_exact by lia. rewrite NQ_mul.
      change (pow2 (-6)) with (1 # 64)%Q. unfold NQ; simpl inject_Z; field.
Qed.

(** A multiple of [2^-6] is read back as it was written. *)
Lemma reread_exact (neg : bool) (m : N) (e : Z) :
  is_binary64 (Fin neg m e) = true -> (-6 <= e)%Z ->
  reread (Fin neg m e) = Fin neg m e.
Proof.
  intros Hb He.
  destruct (@reread_close neg m e Hb) as (m' & e' & Hr & _).
  destruct (@is_binary64_finite neg m e Hb) as (He' & Hm & _).
  pose proof (@micro_exact m e He) as Hx.
  unfold reread, round_ratio in Hr |- *.
  destruct (micro m e) as [|p] eqn:Hn.
  - change (NQ 0) with 0%Q in Hx.
    assert (H0 : (NQ m * pow2 e == 0)%Q) by (rewrite <- Hx; reflexivity).
    apply NQ_pow2_zero in H0. subst m.
    cbn [is_binary64] in Hb. apply Z.eqb_eq in Hb. subst e. reflexivity.
  - set (E := ulp_exponent p 1000000) in *.
    set (M := scaled_rne (Npos p) 1000000 E) in *.
    destruct (1024 <? Z.of_N (N.size M) + E)%Z; [discriminate|].
    apply dyadic_canonical; [exact Hb|].
    pose proof (@round_nearest p 1000000 m e He' Hm) as Hnear.
    fold E M in Hnear.
    change (NQ (Npos 1000000)) with 1000000%Q in Hnear.
    rewrite Hx in Hnear.
    setoid_replace (NQ m * pow2 e - NQ m * pow2 e)%Q with 0%Q in Hnear by ring.
    change (Qabs 0) with 0%Q in Hnear.
    pose proof (Qabs_nonneg (NQ M * pow2 E - NQ m * pow2 e)) as Hnn.
    assert (H0 : (Qabs (NQ M * pow2 E - NQ m * pow2 e) == 0)%Q)
      by (apply Qle_antisym; assumption).
    set (Y := (NQ M * pow2 E)%Q) in *. set (X := (NQ m * pow2 e)%Q) in *.
    clearbody X Y. clear - H0.
    destruct (Qlt_le_dec (Y - X) 0) as [Hneg|Hpos].
    + rewrite Qabs_neg in H0 by lra. lra.
    + rewrite Qabs_pos in H0 by lra. lra.
Qed.

Lemma reread_exact_float (x : float) :
  six_decimals_exact x = true -> reread x = x.
Proof.
  destruct x as [|neg|neg m e]; try reflexivity.
  cbn [six_decimals_exact]. rewrite andb_true_iff, Z.leb_le.
  intros [Hb He]. apply reread_exact; assumption.
Qed.

(** X16.  A cloud whose coordinates are NaN, infinite or multiples of
    [2^-6] (integer values among them) is read back by [read_pcd] from
    the file written by [write_pcd] exactly as it was: six decimals
    hold such values exactly. *)
Theorem write_read_pcd_exact (pts : list point) :
  Forall (fun p => point_six_decimals_exact p = true) pts ->
  read_pcd (write_pcd pts) = Ok pts.
Proof.
  intros Hok. rewrite read_write_pcd. f_equal.
  induction Hok as [|[[x y] z] r Hp _ IH]; [reflexivity|].
  cbn [map]. rewrite IH. f_equal.
  unfold point_six_decimals_exact in Hp. rewrite !andb_true_iff in Hp.
  destruct Hp as [[Hx Hy] Hz].
  cbn [reread_point]. rewrite !reread_exact_float by assumption. reflexivity.
Qed.

Lemma write_read_pcd_exact_witness :
  read_pcd (write_pcd pcd_exact_points) = Ok pcd_exact_points.
Proof.
  apply (@write_read_pcd_exact pcd_exact_points).
  repeat constructor.
Defined.

(** *** The properties of a PLY header *)

Lemma other_initial (line kw : str) (c : N) (p : str) :
  startswith line (c :: p) = true ->
  match kw with k :: _ => (k =? c)%N = false | [] => False end ->
  startswith line kw = false.
Proof.
  intros H Hk. apply startswith_head in H. destruct H as [r ->].
  destruct kw as [|k kw]; [contradiction|].
  cbn [startswith]. rewrite Hk. reflexivity.
Qed.

Lemma ply_header_line_properties (h h' : ply_header) (line : str) :
  ply_header_line h line = Val h' ->
  properties h' = properties h ++ float_property line.
Proof.
  unfold ply_header_line, float_property.
  destruct (startswith line (lit "element vertex")) eqn:He.
  { change (lit "element vertex") with (101 :: lit "lement vertex")%N in He.
    rewrite (@other_initial line (lit "property float") _ _ He eq_refl).
    rewrite (@other_initial line (lit "property double") _ _ He eq_refl).
    cbn [orb]. rewrite app_nil_r.
    destruct (item_last (split line)) as [w|]; cbn [bind]; [|discriminate].
    destruct (int w) as [n|]; cbn [bind]; [|discriminate].
    intros H. inversion H. reflexivity. }
  destruct (startswith line (lit "format")) eqn:Hf.
  { change (lit "format") with (102 :: lit "ormat")%N in Hf.
    rewrite (@other_initial line (lit "property float") _ _ Hf eq_refl).
    rewrite (@other_initial line (lit "property double") _ _ Hf eq_refl).
    cbn [orb]. rewrite app_nil_r.
    destruct (word1 line) as [w|]; cbn [bind]; [|discriminate].
    intros H. inversion H. reflexivity. }
  destruct (startswith line (lit "property float")
            || startswith line (lit "property double")).
  - unfold item_last. destruct (last_item (split line)) as [w|]; cbn; [|discriminate].
    intros H. inversion H. reflexivity.
  - intros H. inversion H. rewrite app_nil_r. reflexivity.
Qed.

Lemma ply_parse_header_properties (lines : list str) (h0 h : ply_header) :
  ply_parse_header h0 lines = Val h ->
  properties h = properties h0 ++ flat_map float_property lines.
Proof.
  revert h0. induction lines as [|l r IH]; intros h0; cbn [ply_parse_header flat_map].
  - intros H. inversion H. rewrite app_nil_r. reflexivity.
  - destruct (ply_header_line h0 l) as [h1|] eqn:H1; cbn [bind]; [|discriminate].
    intros H. rewrite (IH _ H), (ply_header_line_properties _ _ H1), app_assoc.
    reflexivity.
Qed.

(** X17.  The properties that [read_ply] counts in a vertex are, in the
    order of the header, the last words of the lines that start with
    [property float] or [property double], and no others: a property of
    another type (a colour byte, a list) is not part of the vertex that
    the decoders read. *)
Theorem ply_header_float_properties (lines : list str) (h : ply_header) :
  ply_parse_header ply_header_init lines = Val h ->
  properties h = flat_map float_property lines.
Proof. intros H. apply (ply_parse_header_properties _ _ H). Qed.

Lemma ply_header_float_properties_witness :
  exists h,
    ply_parse_header ply_header_init ply_colour_header = Val h
    /\ properties h = flat_map float_property ply_colour_header
    /\ properties h = [lit "x"; lit "y"; lit "z"; lit "w"].
Proof.
  eexists. split; [vm_compute; reflexivity|]. split.
  - apply (@ply_header_float_properties ply_colour_header). vm_compute. reflexivity.
  - reflexivity.
Defined.

(** *** The header loops end at the sentinel line *)

(** Reading a line of whole lines that are followed by more bytes. *)
Lemma readline_whole_lines (p x : bytes) :
  readline ((p ++ ["010"%byte]) ++ x)
  = (fst (readline (p ++ ["010"%byte])), snd (readline (p ++ ["010"%byte])) ++ x)
  /\ whole_lines (snd (readline (p ++ ["010"%byte])))
  /\ List.length (snd (readline (p ++ ["010"%byte]))) < List.length (p ++ ["010"%byte]).
Proof.
  induction p as [|b p IH].
  - cbn. split; [reflexivity|]. split; [left; reflexivity | lia].
  - cbn [app readline]. destruct (Byte.eqb b "010") eqn:Hb.
    + cbn [fst snd]. split; [reflexivity|].
      split; [right; exists p; reflexivity | cbn; lia].
    + destruct IH as (IH1 & IH2 & IH3). rewrite IH1.
      destruct (readline (p ++ ["010"%byte])) as [l r]. cbn [fst snd] in *.
      split; [reflexivity|]. split; [exact IH2 | cbn; lia].
Qed.

Section Sentinel.
Variable S : Type.
Variable body : S -> step S.
Variable cursor : S -> bytes.
Variable stops : bytes -> Prop.
Hypothesis body_rest :
  forall s s', body s = Continue s' -> cursor s' = snd (readline (cursor s)).
Hypothesis body_stops :
  forall s s', stops (fst (readline (cursor s))) -> body s <> Continue s'.

(** A loop that reads a line a round and cannot go on after a stopping
    line ends when such a line follows whole lines. *)
Lemma while_true_sentinel (raw rest : bytes) :
  readline (raw ++ rest) = (raw, rest) -> stops raw ->
  forall (n : nat) (pre : bytes) (s : S),
    List.length pre < n -> whole_lines pre ->
    cursor s = pre ++ raw ++ rest ->
    exists k, while_true body k s <> Diverge.
Proof.
  intros Hraw Hstop. induction n as [|n IH]; intros pre s Hlen Hpre Hs; [lia|].
  destruct Hpre as [->|[p ->]].
  - exists 1. cbn [while_true app] in *.
    destruct (body s) as [s'|s'|e] eqn:Hb; try discriminate.
    exfalso. apply (@body_stops s s'); [|exact Hb].
    rewrite Hs, Hraw. exact Hstop.
  - destruct (readline_whole_lines p (raw ++ rest)) as (H1 & H2 & H3).
    destruct (body s) as [s'|s'|e] eqn:Hb.
    + destruct (IH (snd (readline (p ++ ["010"%byte]))) s') as [k Hk].
      * lia.
      * exact H2.
      * rewrite (body_rest Hb), Hs, H1. reflexivity.
      * exists (Datatypes.S k). cbn [while_true]. rewrite Hb. exact Hk.
    + exists 1. cbn [while_true]. rewrite Hb. discriminate.
    + exists 1. cbn [while_true]. rewrite Hb. discriminate.
Qed.
End Sentinel.

Lemma ply_header_body_stops (st st' : ply_scan) :
  (exists text, utf8_decode (fst (readline (ply_f st))) = Some text
                /\ strip text = lit "end_header") ->
  ply_header_body st <> Continue st'.
Proof.
  intros (text & Hd & Hs). unfold ply_header_body.
  destruct (readline (ply_f st)) as [line f]. cbn [fst] in Hd.
  rewrite Hd, Hs. discriminate.
Qed.

Lemma pcd_header_body_stops (st st' : pcd_scan) :
  (exists text, utf8_decode (fst (readline (pcd_f st))) = Some text
                /\ startswith (strip text) (lit "DATA") = true) ->
  pcd_header_body st <> Continue st'.
Proof.
  intros (text & Hd & Hs) Hb.
  apply pcd_header_body_continue in Hb.
  destruct Hb as (text' & Hd' & _ & _ & Hs' & _).
  congruence.
Qed.

(** X18.  A file in which a line whose stripped text starts with DATA
    follows whole lines: the header loop of [read_pcd] ends, at that
    line or before, and [read_pcd] returns or raises.  The same holds
    for [read_ply] and a line whose stripped text is [end_header]. *)
Theorem readers_end_at_sentinel_line (pre raw rest : bytes) (text : str) :
  whole_lines pre ->
  readline (raw ++ rest) = (raw, rest) ->
  utf8_decode raw = Some text ->
  (startswith (strip text) (lit "DATA") = true ->
   read_pcd (pre ++ raw ++ rest) <> Diverge)
  /\ (strip text = lit "end_header" ->
      read_ply (pre ++ raw ++ rest) <> Diverge).
Proof.
  intros Hpre Hraw Hd. split; intros Hs.
  - destruct (@while_true_sentinel pcd_scan pcd_header_body pcd_f
                (fun l => exists t, utf8_decode l = Some t
                                    /\ startswith (strip t) (lit "DATA") = true)
                pcd_header_body_rest pcd_header_body_stops raw rest Hraw
                (ex_intro _ text (conj Hd Hs))
                (Datatypes.S (List.length pre)) pre
                (pcd_scan_init (pre ++ raw ++ rest)))
      as [k Hk]; [lia | exact Hpre | reflexivity |].
    unfold read_pcd. rewrite (pcd_header_fuel k _ Hk).
    destruct (while_true pcd_header_body k _) as [st|e|]; [| |congruence].
    + destruct (str_eqb _ _); [destruct (read_pcd_ascii _); discriminate|].
      destruct (str_eqb _ _); [destruct (read_pcd_binary _ _ _); discriminate|].
      discriminate.
    + discriminate.
  - destruct (@while_true_sentinel ply_scan ply_header_body ply_f
                (fun l => exists t, utf8_decode l = Some t
                                    /\ strip t = lit "end_header")
                ply_header_body_rest ply_header_body_stops raw rest Hraw
                (ex_intro _ text (conj Hd Hs))
                (Datatypes.S (List.length pre)) pre
                {| ply_f := pre ++ raw ++ rest; ply_lines := [] |})
      as [k Hk]; [lia | exact Hpre | reflexivity |].
    unfold read_ply. rewrite (ply_header_fuel k _ Hk).
    destruct (while_true ply_header_body k _) as [st|e|]; [| |congruence].
    + destruct (ply_after_header _ _); discriminate.
    + discriminate.
Qed.

Lemma readers_end_at_sentinel_line_witness :
  read_pcd pcd_xy <> Diverge /\ read_ply ply_le_2 <> Diverge.
Proof.
  split.
  - apply (proj1 (@readers_end_at_sentinel_line
                    (ln "FIELDS x y" ++ ln "POINTS 2") (ln "DATA binary")
                    (blit "aaaabbbbccccdddd") (lit "DATA binary" ++ [10%N])
                    ltac:(right; exists (ln "FIELDS x y" ++ blit "POINTS 2"); reflexivity)
                    eq_refl eq_refl)).
    reflexivity.
  - apply (proj2 (@readers_end_at_sentinel_line
                    (ln "ply" ++ ln "format binary_little_endian 1.0"
                     ++ ln "element vertex 2" ++ ln "property float x"
                     ++ ln "property float y" ++ ln "property float z")
                    (ln "end_header") (blit "abcdefghijklmnopqrstuvwx")
                    (lit "end_header" ++ [10%N])
                    ltac:(right;
                          exists (ln "ply" ++ ln "format binary_little_endian 1.0"
                                  ++ ln "element vertex 2" ++ ln "property float x"
                                  ++ ln "property float y"
                                  ++ blit "property float z");
                          reflexivity)
                    eq_refl eq_refl)).
    reflexivity.
Defined.
